(** * multi-lingual-VA: the voice booking pipeline and the stream aggregator

    A shallow embedding of [express-app/server.js] (the [/voice] endpoint
    with its helpers), of [twilio-functions/stream.js] (the web-socket
    session aggregator) and of the sentiment chart of the dashboard, and
    the properties their specification states.

    External collaborators (database, cache, translation and detection
    provider, date parser, scheduler, speech synthesis, analytics store) are
    functions of an environment record: what a call answers is a parameter,
    that the call is made is an [Effect] in the trace of the run. *)

From Stdlib Require Import ZArith String Ascii List Bool Lia Floats.
From stdpp Require Import gmap strings list.
Import ListNotations.

Local Open Scope string_scope.
Local Open Scope Z_scope.

(** ** JavaScript values the two programs compute with *)

Module Js.

(** A value that is a string, or [undefined] ([None]). [null], which the
    two programs treat like [undefined] wherever it reaches them (a field
    the request lacks, a miss of the cache), is not told apart from it.

    A JavaScript string is a sequence of UTF-16 code units. It is written
    here in UTF-8, as the string literals of this file are; a surrogate
    that stands alone takes the three bytes of its code point. *)
Definition value := option string.

(** Truthiness: [undefined], [null] and the empty string are falsy. *)
Definition truthy (v : value) : bool :=
  match v with
  | Some s => negb (String.eqb s "")
  | None => false
  end.

(** [a || b]. *)
Definition or (a b : value) : value := if truthy a then a else b.

(** [a || 'literal'], whose result is always a string. *)
Definition or_else (a : value) (b : string) : string :=
  match a with
  | Some s => if String.eqb s "" then b else s
  | None => b
  end.

(** A value inside a template literal. *)
Definition show (v : value) : string :=
  match v with
  | Some s => s
  | None => "undefined"
  end.

(** [a === b] on such values. *)
Definition strict_eq (a b : value) : bool :=
  match a, b with
  | Some x, Some y => String.eqb x y
  | None, None => true
  | _, _ => false
  end.

Definition digit (n : Z) : ascii := ascii_of_nat (48 + Z.to_nat (n mod 10)).

Fixpoint dec_go (fuel : nat) (n : Z) (acc : string) : string :=
  match fuel with
  | O => acc
  | S fuel' =>
      let acc' := String (digit n) acc in
      if n / 10 =? 0 then acc' else dec_go fuel' (n / 10) acc'
  end.

(** [String(n)] for an integer [n >= 0]. *)
Definition dec (n : Z) : string := dec_go (S (Z.to_nat (Z.log2 n))) n "".

(** [String(n).padStart(w, '0')] for an integer [n >= 0]. *)
Definition pad (w : nat) (n : Z) : string :=
  let s := dec n in
  String.concat "" (repeat "0" (w - String.length s)) +:+ s.

Definition is_digit (c : ascii) : bool :=
  let n := nat_of_ascii c in (48 <=? n)%nat && (n <=? 57)%nat.

Fixpoint digits_go (s : string) (acc : Z) : option Z :=
  match s with
  | EmptyString => Some acc
  | String c s' =>
      if is_digit c then digits_go s' (10 * acc + Z.of_nat (nat_of_ascii c - 48))
      else None
  end.

(** [Number(s)] on the texts that consist of decimal digits, for which it
    is defined here: a run of digits is its value, exactly as long as it
    stays below 2^53, and the empty string is [0]. Of the other texts the
    embedding only says [None]: [Number] does not read all of them as
    [NaN] (it strips white space and reads fractions, exponents and other
    radixes), and what is proved about [Number] is proved for runs of
    digits. *)
Definition Number (s : string) : option Z := digits_go s 0.

(** The first [n] bytes of a string, and the rest. *)
Fixpoint take (n : nat) (s : string) : string :=
  match n, s with
  | S n', String c s' => String c (take n' s')
  | _, _ => EmptyString
  end.

Fixpoint drop (n : nat) (s : string) : string :=
  match n, s with
  | S n', String _ s' => drop n' s'
  | _, _ => s
  end.

(** White space of [String.prototype.trim] and [parseInt] below U+0080:
    tab, line feed, vertical tab, form feed, carriage return and space. *)
Definition is_space (c : ascii) : bool :=
  let n := nat_of_ascii c in
  ((9 <=? n)%nat && (n <=? 13)%nat) || (n =? 32)%nat.

Definition byte_is (c : ascii) (n : nat) : bool := (nat_of_ascii c =? n)%nat.

(** The number of bytes of the white-space character a string starts with,
    0 when it starts with none. Beyond U+0080 the white space is U+00A0,
    U+1680, U+2000 to U+200A, U+2028, U+2029, U+202F, U+205F, U+3000 and
    U+FEFF. *)
Definition space_width (s : string) : nat :=
  match s with
  | EmptyString => 0
  | String c rest =>
      if is_space c then 1
      else if byte_is c 194 then
        match rest with
        | String d _ => if byte_is d 160 then 2 else 0
        | _ => 0
        end
      else if byte_is c 225 || byte_is c 226 || byte_is c 227 || byte_is c 239 then
        match rest with
        | String d (String e _) =>
            let x := nat_of_ascii e in
            if (byte_is c 225 && byte_is d 154 && byte_is e 128)
               || (byte_is c 226 && byte_is d 128
                   && (((128 <=? x)%nat && (x <=? 138)%nat)
                       || byte_is e 168 || byte_is e 169 || byte_is e 175))
               || (byte_is c 226 && byte_is d 129 && byte_is e 159)
               || (byte_is c 227 && byte_is d 128 && byte_is e 128)
               || (byte_is c 239 && byte_is d 187 && byte_is e 191)
            then 3 else 0
        | _ => 0
        end
      else 0
  end.

Fixpoint trim_start_go (fuel : nat) (s : string) : string :=
  match fuel with
  | O => s
  | S fuel' =>
      match space_width s with
      | O => s
      | w => trim_start_go fuel' (drop w s)
      end
  end.

Definition trim_start (s : string) : string := trim_start_go (String.length s) s.

(** Whether a string is white space throughout. *)
Fixpoint all_space_go (fuel : nat) (s : string) : bool :=
  match s with
  | EmptyString => true
  | _ =>
      match fuel with
      | O => false
      | S fuel' =>
          match space_width s with
          | O => false
          | w => all_space_go fuel' (drop w s)
          end
      end
  end.

Definition all_space (s : string) : bool := all_space_go (String.length s) s.

Fixpoint trim_end (s : string) : string :=
  match s with
  | EmptyString => EmptyString
  | String c s' => if all_space s then EmptyString else String c (trim_end s')
  end.

(** [s.trim()]. *)
Definition trim (s : string) : string := trim_end (trim_start s).

Fixpoint digits_prefix (s : string) (acc : option Z) : option Z :=
  match s with
  | String c s' =>
      if is_digit c
      then digits_prefix s' (Some (10 * default 0 acc + Z.of_nat (nat_of_ascii c - 48)))
      else acc
  | EmptyString => acc
  end.

(** [parseInt(s, 10)]: leading white space, an optional sign, then the
    longest run of digits; [NaN] ([None]) when there is no digit. The value
    is the exact integer, which is [parseInt]'s as long as it stays below
    2^53; beyond that [parseInt] answers the nearest number it can
    represent. *)
Definition parseInt (s : string) : option Z :=
  match trim_start s with
  | String "-" s' => Z.opp <$> digits_prefix s' None
  | String "+" s' => digits_prefix s' None
  | s' => digits_prefix s' None
  end.

(** The number of bytes of the character that starts with the byte [c]. *)
Definition width (c : ascii) : nat :=
  let n := nat_of_ascii c in
  if (n <? 192)%nat then 1 else if (n <? 224)%nat then 2 else if (n <? 240)%nat then 3 else 4.

(** The first code unit of the surrogate pair of a character of four
    bytes, as the three bytes of its code point. *)
Definition high_surrogate (s : string) : string :=
  match s with
  | String b0 (String b1 (String b2 (String b3 _))) =>
      let cp := ((N_of_ascii b0 mod 8) * 262144 + (N_of_ascii b1 mod 64) * 4096
                 + (N_of_ascii b2 mod 64) * 64 + N_of_ascii b3 mod 64)%N in
      let hs := (55296 + (cp - 65536) / 1024)%N in
      String (ascii_of_N 237)
        (String (ascii_of_N (128 + (hs / 64) mod 64))
           (String (ascii_of_N (128 + hs mod 64)) EmptyString))
  | _ => s
  end.

(** [s.substring(0, n)]: the first [n] code units. A character of up to
    three bytes is one code unit, one of four bytes is two. *)
Fixpoint prefix (n : nat) (s : string) {struct n} : string :=
  match n with
  | O => EmptyString
  | S n' =>
      match s with
      | EmptyString => EmptyString
      | String c _ =>
          if (width c =? 4)%nat then
            match n' with
            | O => high_surrogate s
            | S n'' => take 4 s +:+ prefix n'' (drop 4 s)
            end
          else take (width c) s +:+ prefix n' (drop (width c) s)
      end
  end.

Fixpoint split_go (fuel : nat) (sep s cur : string) : list string :=
  match fuel with
  | O => [cur +:+ s]
  | S fuel' =>
      match s with
      | EmptyString => [cur]
      | String c s' =>
          if String.prefix sep s
          then cur :: split_go fuel' sep (String.substring (String.length sep) (String.length s) s) ""
          else split_go fuel' sep s' (cur +:+ String c EmptyString)
      end
  end.

(** [s.split(sep)] for a non-empty separator. *)
Definition split (sep s : string) : list string :=
  split_go (S (String.length s)) sep s "".

End Js.

(** ** Calendar arithmetic behind [Date] *)

Module Calendar.

(** A [Date] is its time value: milliseconds since the epoch. *)
Definition Date := Z.

Definition ms_per_minute : Z := 60000.
Definition ms_per_day : Z := 86400000.

(** Day number since the epoch to year, month and day of the proleptic
    Gregorian calendar, which is what [toISOString] prints. *)
Definition civil_from_days (days : Z) : Z * Z * Z :=
  let z := days + 719468 in
  let era := z / 146097 in
  let doe := z - era * 146097 in
  let yoe := (doe - doe / 1460 + doe / 36524 - doe / 146096) / 365 in
  let y := yoe + era * 400 in
  let doy := doe - (365 * yoe + yoe / 4 - yoe / 100) in
  let mp := (5 * doy + 2) / 153 in
  let d := doy - (153 * mp + 2) / 5 + 1 in
  let m := if mp <? 10 then mp + 3 else mp - 9 in
  (if m <=? 2 then y + 1 else y, m, d).

(** The inverse direction: the day number of a calendar date. *)
Definition days_from_civil (y m d : Z) : Z :=
  let y' := if m <=? 2 then y - 1 else y in
  let era := y' / 400 in
  let yoe := y' - era * 400 in
  let doy := (153 * (if m >? 2 then m - 3 else m + 9) + 2) / 5 + d - 1 in
  let doe := yoe * 365 + yoe / 4 - yoe / 100 + doy in
  era * 146097 + doe - 719468.

(** [date.toISOString().split('T')[0]]: the UTC calendar date, with the
    expanded six-digit year outside 0..9999. *)
Definition iso_date (t : Date) : string :=
  let '(y, m, d) := civil_from_days (t / ms_per_day) in
  let year :=
    if (0 <=? y) && (y <=? 9999) then Js.pad 4 y
    else if y <? 0 then "-" +:+ Js.pad 6 (- y) else "+" +:+ Js.pad 6 y in
  year +:+ "-" +:+ Js.pad 2 m +:+ "-" +:+ Js.pad 2 d.

(** Minute of the day, 0..1439, on the server's wall clock, which is
    [offset] minutes ahead of UTC. *)
Definition local_minute_of_day (offset : Z) (t : Date) : Z :=
  ((t + offset * ms_per_minute) / ms_per_minute) mod 1440.

(** The hour cycle that [hour12: false] selects for ['en-US'] in the
    runtime's [Intl]: [h23] prints the hour after midnight as 00, [h24]
    (engines that follow the earlier editions of ECMA-402) as 24. *)
Inductive HourCycle : Type := h23 | h24.

Definition hh_mm (cycle : HourCycle) (minute_of_day : Z) : string :=
  let hour := minute_of_day / 60 in
  Js.pad 2 (match cycle with
            | h23 => hour
            | h24 => if hour =? 0 then 24 else hour
            end)
  +:+ ":" +:+ Js.pad 2 (minute_of_day mod 60).

(** [date.toLocaleTimeString('en-US', { hour: '2-digit', minute: '2-digit',
    hour12: false })]. *)
Definition local_time (cycle : HourCycle) (offset : Z) (t : Date) : string :=
  hh_mm cycle (local_minute_of_day offset t).

(** What a ["YYYY-MM-DD HH:MM:SS"] string of the scheduler's API denotes:
    minutes since the epoch on the wall clock it is written in, an hour of
    24 being the midnight that ends the day. *)
Definition datetime_minutes (s : string) : option Z :=
  y ← Js.Number (String.substring 0 4 s);
  m ← Js.Number (String.substring 5 2 s);
  d ← Js.Number (String.substring 8 2 s);
  hh ← Js.Number (String.substring 11 2 s);
  mm ← Js.Number (String.substring 14 2 s);
  Some (days_from_civil y m d * 1440 + hh * 60 + mm).

End Calendar.

(** ** [express-app/server.js] *)

Module Server.

Import Calendar.

(** *** Data *)

(** A row of [SELECT id, email FROM customers]. *)
Record Customer := { id : string; email : string }.

(** [req.body.interaction_result], the summary a prior stream step left. *)
Record InteractionResult := {
  ir_transcript : Js.value;
  ir_detectedLanguage : Js.value;
  ir_sentiment : Js.value
}.

(** [req.body]; [From_] is the field [From]. *)
Record Body := {
  caller_id : Js.value;
  From_ : Js.value;
  call_id : Js.value;
  CallSid : Js.value;
  duration : Js.value;
  CallDuration : Js.value;
  ultravox_transcription : Js.value;
  SpeechResult : Js.value;
  interaction_result : option InteractionResult
}.

(** The JSON body posted to [/index.php/api/v1/appointments]; [end_] is
    the field [end]. *)
Record AppointmentBody := {
  start : string;
  end_ : string;
  notes : string;
  customerId : string;
  serviceId : string;
  providerId : Z
}.

(** A document of the [call_analytics] collection. The [timestamp] field is
    the store's server-side sentinel and carries no data of the request. *)
Record AnalyticsRecord := {
  subscriberEmail : string;
  callId : string;
  a_duration : option Z;
  a_sentiment : string;
  a_transcript : string;
  a_detectedLanguage : Js.value;
  appointmentBooked : bool;
  appointmentId : Js.value;
  appointmentTime : option Date;
  failureReason : Js.value
}.

(** How an awaited call of a collaborator settles; a rejection carries
    [error.message]. *)
Inductive Settled (A : Type) : Type :=
| Resolved (a : A)
| Rejected (message : string).
Arguments Resolved {A} a.
Arguments Rejected {A} message.

(** The translation client: [detect] answers the [language] field of the
    detection (it may be missing), [translate] the translated text. A
    response of an unexpected shape raises inside the caller's [try] and is
    a rejection here. *)
Record TranslationClient := {
  detect : string -> Settled Js.value;
  translate : string -> Js.value -> Js.value -> Settled string
}.

(** The cache client: which [get] and [set] commands fail. The cached
    entries themselves are the state of the run. *)
Record Redis := {
  get_error : string -> option string;
  set_error : string -> string -> option string
}.

(** [response.data] of the speech-synthesis provider. *)
Record TtsData := { audio_url : Js.value; audio_id : Js.value }.

(** [DEFAULT_APPOINTMENT_DURATION]: the number [30] of the destructuring
    default, or the text of the environment variable when it is set.
    [Minutes n] is a whole number of minutes that [Date] can add to today
    without leaving its range, as [30] is. *)
Inductive Duration : Type :=
| Minutes (n : Z)
| MinutesText (s : string).

(** The process environment and the collaborators behind the module-level
    clients. [translationClient], [db] and [redis] are [None] when their
    configuration variable is not set. What a collaborator answers is a
    function of what it is asked: [chrono_parse] closes over the reference
    date [new Date()], the two [toLocale...String] are the confirmation's
    date and time in the caller's locale (they raise on a malformed language
    tag), [appointments_post] answers [data.id]. [timezone_offset] is the
    offset in minutes of the server's wall clock from UTC. *)
Record Env := {
  translationClient : option TranslationClient;
  db : option (string -> Settled (list Customer));
  redis : option Redis;
  EASY_APPOINTMENTS_API_KEY : Js.value;
  EASY_APPOINTMENTS_URL : Js.value;
  DEFAULT_APPOINTMENT_SERVICE_ID : string;
  DEFAULT_APPOINTMENT_DURATION : Duration;
  ULTRAVOX_TTS_URL : Js.value;
  tts_post : string -> Js.value -> Settled TtsData;
  chrono_parse : string -> Settled (list Date);
  appointments_post : AppointmentBody -> Settled Js.value;
  toLocaleDateString : Date -> Js.value -> Settled string;
  toLocaleTimeString : Date -> Js.value -> Settled string;
  firestore_add : AnalyticsRecord -> Settled unit;
  timezone_offset : Z;
  hour_cycle : HourCycle
}.

(** What a run does to the outside, in order. *)
Inductive Effect : Type :=
| DbQuery (phoneNumber : string)
| RedisGet (key : string)
| RedisSet (key value : string) (ex : Z)
| Detect (text : string)
| Translate (text : string) (source target : Js.value)
| ChronoParse (text : string)
| CreateAppointment (body : AppointmentBody)
| TtsPost (text : string) (language : Js.value)
| Respond (status : Z) (voiceResponse : string)
| FirestoreAdd (record : AnalyticsRecord)
| ConsoleError (what : string).

(** The place where the handler stops, named after the states of the
    booking state machine. *)
Inductive Terminal : Type :=
| MissingCallerId
| CustomerMissing
| DatabaseOutage
| NotParsed
| Booked
| BookingFailed.

(** *** The monad of the handler: cache state, exceptions, effect trace *)

Inductive Completion (A : Type) : Type :=
| Normal (a : A)
| Thrown (message : string).
Arguments Normal {A} a.
Arguments Thrown {A} message.

(** The cache: key to value and time to live in seconds. *)
Abbreviation Cache := (gmap string (string * Z)).

Definition M (A : Type) : Type := Cache -> Completion A * Cache * list Effect.

Definition ret {A} (a : A) : M A := fun c => (Normal a, c, []).

Definition bind {A B} (m : M A) (k : A -> M B) : M B :=
  fun c =>
    match m c with
    | (Normal a, c1, e1) =>
        match k a c1 with
        | (r, c2, e2) => (r, c2, (e1 ++ e2)%list)
        end
    | (Thrown msg, c1, e1) => (Thrown msg, c1, e1)
    end.

Definition throw {A} (message : string) : M A := fun c => (Thrown message, c, []).

(** [try { m } catch (error) { handler(error.message) }]. *)
Definition try_catch {A} (m : M A) (handler : string -> M A) : M A :=
  fun c =>
    match m c with
    | (Normal a, c1, e1) => (Normal a, c1, e1)
    | (Thrown msg, c1, e1) =>
        match handler msg c1 with
        | (r, c2, e2) => (r, c2, (e1 ++ e2)%list)
        end
    end.

(** The same, for a handler that depends on what the block did before it
    raised. *)
Definition try_catch_after {A} (m : M A) (handler : list Effect -> string -> M A) : M A :=
  fun c =>
    match m c with
    | (Normal a, c1, e1) => (Normal a, c1, e1)
    | (Thrown msg, c1, e1) =>
        match handler e1 msg c1 with
        | (r, c2, e2) => (r, c2, (e1 ++ e2)%list)
        end
    end.

Definition emit (e : Effect) : M unit := fun c => (Normal tt, c, [e]).

(** The message of the error that [add] raises for a document with an
    [undefined] field, and of the one that a second response raises. *)
Definition invalid_document : string := "Cannot use undefined as a Firestore value".

Definition headers_sent : string := "Cannot set headers after they are sent to the client".

(** [res.headersSent] after a part of a run: whether it answered. *)
Definition answered (evs : list Effect) : bool :=
  existsb (fun e => match e with Respond _ _ => true | _ => false end) evs.

(** [res.status(status).json({ voiceResponse })]: once the headers are
    sent, [json] raises when it sets the content type, and nothing goes
    out. *)
Definition respond (headersSent : bool) (status : Z) (voiceResponse : string) : M unit :=
  if headersSent then throw headers_sent else emit (Respond status voiceResponse).

(** [await p] for a promise that settles as [s]. *)
Definition await {A} (s : Settled A) : M A :=
  match s with
  | Resolved a => ret a
  | Rejected msg => throw msg
  end.

Definition console_error (what : string) : M unit := emit (ConsoleError what).

Notation "'let*' x ':=' m 'in' k" := (bind m (fun x => k))
  (at level 10, x pattern, m at level 100, k at level 200).

Definition result {A} (r : Completion A * Cache * list Effect) : Completion A := r.1.1.
Definition cache {A} (r : Completion A * Cache * list Effect) : Cache := r.1.2.
Definition events {A} (r : Completion A * Cache * list Effect) : list Effect := r.2.

(** *** Helper functions *)

(** [ultravoxTextToSpeech(text, language)]. *)
Definition ultravoxTextToSpeech (env : Env) (text : string) (language : Js.value) : M string :=
  if negb (Js.truthy (ULTRAVOX_TTS_URL env)) then
    ret ("placeholder_audio_for_" +:+ Js.show language +:+ "_" +:+ Js.prefix 10 text +:+ ".mp3")
  else
    try_catch
      (let* _ := emit (TtsPost text language) in
       let* data := await (tts_post env text language) in
       ret (Js.or_else (Js.or (audio_url data) (audio_id data)) "error_getting_audio_url"))
      (fun _ =>
         let* _ := console_error "Error calling Ultravox TTS API:" in
         ret ("error_generating_tts_" +:+ Js.show language)).

(** What [minute + minutesToAdd] is once [setHours] has converted it to a
    number: a sum for the numeric default, and the number read off the
    concatenated digits when the duration is the environment's text. *)
Definition plus_minutes (minute : Z) (minutesToAdd : Duration) : option Z :=
  match minutesToAdd with
  | Minutes n => Some (minute + n)
  | MinutesText s => Js.Number (Js.dec minute +:+ s)
  end.

(** [addMinutesToTime(time, minutesToAdd)]. [setHours(hour, minutes, 0, 0)]
    on today's date followed by the 24-hour [toLocaleTimeString] keeps the
    time of day only, on a wall clock without a clock change that day and
    as long as the instant stays in the range of [Date]; a [NaN] part makes
    the date invalid. Nothing in the [try] block raises on a string, so the
    [catch] block is not entered. [cycle] is the hour cycle of the
    runtime. *)
Definition addMinutesToTime (cycle : HourCycle) (time : string) (minutesToAdd : Duration)
  : string :=
  match Js.Number <$> Js.split ":" time with
  | Some hour :: Some minute :: _ =>
      match plus_minutes minute minutesToAdd with
      | Some minutes => hh_mm cycle ((hour * 60 + minutes) mod 1440)
      | None => "Invalid Date"
      end
  | _ => "Invalid Date"
  end.

(** [translateText(text, sourceLang, targetLang)]. *)
Definition translateText (env : Env) (text : string) (sourceLang targetLang : Js.value) : M string :=
  match translationClient env with
  | None => ret text
  | Some client =>
      if negb (Js.truthy (Some text)) || Js.strict_eq sourceLang targetLang then ret text
      else
        try_catch
          (let* _ := emit (Translate text sourceLang targetLang) in
           let* translation := await (translate client text sourceLang targetLang) in
           ret translation)
          (fun _ =>
             let* _ := console_error "Error translating text" in
             ret text)
  end.

(** *** The [/voice] handler, step by step *)

Definition demo_customer : Customer :=
  {| id := "demo_customer"; email := "demo@example.com" |}.

(** Step 3, [Get Customer]: the customer, or the terminal state the handler
    returned in after it answered the caller. *)
Definition getCustomer (env : Env) (phoneNumber : string) (detectedLanguage : Js.value)
  : M (Customer + Terminal) :=
  match db env with
  | Some query =>
      try_catch
        (let* _ := emit (DbQuery phoneNumber) in
         let* rows := await (query phoneNumber) in
         match rows with
         | customer :: _ => ret (inl customer)
         | [] =>
             let* response :=
               ultravoxTextToSpeech env "Sorry, we could not find your record in our system."
                 (Some (Js.or_else detectedLanguage "en")) in
             let* _ := emit (Respond 200 response) in
             ret (inr CustomerMissing)
         end)
        (fun _ =>
           let* _ := console_error "Database error fetching customer:" in
           let* response :=
             ultravoxTextToSpeech env "Sorry, we encountered a database error. Please try again later."
               (Some (Js.or_else detectedLanguage "en")) in
           let* _ := emit (Respond 500 response) in
           ret (inr DatabaseOutage))
  | None => ret (inl demo_customer)
  end.

(** [await redis.get(cacheKey)]: the cached value, or [null]. *)
Definition redis_get (client : Redis) (key : string) : M Js.value :=
  let* _ := emit (RedisGet key) in
  match get_error client key with
  | Some msg => throw msg
  | None => fun c => (Normal (fst <$> c !! key), c, [])
  end.

(** [await redis.set(cacheKey, value, 'EX', ex)]. *)
Definition redis_set (client : Redis) (key value : string) (ex : Z) : M unit :=
  let* _ := emit (RedisSet key value ex) in
  match set_error client key value with
  | Some msg => throw msg
  | None => fun c => (Normal tt, <[key := (value, ex)]> c, [])
  end.

(** Step 4, [Detect Language (if not provided by interaction)]; the result
    is the value of [detectedLanguage] after the step. *)
Definition detectLanguage (env : Env) (detectedLanguage speechResult : Js.value) : M Js.value :=
  match
    (if negb (Js.truthy detectedLanguage) && Js.truthy speechResult
     then translationClient env else None)
  with
  | Some client =>
      let text := Js.show speechResult in
      let cacheKey := "lang:" +:+ text in
      try_catch
        (let* cached :=
           match redis env with
           | Some r => redis_get r cacheKey
           | None => ret detectedLanguage
           end in
         if negb (Js.truthy cached) then
           let* _ := emit (Detect text) in
           let* language := await (detect client text) in
           let* _ :=
             match redis env with
             | Some r =>
                 if Js.truthy language then redis_set r cacheKey (Js.show language) 3600
                 else ret tt
             | None => ret tt
             end in
           ret language
         else ret cached)
        (fun _ =>
           let* _ := console_error "Error detecting language:" in
           ret (Some "en"))
  | None =>
      if negb (Js.truthy detectedLanguage) then ret (Some "en")
      else ret detectedLanguage
  end.

(** Step 5, [Translate Input for Parsing (to English)]. *)
Definition translateInput (env : Env) (speechResult detectedLanguage : Js.value) : M Js.value :=
  if Js.truthy speechResult && negb (Js.strict_eq detectedLanguage (Some "en")) then
    let* translated := translateText env (Js.show speechResult) detectedLanguage (Some "en") in
    ret (Some translated)
  else ret speechResult.

(** Step 6, [Parse Appointment Time]: [appointmentStart], or [undefined]. *)
Definition parseAppointmentTime (env : Env) (textToParse : Js.value) : M (option Date) :=
  if Js.truthy textToParse then
    try_catch
      (let* _ := emit (ChronoParse (Js.show textToParse)) in
       let* results := await (chrono_parse env (Js.show textToParse)) in
       ret (head results))
      (fun _ =>
         let* _ := console_error "Error parsing date/time:" in
         ret None)
  else ret None.

(** Whether [add] accepts the document: it validates its argument before
    anything is written and raises, synchronously, when a field of the
    literal is [undefined]. Of the fields the three literals of the handler
    give it, [detectedLanguage] can be (a detection without [language]),
    and so can [appointmentId] in the literal of a booking (an answer of
    the scheduler without [id]); the other fields are strings, numbers,
    booleans or dates. [appointmentId] is no field of the literals of steps
    7f and 8a. *)
Definition storable (record : AnalyticsRecord) : bool :=
  match a_detectedLanguage record with
  | None => false
  | Some _ =>
      if appointmentBooked record
      then match appointmentId record with Some _ => true | None => false end
      else true
  end.

(** [firestore.collection('call_analytics').add(record).catch(...)]: the
    document is validated, the write is started, and a rejection of the
    promise it returns is logged by the [catch] callback; an invalid
    document raises at the call instead. [firestore] is set in every
    process that serves requests: [admin.firestore()] raises while the
    module loads otherwise. *)
Definition saveAnalytics (env : Env) (record : AnalyticsRecord) : M unit :=
  if storable record then
    let* _ := emit (FirestoreAdd record) in
    match firestore_add env record with
    | Resolved _ => ret tt
    | Rejected _ => console_error "Error saving analytics to Firestore:"
    end
  else throw invalid_document.

(** The fields every analytics record of a request shares. *)
Record Call := {
  c_customer : Customer;
  c_callId : Js.value;
  c_duration : Js.value;
  c_sentiment : string;
  c_transcript : string;
  c_speechResult : Js.value;
  c_detectedLanguage : Js.value
}.

Definition failure_record (call : Call) (reason : string) : AnalyticsRecord :=
  {| subscriberEmail := email (c_customer call);
     callId := Js.or_else (c_callId call) "N/A";
     a_duration := Js.parseInt (Js.or_else (c_duration call) "0");
     a_sentiment := c_sentiment call;
     a_transcript := c_transcript call;
     a_detectedLanguage := c_detectedLanguage call;
     appointmentBooked := false;
     appointmentId := None;
     appointmentTime := None;
     failureReason := Some reason |}.

Definition booked_record (call : Call) (bookedAppointmentId : Js.value) (appointmentStart : Date)
  : AnalyticsRecord :=
  {| subscriberEmail := email (c_customer call);
     callId := Js.or_else (c_callId call) "N/A";
     a_duration := Js.parseInt (Js.or_else (c_duration call) "0");
     a_sentiment := c_sentiment call;
     a_transcript := c_transcript call;
     a_detectedLanguage := c_detectedLanguage call;
     appointmentBooked := true;
     appointmentId := bookedAppointmentId;
     appointmentTime := Some appointmentStart;
     failureReason := None |}.

Definition dquote : string := String (ascii_of_nat 34) EmptyString.

(** The body of the scheduling request of step 7a. *)
Definition appointment_body (env : Env) (call : Call) (appointmentStart : Date) : AppointmentBody :=
  let startDate := iso_date appointmentStart in
  let startTime := local_time (hour_cycle env) (timezone_offset env) appointmentStart in
  let endTime :=
    addMinutesToTime (hour_cycle env) startTime (DEFAULT_APPOINTMENT_DURATION env) in
  let startDateTime := startDate +:+ " " +:+ startTime +:+ ":00" in
  let endDateTime := startDate +:+ " " +:+ endTime +:+ ":00" in
  {| start := startDateTime;
     end_ := endDateTime;
     notes := "Booked via Voice Agent. Original request: " +:+ dquote
              +:+ Js.show (c_speechResult call) +:+ dquote;
     customerId := id (c_customer call);
     serviceId := DEFAULT_APPOINTMENT_SERVICE_ID env;
     providerId := 1 |}.

(** Steps 7a to 7d, [Book Appointment] up to the analytics of a booking. *)
Definition bookAppointment (env : Env) (call : Call) (appointmentStart : Date) : M Terminal :=
  let detectedLanguage := c_detectedLanguage call in
  let* _ :=
    if negb (Js.truthy (EASY_APPOINTMENTS_URL env)) || negb (Js.truthy (EASY_APPOINTMENTS_API_KEY env))
    then throw "Easy!Appointments URL or API Key not configured."
    else ret tt in
  let body := appointment_body env call appointmentStart in
  let* _ := emit (CreateAppointment body) in
  let* bookedAppointmentId := await (appointments_post env body) in
  let* confirmationDate := await (toLocaleDateString env appointmentStart detectedLanguage) in
  let* confirmationTime := await (toLocaleTimeString env appointmentStart detectedLanguage) in
  let confirmationText :=
    "Okay, your appointment is booked for " +:+ confirmationDate +:+ " at "
    +:+ confirmationTime +:+ "." in
  let* translatedConfirmation := translateText env confirmationText (Some "en") detectedLanguage in
  let* voiceResponse := ultravoxTextToSpeech env translatedConfirmation detectedLanguage in
  let* _ := emit (Respond 200 voiceResponse) in
  let* _ := saveAnalytics env (booked_record call bookedAppointmentId appointmentStart) in
  ret Booked.

(** Steps 7e and 7f, [Handle Parsing Failure or Missing Info]. *)
Definition handleParsingFailure (env : Env) (call : Call) : M Terminal :=
  let detectedLanguage := c_detectedLanguage call in
  let errorMessage :=
    "Sorry, I couldn’t understand the date or time you requested. Could you please try again?" in
  let* translatedError := translateText env errorMessage (Some "en") detectedLanguage in
  let* voiceResponse := ultravoxTextToSpeech env translatedError detectedLanguage in
  let* _ := emit (Respond 200 voiceResponse) in
  let* _ := saveAnalytics env (failure_record call "Parsing failed") in
  ret NotParsed.

(** Steps 8 and 8a, [Handle General Errors]. The [try] block of step 7
    raises before it answers, or, when [add] raises, after it did
    ([headersSent]). *)
Definition handleGeneralError (env : Env) (call : Call) (headersSent : bool) (message : string)
  : M Terminal :=
  let detectedLanguage := c_detectedLanguage call in
  let* _ := console_error "Error processing /voice request:" in
  let* _ := console_error "error.stack" in
  let genericErrorMessage := "Sorry, an unexpected error occurred while processing your request." in
  let* translatedGenericError := translateText env genericErrorMessage (Some "en") detectedLanguage in
  let* voiceResponse := ultravoxTextToSpeech env translatedGenericError detectedLanguage in
  let* _ := respond headersSent 500 voiceResponse in
  let* _ := saveAnalytics env (failure_record call ("Server error: " +:+ message)) in
  ret BookingFailed.

(** Step 7, [Process Result (Book or Handle Failure)], with its [catch].
    An error that leaves the [catch] block rejects the promise of the
    handler. *)
Definition processResult (env : Env) (call : Call) (appointmentStart : option Date) : M Terminal :=
  try_catch_after
    match appointmentStart with
    | Some start => bookAppointment env call start
    | None => handleParsingFailure env call
    end
    (fun done message => handleGeneralError env call (answered done) message).

(** Steps 4 to 8, once the customer is known. *)
Definition serveCustomer (env : Env) (body : Body) (customer : Customer) : M Terminal :=
  let callId := Js.or (call_id body) (CallSid body) in
  let duration := Js.or (duration body) (CallDuration body) in
  let speechResult := Js.or (ultravox_transcription body) (SpeechResult body) in
  let interactionData := interaction_result body in
  let transcript :=
    Js.or_else (interactionData ≫= ir_transcript)
      ("Caller: " +:+ Js.or_else speechResult "N/A" +:+ String (ascii_of_nat 10) EmptyString) in
  let sentiment := Js.or_else (interactionData ≫= ir_sentiment) "neutral" in
  let* detectedLanguage := detectLanguage env (interactionData ≫= ir_detectedLanguage) speechResult in
  let* textToParse := translateInput env speechResult detectedLanguage in
  let* appointmentStart := parseAppointmentTime env textToParse in
  processResult env
    {| c_customer := customer;
       c_callId := callId;
       c_duration := duration;
       c_sentiment := sentiment;
       c_transcript := transcript;
       c_speechResult := speechResult;
       c_detectedLanguage := detectedLanguage |}
    appointmentStart.

(** [app.post('/voice', async (req, res) => ...)] on [req.body]. *)
Definition voice (env : Env) (body : Body) : M Terminal :=
  let phoneNumber := Js.or (caller_id body) (From_ body) in
  let detectedLanguage := interaction_result body ≫= ir_detectedLanguage in
  if negb (Js.truthy phoneNumber) then
    let* _ := console_error "Missing caller_id/From in request." in
    let* response :=
      ultravoxTextToSpeech env "An internal error occurred. Missing caller information."
        (Some "en") in
    let* _ := emit (Respond 400 response) in
    ret MissingCallerId
  else
    let* found := getCustomer env (Js.show phoneNumber) detectedLanguage in
    match found with
    | inl customer => serveCustomer env body customer
    | inr terminal => ret terminal
    end.

End Server.

(** ** [twilio-functions/stream.js] *)

Module Stream.

(** The function's [context]. *)
Record Context := { GOOGLE_API_KEY : Js.value }.

(** The fields the message handler reads off [JSON.parse(data.toString())]. *)
Record Response := {
  input : Js.value;
  text : Js.value;
  r_detectedLanguage : Js.value
}.

(** A frame of the web socket: one that [JSON.parse] rejects, or that does
    not parse to an object, raises inside the handler's outer [try] before
    anything is updated. *)
Inductive Frame : Type :=
| Malformed
| Json (response : Response).

Inductive Sentiment : Type := positive | negative | neutral.

(** The payload given to [callback] at close. *)
Record Summary := {
  s_text : string;
  s_transcript : string;
  s_sentiment : Sentiment;
  s_detectedLanguage : string
}.

(** How a sentiment-scoring request settles: rejected, answered without a
    [documentSentiment], or answered with a score. *)
Inductive Scoring : Type :=
| ScoringRejected
| NoDocumentSentiment
| DocumentSentiment (score : float).

(** The variables the handlers close over, the number of message handlers
    suspended at their [await], and the payloads [callback] was given. *)
Record State := {
  transcript : string;
  detectedLanguage : string;
  finalSentimentScore : float;
  sentimentCount : nat;
  pending : nat;
  callbacks : list Summary
}.

(** One turn of the event loop: a frame arrives, a scoring request settles
    and its handler resumes, or the connection closes. *)
Inductive Turn : Type :=
| Message (frame : Frame)
| Settle (outcome : Scoring)
| Close.

Definition newline : string := String (ascii_of_nat 10) EmptyString.

Definition initial : State :=
  {| transcript := "";
     detectedLanguage := "en";
     finalSentimentScore := 0%float;
     sentimentCount := 0;
     pending := 0;
     callbacks := [] |}.

(** [ws.on('message')] up to its [await]. *)
Definition on_message (context : Context) (st : State) (frame : Frame) : State :=
  match frame with
  | Malformed => st
  | Json response =>
      let t1 :=
        if Js.truthy (input response)
        then transcript st +:+ "Caller: " +:+ Js.show (input response) +:+ newline
        else transcript st in
      let t2 :=
        if Js.truthy (text response)
        then t1 +:+ "Receptionist: " +:+ Js.show (text response) +:+ newline
        else t1 in
      {| transcript := t2;
         detectedLanguage :=
           if Js.truthy (r_detectedLanguage response)
           then Js.show (r_detectedLanguage response) else detectedLanguage st;
         finalSentimentScore := finalSentimentScore st;
         sentimentCount := sentimentCount st;
         pending :=
           if Js.truthy (input response) && Js.truthy (GOOGLE_API_KEY context)
           then S (pending st) else pending st;
         callbacks := callbacks st |}
  end.

(** The rest of a message handler, resumed when its scoring request has
    settled. Without a suspended handler there is nothing to resume. *)
Definition on_settled (st : State) (outcome : Scoring) : State :=
  match pending st with
  | O => st
  | S n =>
      match outcome with
      | DocumentSentiment score =>
          {| transcript := transcript st;
             detectedLanguage := detectedLanguage st;
             finalSentimentScore := PrimFloat.add (finalSentimentScore st) score;
             sentimentCount := S (sentimentCount st);
             pending := n;
             callbacks := callbacks st |}
      | _ =>
          {| transcript := transcript st;
             detectedLanguage := detectedLanguage st;
             finalSentimentScore := finalSentimentScore st;
             sentimentCount := sentimentCount st;
             pending := n;
             callbacks := callbacks st |}
      end
  end.

(** The counter as the number it is in the division: exact for the counts
    a session can reach (below 2^53). *)
Definition number_of (n : nat) : float := PrimFloat.of_uint63 (Uint63.of_Z (Z.of_nat n)).

Definition threshold : float := 0x1.999999999999ap-3%float.

(** [finalSentimentScore / sentimentCount]. *)
Definition average (sum : float) (count : nat) : float := PrimFloat.div sum (number_of count).

(** [Determine final sentiment category]; [threshold] is the literal [0.2]. *)
Definition final_sentiment (sum : float) (count : nat) : Sentiment :=
  if (0 <? count)%nat then
    let avgScore := average sum count in
    if PrimFloat.ltb threshold avgScore then positive
    else if PrimFloat.ltb avgScore (PrimFloat.opp threshold) then negative
    else neutral
  else neutral.

(** [transcript.trim().split('\nReceptionist: ').pop().split('\n')[0]]. *)
Definition lastAgentResponse (transcript : string) : string :=
  let parts := Js.split (newline +:+ "Receptionist: ") (Js.trim transcript) in
  hd "" (Js.split newline (List.last parts "")).

Definition summary (st : State) : Summary :=
  {| s_text := lastAgentResponse (transcript st);
     s_transcript := transcript st;
     s_sentiment := final_sentiment (finalSentimentScore st) (sentimentCount st);
     s_detectedLanguage := detectedLanguage st |}.

(** [ws.on('close')]. *)
Definition on_close (st : State) : State :=
  {| transcript := transcript st;
     detectedLanguage := detectedLanguage st;
     finalSentimentScore := finalSentimentScore st;
     sentimentCount := sentimentCount st;
     pending := pending st;
     callbacks := callbacks st ++ [summary st] |}.

Definition step (context : Context) (st : State) (turn : Turn) : State :=
  match turn with
  | Message frame => on_message context st frame
  | Settle outcome => on_settled st outcome
  | Close => on_close st
  end.

Definition run (context : Context) (turns : list Turn) : State :=
  fold_left (step context) turns initial.

End Stream.

(** * The dashboard's sentiment chart

    [Dashboard.processChartData] (the sentiment part) and [SentimentChart]
    of the web client, which reads the analytics documents the server
    writes. *)

Module Dashboard.

(** [CallAnalytic] of the client's types; a field a document lacks is
    [None]. *)
Record CallAnalytic := {
  callId : string;
  subscriberEmail : string;
  timestamp : string;
  sentiment : Js.value;
  detectedLanguage : Js.value;
  transcript : Js.value
}.

(** [sentimentCounts], an object with exactly the own keys [positive],
    [negative] and [neutral]. The counters stay far below 2^53, where
    [++] is exact. *)
Record SentimentCounts := { positive : nat; negative : nat; neutral : nat }.

(** One step of the [forEach]: [hasOwnProperty] holds for the three own
    keys only. *)
Definition count_sentiment (counts : SentimentCounts) (call : CallAnalytic) : SentimentCounts :=
  if Js.truthy (sentiment call) then
    if String.eqb (Js.show (sentiment call)) "positive" then
      {| positive := S (positive counts); negative := negative counts;
         neutral := neutral counts |}
    else if String.eqb (Js.show (sentiment call)) "negative" then
      {| positive := positive counts; negative := S (negative counts);
         neutral := neutral counts |}
    else if String.eqb (Js.show (sentiment call)) "neutral" then
      {| positive := positive counts; negative := negative counts;
         neutral := S (neutral counts) |}
    else counts
  else counts.

Definition sentimentCounts (data : list CallAnalytic) : SentimentCounts :=
  fold_left count_sentiment data {| positive := 0; negative := 0; neutral := 0 |}.

Record Dataset := { d_data : list nat; backgroundColor : list string }.

Record ChartData := { labels : list string; datasets : list Dataset }.

(** The value given to [setSentimentData]. *)
Definition sentimentData (data : list CallAnalytic) : ChartData :=
  let counts := sentimentCounts data in
  {| labels := ["Positive"; "Negative"; "Neutral"];
     datasets :=
       [{| d_data := [positive counts; negative counts; neutral counts];
           backgroundColor := ["#4CAF50"; "#F44336"; "#FFC107"] |}] |}.

Inductive View : Type :=
| NoSentimentData
| Pie (data : ChartData).

(** [SentimentChart]: an array of labels is truthy, and
    [data.datasets[0]?.data.every(d => d === 0)] is [undefined] without a
    first dataset. *)
Definition SentimentChart (data : option ChartData) : View :=
  match data with
  | None => NoSentimentData
  | Some chart =>
      match datasets chart with
      | first :: _ => if forallb (Nat.eqb 0) (d_data first) then NoSentimentData else Pie chart
      | [] => Pie chart
      end
  end.

(** The calls whose sentiment is exactly [name]. *)
Definition rated (name : string) (data : list CallAnalytic) : list CallAnalytic :=
  filter (fun call => sentiment call = Some name) data.

End Dashboard.

(** ** What the properties of [express-app/server.js] are stated with *)

Module ServerSpec.

Import Calendar Server.

(** The bodies of the scheduling requests of a trace, in order. *)
Definition bookings (evs : list Effect) : list AppointmentBody :=
  omap (fun e => match e with CreateAppointment b => Some b | _ => None end) evs.

(** The responses sent to the caller: status and [voiceResponse]. *)
Definition responses (evs : list Effect) : list (Z * string) :=
  omap (fun e => match e with Respond s v => Some (s, v) | _ => None end) evs.

(** The analytics documents whose write was started. *)
Definition analytics (evs : list Effect) : list AnalyticsRecord :=
  omap (fun e => match e with FirestoreAdd r => Some r | _ => None end) evs.

(** The phone numbers looked up in the customer directory. *)
Definition lookups (evs : list Effect) : list string :=
  omap (fun e => match e with DbQuery p => Some p | _ => None end) evs.

(** Effects of the stages between the customer lookup and the booking:
    neither a lookup, a scheduling request, a response nor an analytics
    write. *)
Definition internal (e : Effect) : Prop :=
  match e with
  | DbQuery _ | CreateAppointment _ | Respond _ _ | FirestoreAdd _ => False
  | _ => True
  end.

(** The HTTP status the handler answers with in each terminal state. *)
Definition status_of (t : Terminal) : Z :=
  match t with
  | MissingCallerId => 400
  | DatabaseOutage | BookingFailed => 500
  | CustomerMissing | NotParsed | Booked => 200
  end.

(** The same environment with another analytics store. *)
Definition with_firestore (env : Env) (store : AnalyticsRecord -> Settled unit) : Env :=
  {| translationClient := translationClient env;
     db := db env;
     redis := redis env;
     EASY_APPOINTMENTS_API_KEY := EASY_APPOINTMENTS_API_KEY env;
     EASY_APPOINTMENTS_URL := EASY_APPOINTMENTS_URL env;
     DEFAULT_APPOINTMENT_SERVICE_ID := DEFAULT_APPOINTMENT_SERVICE_ID env;
     DEFAULT_APPOINTMENT_DURATION := DEFAULT_APPOINTMENT_DURATION env;
     ULTRAVOX_TTS_URL := ULTRAVOX_TTS_URL env;
     tts_post := tts_post env;
     chrono_parse := chrono_parse env;
     appointments_post := appointments_post env;
     toLocaleDateString := toLocaleDateString env;
     toLocaleTimeString := toLocaleTimeString env;
     firestore_add := store;
     timezone_offset := timezone_offset env;
     hour_cycle := hour_cycle env |}.

(** The same environment with another customer directory, or none. *)
Definition with_db (env : Env) (directory : option (string -> Settled (list Customer))) : Env :=
  {| translationClient := translationClient env;
     db := directory;
     redis := redis env;
     EASY_APPOINTMENTS_API_KEY := EASY_APPOINTMENTS_API_KEY env;
     EASY_APPOINTMENTS_URL := EASY_APPOINTMENTS_URL env;
     DEFAULT_APPOINTMENT_SERVICE_ID := DEFAULT_APPOINTMENT_SERVICE_ID env;
     DEFAULT_APPOINTMENT_DURATION := DEFAULT_APPOINTMENT_DURATION env;
     ULTRAVOX_TTS_URL := ULTRAVOX_TTS_URL env;
     tts_post := tts_post env;
     chrono_parse := chrono_parse env;
     appointments_post := appointments_post env;
     toLocaleDateString := toLocaleDateString env;
     toLocaleTimeString := toLocaleTimeString env;
     firestore_add := firestore_add env;
     timezone_offset := timezone_offset env;
     hour_cycle := hour_cycle env |}.

(** What the synthesis helper returns and does; it neither raises nor
    touches the cache, so both are functions of its arguments. *)
Definition speech (env : Env) (text : string) (language : Js.value) : string :=
  match result (ultravoxTextToSpeech env text language ∅) with
  | Normal v => v
  | Thrown _ => ""
  end.

Definition speech_events (env : Env) (text : string) (language : Js.value) : list Effect :=
  events (ultravoxTextToSpeech env text language ∅).

(** The same for the translation helper. *)
Definition translated (env : Env) (text : string) (source target : Js.value) : string :=
  match result (translateText env text source target ∅) with
  | Normal v => v
  | Thrown _ => ""
  end.

Definition translate_events (env : Env) (text : string) (source target : Js.value) : list Effect :=
  events (translateText env text source target ∅).

(** The same for steps 5 and 6. *)
Definition input_text (env : Env) (speechResult detectedLanguage : Js.value) : Js.value :=
  match result (translateInput env speechResult detectedLanguage ∅) with
  | Normal v => v
  | Thrown _ => None
  end.

Definition input_events (env : Env) (speechResult detectedLanguage : Js.value) : list Effect :=
  events (translateInput env speechResult detectedLanguage ∅).

Definition parsed (env : Env) (textToParse : Js.value) : option Date :=
  match result (parseAppointmentTime env textToParse ∅) with
  | Normal v => v
  | Thrown _ => None
  end.

Definition parse_events (env : Env) (textToParse : Js.value) : list Effect :=
  events (parseAppointmentTime env textToParse ∅).

Definition save_events (env : Env) (record : AnalyticsRecord) : list Effect :=
  events (saveAnalytics env record ∅).

(** The language step depends on the cache and may update it. *)
Definition language_of (env : Env) (hint speechResult : Js.value) (c : Cache) : Js.value :=
  match result (detectLanguage env hint speechResult c) with
  | Normal v => v
  | Thrown _ => None
  end.

(** The request fields the later steps use, as [serveCustomer] binds them. *)
Definition speech_of (body : Body) : Js.value :=
  Js.or (ultravox_transcription body) (SpeechResult body).

Definition phone_of (body : Body) : Js.value := Js.or (caller_id body) (From_ body).

Definition hint_of (body : Body) : Js.value := interaction_result body ≫= ir_detectedLanguage.

(** The customer the pipeline works for: the first row of the lookup, or
    the synthetic one when no directory is configured. *)
Definition customer_for (env : Env) (phoneNumber : string) (customer : Customer) : Prop :=
  match db env with
  | Some query => exists rest, query phoneNumber = Resolved (customer :: rest)
  | None => customer = demo_customer
  end.

Definition sample_client (answer : Settled string) : TranslationClient :=
  {| detect := fun _ => Resolved (Some "es"); translate := fun _ _ _ => answer |}.

(** An environment without any optional capability configured. *)
Definition bare_env : Env :=
  {| translationClient := None;
     db := None;
     redis := None;
     EASY_APPOINTMENTS_API_KEY := None;
     EASY_APPOINTMENTS_URL := None;
     DEFAULT_APPOINTMENT_SERVICE_ID := "default_service";
     DEFAULT_APPOINTMENT_DURATION := Minutes 30;
     ULTRAVOX_TTS_URL := None;
     tts_post := fun _ _ => Rejected "no provider";
     chrono_parse := fun _ => Resolved [];
     appointments_post := fun _ => Rejected "no provider";
     toLocaleDateString := fun _ _ => Resolved "Wednesday, January 1, 2025";
     toLocaleTimeString := fun _ _ => Resolved "11:45 PM";
     firestore_add := fun _ => Resolved tt;
     timezone_offset := 0;
     hour_cycle := h23 |}.

Definition with_translation (env : Env) (client : option TranslationClient) : Env :=
  {| translationClient := client;
     db := db env;
     redis := redis env;
     EASY_APPOINTMENTS_API_KEY := EASY_APPOINTMENTS_API_KEY env;
     EASY_APPOINTMENTS_URL := EASY_APPOINTMENTS_URL env;
     DEFAULT_APPOINTMENT_SERVICE_ID := DEFAULT_APPOINTMENT_SERVICE_ID env;
     DEFAULT_APPOINTMENT_DURATION := DEFAULT_APPOINTMENT_DURATION env;
     ULTRAVOX_TTS_URL := ULTRAVOX_TTS_URL env;
     tts_post := tts_post env;
     chrono_parse := chrono_parse env;
     appointments_post := appointments_post env;
     toLocaleDateString := toLocaleDateString env;
     toLocaleTimeString := toLocaleTimeString env;
     firestore_add := firestore_add env;
     timezone_offset := timezone_offset env;
     hour_cycle := hour_cycle env |}.

Definition with_redis (env : Env) (client : option Redis) : Env :=
  {| translationClient := translationClient env;
     db := db env;
     redis := client;
     EASY_APPOINTMENTS_API_KEY := EASY_APPOINTMENTS_API_KEY env;
     EASY_APPOINTMENTS_URL := EASY_APPOINTMENTS_URL env;
     DEFAULT_APPOINTMENT_SERVICE_ID := DEFAULT_APPOINTMENT_SERVICE_ID env;
     DEFAULT_APPOINTMENT_DURATION := DEFAULT_APPOINTMENT_DURATION env;
     ULTRAVOX_TTS_URL := ULTRAVOX_TTS_URL env;
     tts_post := tts_post env;
     chrono_parse := chrono_parse env;
     appointments_post := appointments_post env;
     toLocaleDateString := toLocaleDateString env;
     toLocaleTimeString := toLocaleTimeString env;
     firestore_add := firestore_add env;
     timezone_offset := timezone_offset env;
     hour_cycle := hour_cycle env |}.

Definition reliable_redis : Redis :=
  {| get_error := fun _ => None; set_error := fun _ _ => None |}.

(** The cache key of a speech text. *)
Definition cache_key (text : string) : string := "lang:" +:+ text.

(** The detection provider never answers an empty or missing code. *)
Definition detects_codes (env : Env) : Prop :=
  forall client text language,
    translationClient env = Some client ->
    detect client text = Resolved language -> Js.truthy language = true.

(** The resolver once it goes to the cache and the provider for [text], as
    a relation between the cache [c] before and the run: every way the
    cache client [redis env] and the detection [client] can answer. *)
Definition by_cache_then_detection (env : Env) (client : TranslationClient) (text : string)
    (c : Cache) (run : Completion Js.value * Cache * list Effect) : Prop :=
  let key := cache_key text in
  let failed := ConsoleError "Error detecting language:" in
  (forall r, redis env = Some r ->
     (forall message, get_error r key = Some message ->
        run = (Normal (Some "en"), c, [RedisGet key; failed]))
     /\ (get_error r key = None -> Js.truthy (fst <$> c !! key) = true ->
         run = (Normal (fst <$> c !! key), c, [RedisGet key]))
     /\ (get_error r key = None -> Js.truthy (fst <$> c !! key) = false ->
         (forall message, detect client text = Rejected message ->
            run = (Normal (Some "en"), c, [RedisGet key; Detect text; failed]))
         /\ (forall code, detect client text = Resolved (Some code) -> code <> "" ->
             (set_error r key code = None ->
                run = (Normal (Some code), <[key := (code, 3600)]> c,
                       [RedisGet key; Detect text; RedisSet key code 3600]))
             /\ (forall message, set_error r key code = Some message ->
                   run = (Normal (Some "en"), c,
                          [RedisGet key; Detect text; RedisSet key code 3600; failed])))))
  /\ (redis env = None ->
      (forall message, detect client text = Rejected message ->
         run = (Normal (Some "en"), c, [Detect text; failed]))
      /\ (forall code, detect client text = Resolved (Some code) -> code <> "" ->
          run = (Normal (Some code), c, [Detect text]))).

(** A cache that holds the language of one speech text. *)
Definition cached_es : Cache := {[ cache_key "hola" := ("es", 3600) ]}.

Definition not_understood : string :=
  "Sorry, I couldn’t understand the date or time you requested. Could you please try again?".

Definition unexpected_error : string :=
  "Sorry, an unexpected error occurred while processing your request.".

Definition not_configured : string := "Easy!Appointments URL or API Key not configured.".

Definition confirmation (confirmationDate confirmationTime : string) : string :=
  "Okay, your appointment is booked for " +:+ confirmationDate +:+ " at "
  +:+ confirmationTime +:+ ".".

(** The scheduler's address and key are both set. *)
Definition scheduler_configured (env : Env) : bool :=
  Js.truthy (EASY_APPOINTMENTS_URL env) && Js.truthy (EASY_APPOINTMENTS_API_KEY env).

(** The voice response for [message] in the caller's language, and the
    effects of producing it. *)
Definition reply (env : Env) (language : Js.value) (message : string) : string :=
  speech env (translated env message (Some "en") language) language.

Definition reply_events (env : Env) (language : Js.value) (message : string) : list Effect :=
  (translate_events env message (Some "en") language
   ++ speech_events env (translated env message (Some "en") language) language)%list.

(** What the [catch] block of step 8 logs before it answers. *)
Definition error_log (t : Terminal) : list Effect :=
  match t with
  | BookingFailed =>
      [ConsoleError "Error processing /voice request:"; ConsoleError "error.stack"]
  | _ => []
  end.

(** The ways through step 7: the terminal state, the effects of the [try]
    block before it answers or raises, the message the caller hears and the
    analytics document. *)
Inductive processed (env : Env) (call : Call)
  : option Date -> Terminal -> list Effect -> string -> AnalyticsRecord -> Prop :=
| processed_not_parsed :
    processed env call None NotParsed [] not_understood
      (failure_record call "Parsing failed")
| processed_not_configured d :
    scheduler_configured env = false ->
    processed env call (Some d) BookingFailed [] unexpected_error
      (failure_record call ("Server error: " +:+ not_configured))
| processed_scheduler_error d message :
    scheduler_configured env = true ->
    appointments_post env (appointment_body env call d) = Rejected message ->
    processed env call (Some d) BookingFailed
      [CreateAppointment (appointment_body env call d)] unexpected_error
      (failure_record call ("Server error: " +:+ message))
| processed_format_error d bookedAppointmentId message :
    scheduler_configured env = true ->
    appointments_post env (appointment_body env call d) = Resolved bookedAppointmentId ->
    toLocaleDateString env d (c_detectedLanguage call) = Rejected message
    \/ (exists confirmationDate,
          toLocaleDateString env d (c_detectedLanguage call) = Resolved confirmationDate
          /\ toLocaleTimeString env d (c_detectedLanguage call) = Rejected message) ->
    processed env call (Some d) BookingFailed
      [CreateAppointment (appointment_body env call d)] unexpected_error
      (failure_record call ("Server error: " +:+ message))
| processed_booked d bookedAppointmentId confirmationDate confirmationTime :
    scheduler_configured env = true ->
    appointments_post env (appointment_body env call d) = Resolved bookedAppointmentId ->
    toLocaleDateString env d (c_detectedLanguage call) = Resolved confirmationDate ->
    toLocaleTimeString env d (c_detectedLanguage call) = Resolved confirmationTime ->
    processed env call (Some d) Booked
      [CreateAppointment (appointment_body env call d)]
      (confirmation confirmationDate confirmationTime)
      (booked_record call bookedAppointmentId d).

(** What follows the answer when the analytics document cannot be stored.
    After the answers of steps 7c and 7e the error of [add] is caught by
    step 8, which logs, translates and synthesizes its sentence and then
    raises at its own response; after the answer of step 8 the error of
    [add] leaves the handler at once. *)
Definition recovery (env : Env) (call : Call) (t : Terminal) (record : AnalyticsRecord)
  : list Effect :=
  if storable record then []
  else
    match t with
    | BookingFailed => []
    | _ =>
        (error_log BookingFailed
         ++ reply_events env (c_detectedLanguage call) unexpected_error)%list
    end.

(** How the handler completes after it answered in the state [t]: it
    returns, or its promise is rejected with the error that left the
    [catch] block. *)
Definition outcome (t : Terminal) (record : AnalyticsRecord) : Completion Terminal :=
  if storable record then Normal t
  else Thrown (match t with BookingFailed => invalid_document | _ => headers_sent end).

(** The trace of step 7 along one of these ways. *)
Definition processed_events (env : Env) (call : Call) (t : Terminal) (attempt : list Effect)
    (message : string) (record : AnalyticsRecord) : list Effect :=
  (attempt ++ error_log t ++ reply_events env (c_detectedLanguage call) message
   ++ Respond (status_of t) (reply env (c_detectedLanguage call) message)
   :: save_events env record ++ recovery env call t record)%list.

(** The request as steps 7 and 8 see it, for a customer and a cache. *)
Definition call_of (env : Env) (body : Body) (customer : Customer) (c : Cache) : Call :=
  {| c_customer := customer;
     c_callId := Js.or (call_id body) (CallSid body);
     c_duration := Js.or (duration body) (CallDuration body);
     c_sentiment := Js.or_else (interaction_result body ≫= ir_sentiment) "neutral";
     c_transcript :=
       Js.or_else (interaction_result body ≫= ir_transcript)
         ("Caller: " +:+ Js.or_else (speech_of body) "N/A" +:+ String (ascii_of_nat 10) EmptyString);
     c_speechResult := speech_of body;
     c_detectedLanguage := language_of env (hint_of body) (speech_of body) c |}.

(** The text given to the date parser (step 5), and what it parsed (step 6). *)
Definition text_to_parse (env : Env) (body : Body) (c : Cache) : Js.value :=
  input_text env (speech_of body) (language_of env (hint_of body) (speech_of body) c).

Definition start_of (env : Env) (body : Body) (c : Cache) : option Date :=
  parsed env (text_to_parse env body c).

(** The effects of steps 4 to 6. *)
Definition stage_events (env : Env) (body : Body) (c : Cache) : list Effect :=
  (events (detectLanguage env (hint_of body) (speech_of body) c)
   ++ input_events env (speech_of body) (language_of env (hint_of body) (speech_of body) c)
   ++ parse_events env (text_to_parse env body c))%list.

Definition missing_caller : string := "An internal error occurred. Missing caller information.".
Definition record_not_found : string := "Sorry, we could not find your record in our system.".
Definition database_error : string :=
  "Sorry, we encountered a database error. Please try again later.".

(** The language of the answers of step 3. *)
Definition early_language (body : Body) : Js.value := Some (Js.or_else (hint_of body) "en").

(** The ways through the handler from a cache [c]: the state in which it
    answers, how it completes, the cache afterwards and the trace. *)
Inductive handled (env : Env) (body : Body) (c : Cache)
  : Terminal -> Completion Terminal -> Cache -> list Effect -> Prop :=
| handled_missing_caller :
    Js.truthy (phone_of body) = false ->
    handled env body c MissingCallerId (Normal MissingCallerId) c
      (ConsoleError "Missing caller_id/From in request."
       :: speech_events env missing_caller (Some "en")
       ++ [Respond 400 (speech env missing_caller (Some "en"))])
| handled_customer_missing query :
    Js.truthy (phone_of body) = true ->
    db env = Some query ->
    query (Js.show (phone_of body)) = Resolved [] ->
    handled env body c CustomerMissing (Normal CustomerMissing) c
      (DbQuery (Js.show (phone_of body))
       :: speech_events env record_not_found (early_language body)
       ++ [Respond 200 (speech env record_not_found (early_language body))])
| handled_database_outage query message :
    Js.truthy (phone_of body) = true ->
    db env = Some query ->
    query (Js.show (phone_of body)) = Rejected message ->
    handled env body c DatabaseOutage (Normal DatabaseOutage) c
      (DbQuery (Js.show (phone_of body))
       :: ConsoleError "Database error fetching customer:"
       :: speech_events env database_error (early_language body)
       ++ [Respond 500 (speech env database_error (early_language body))])
| handled_customer customer t attempt message record :
    Js.truthy (phone_of body) = true ->
    customer_for env (Js.show (phone_of body)) customer ->
    processed env (call_of env body customer c) (start_of env body c) t attempt message record ->
    handled env body c t (outcome t record)
      (cache (detectLanguage env (hint_of body) (speech_of body) c))
      (match db env with Some _ => [DbQuery (Js.show (phone_of body))] | None => [] end
       ++ stage_events env body c
       ++ processed_events env (call_of env body customer c) t attempt message record).

(** 2025-01-01T23:45:00Z. *)
Definition late_evening : Date := 1735775100000.

(** A server without database, cache or translation, whose date parser and
    scheduler answer. *)
Definition booking_env : Env :=
  {| translationClient := None;
     db := None;
     redis := None;
     EASY_APPOINTMENTS_API_KEY := Some "key";
     EASY_APPOINTMENTS_URL := Some "https://ea.example.com";
     DEFAULT_APPOINTMENT_SERVICE_ID := "default_service";
     DEFAULT_APPOINTMENT_DURATION := Minutes 30;
     ULTRAVOX_TTS_URL := None;
     tts_post := fun _ _ => Rejected "no provider";
     chrono_parse := fun _ => Resolved [late_evening];
     appointments_post := fun _ => Resolved (Some "A1");
     toLocaleDateString := fun _ _ => Resolved "Wednesday, January 1, 2025";
     toLocaleTimeString := fun _ _ => Resolved "11:45 PM";
     firestore_add := fun _ => Resolved tt;
     timezone_offset := 0;
     hour_cycle := h23 |}.

(** The same server with speech synthesis, and a scheduler whose answer
    carries no [id]. *)
Definition unnumbered_env : Env :=
  {| translationClient := None;
     db := None;
     redis := None;
     EASY_APPOINTMENTS_API_KEY := Some "key";
     EASY_APPOINTMENTS_URL := Some "https://ea.example.com";
     DEFAULT_APPOINTMENT_SERVICE_ID := "default_service";
     DEFAULT_APPOINTMENT_DURATION := Minutes 30;
     ULTRAVOX_TTS_URL := Some "https://tts.example.com";
     tts_post :=
       fun _ _ =>
         Resolved {| audio_url := Some "https://audio.example.com/1.mp3"; audio_id := None |};
     chrono_parse := fun _ => Resolved [late_evening];
     appointments_post := fun _ => Resolved None;
     toLocaleDateString := fun _ _ => Resolved "Wednesday, January 1, 2025";
     toLocaleTimeString := fun _ _ => Resolved "11:45 PM";
     firestore_add := fun _ => Resolved tt;
     timezone_offset := 0;
     hour_cycle := h23 |}.

Definition booking_body : Body :=
  {| caller_id := Some "+15550100";
     From_ := None;
     call_id := Some "call-1";
     CallSid := None;
     duration := Some "12";
     CallDuration := None;
     ultravox_transcription := Some "book me for tonight at a quarter to midnight";
     SpeechResult := None;
     interaction_result := None |}.

(** A directory that answers every phone number with the demo customer. *)
Definition demo_directory : option (string -> Settled (list Customer)) :=
  Some (fun _ => Resolved [demo_customer]).

(** The handler's one scheduling request, when it makes one. *)
Definition booked_slot (env : Env) (body : Body) : option (string * string) :=
  match bookings (events (voice env body ∅)) with
  | [b] => Some (start b, end_ b)
  | _ => None
  end.

(** The length in minutes of the slot a scheduling request asks for. *)
Definition slot_minutes (slot : string * string) : option Z :=
  s ← datetime_minutes slot.1; e ← datetime_minutes slot.2; Some (e - s).

Definition with_start (env : Env) (cycle : HourCycle) (d : Date) (minutes : Duration) : Env :=
  {| translationClient := translationClient env;
     db := db env;
     redis := redis env;
     EASY_APPOINTMENTS_API_KEY := EASY_APPOINTMENTS_API_KEY env;
     EASY_APPOINTMENTS_URL := EASY_APPOINTMENTS_URL env;
     DEFAULT_APPOINTMENT_SERVICE_ID := DEFAULT_APPOINTMENT_SERVICE_ID env;
     DEFAULT_APPOINTMENT_DURATION := minutes;
     ULTRAVOX_TTS_URL := ULTRAVOX_TTS_URL env;
     tts_post := tts_post env;
     chrono_parse := fun _ => Resolved [d];
     appointments_post := appointments_post env;
     toLocaleDateString := toLocaleDateString env;
     toLocaleTimeString := toLocaleTimeString env;
     firestore_add := firestore_add env;
     timezone_offset := timezone_offset env;
     hour_cycle := cycle |}.

(** 2025-01-01T10:00:00Z and 2025-01-01T10:15:00Z. *)
Definition mid_morning : Date := 1735725600000.
Definition quarter_past_ten : Date := 1735726500000.

(** The hour as [hh_mm] prints it. *)
Definition printed_hour (cycle : HourCycle) (minute_of_day : Z) : Z :=
  match cycle with
  | h23 => minute_of_day / 60
  | h24 => if minute_of_day / 60 =? 0 then 24 else minute_of_day / 60
  end.

(** The collaborator an effect goes to. *)
Inductive Kind : Type :=
| Lookup | CacheRead | CacheWrite | Detection | Translation | Parsing
| Scheduling | Synthesis | Response | AnalyticsWrite | Log.

#[global] Instance Kind_eq_dec : EqDecision Kind.
Proof. solve_decision. Defined.

Definition kind_of (e : Effect) : Kind :=
  match e with
  | DbQuery _ => Lookup
  | RedisGet _ => CacheRead
  | RedisSet _ _ _ => CacheWrite
  | Detect _ => Detection
  | Translate _ _ _ => Translation
  | ChronoParse _ => Parsing
  | CreateAppointment _ => Scheduling
  | TtsPost _ _ => Synthesis
  | Respond _ _ => Response
  | FirestoreAdd _ => AnalyticsWrite
  | ConsoleError _ => Log
  end.

(** How many effects of a trace go to a collaborator. *)
Definition count (k : Kind) (evs : list Effect) : nat :=
  length (filter (fun e => kind_of e = k) evs).

(** The collaborators of steps 4 to 7: cache, detection, translation, date
    parser, scheduler and analytics store. *)
Definition pipeline_kinds : list Kind :=
  [CacheRead; CacheWrite; Detection; Translation; Parsing; Scheduling; AnalyticsWrite].

(** How often a request that is served to the end may reach a
    collaborator, and how often one whose handler raises. *)
Definition call_limit (k : Kind) : nat :=
  match k with
  | Translation => 2
  | _ => 1
  end.

Definition call_limit_raised (k : Kind) : nat :=
  match k with
  | Translation => 3
  | Synthesis => 2
  | _ => 1
  end.

(** A server with translation and speech synthesis whose scheduler answers
    without an [id], for a caller who speaks Spanish. *)
Definition spanish_unnumbered_env : Env :=
  {| translationClient := Some (sample_client (Resolved "hello"));
     db := db unnumbered_env;
     redis := redis unnumbered_env;
     EASY_APPOINTMENTS_API_KEY := EASY_APPOINTMENTS_API_KEY unnumbered_env;
     EASY_APPOINTMENTS_URL := EASY_APPOINTMENTS_URL unnumbered_env;
     DEFAULT_APPOINTMENT_SERVICE_ID := DEFAULT_APPOINTMENT_SERVICE_ID unnumbered_env;
     DEFAULT_APPOINTMENT_DURATION := DEFAULT_APPOINTMENT_DURATION unnumbered_env;
     ULTRAVOX_TTS_URL := ULTRAVOX_TTS_URL unnumbered_env;
     tts_post := tts_post unnumbered_env;
     chrono_parse := chrono_parse unnumbered_env;
     appointments_post := appointments_post unnumbered_env;
     toLocaleDateString := toLocaleDateString unnumbered_env;
     toLocaleTimeString := toLocaleTimeString unnumbered_env;
     firestore_add := firestore_add unnumbered_env;
     timezone_offset := timezone_offset unnumbered_env;
     hour_cycle := hour_cycle unnumbered_env |}.

(** A request that does not name its caller. *)
Definition anonymous_body : Body :=
  {| caller_id := None;
     From_ := Some "";
     call_id := None;
     CallSid := Some "CA-7";
     duration := None;
     CallDuration := None;
     ultravox_transcription := None;
     SpeechResult := Some "tomorrow at ten";
     interaction_result := None |}.

(** What an analytics document [r] tells about the state [t] the run
    answered in. *)
Definition told (env : Env) (body : Body) (c : Cache) (t : Terminal) (r : AnalyticsRecord)
    (evs : list Effect) : Prop :=
  match t with
  | MissingCallerId | CustomerMissing | DatabaseOutage => False
  | NotParsed =>
      appointmentBooked r = false
      /\ failureReason r = Some "Parsing failed"
      /\ appointmentId r = None /\ appointmentTime r = None
  | Booked =>
      exists b,
        bookings evs = [b]
        /\ appointmentBooked r = true /\ failureReason r = None
        /\ appointmentTime r = start_of env body c
        /\ appointments_post env b = Resolved (appointmentId r)
        /\ appointmentId r <> None
  | BookingFailed =>
      exists message,
        appointmentBooked r = false
        /\ failureReason r = Some ("Server error: " +:+ message)
        /\ appointmentId r = None /\ appointmentTime r = None
        /\ (bookings evs = [] -> message = not_configured)
        /\ (forall b m, bookings evs = [b] -> appointments_post env b = Rejected m ->
              message = m)
  end.

(** The language an outcome is answered in: ['en'] without a caller's
    number, the hint or ['en'] before the language step, the language of
    the call after it. *)
Definition answer_language (env : Env) (body : Body) (c : Cache) (t : Terminal) : Js.value :=
  match t with
  | MissingCallerId => Some "en"
  | CustomerMissing | DatabaseOutage => early_language body
  | NotParsed | BookingFailed | Booked => language_of env (hint_of body) (speech_of body) c
  end.

(** The English sentence of an outcome. *)
Definition worded (env : Env) (body : Body) (c : Cache) (t : Terminal) (message : string)
  : Prop :=
  match t with
  | MissingCallerId => message = missing_caller
  | CustomerMissing => message = record_not_found
  | DatabaseOutage => message = database_error
  | NotParsed => message = not_understood
  | BookingFailed => message = unexpected_error
  | Booked =>
      exists d confirmationDate confirmationTime,
        start_of env body c = Some d
        /\ toLocaleDateString env d (answer_language env body c Booked)
           = Resolved confirmationDate
        /\ toLocaleTimeString env d (answer_language env body c Booked)
           = Resolved confirmationTime
        /\ message = confirmation confirmationDate confirmationTime
  end.

(** The text given to speech synthesis: the sentences of the outcomes
    before the language step are not translated. *)
Definition answer_text (env : Env) (body : Body) (c : Cache) (t : Terminal) (message : string)
  : string :=
  match t with
  | MissingCallerId | CustomerMissing | DatabaseOutage => message
  | NotParsed | BookingFailed | Booked =>
      translated env message (Some "en") (answer_language env body c t)
  end.

End ServerSpec.

(** ** What the properties of [twilio-functions/stream.js] are stated with *)

Module StreamSpec.

Import Stream.

(** The scores the session has added to its sum after [turns] from [st]:
    those of the settlements that resumed a suspended message handler with
    a [documentSentiment]. *)
Fixpoint scored (context : Context) (st : State) (turns : list Turn) : list float :=
  match turns with
  | [] => []
  | turn :: rest =>
      match turn, pending st with
      | Settle (DocumentSentiment score), S _ => score :: scored context (step context st turn) rest
      | _, _ => scored context (step context st turn) rest
      end
  end.

(** The sum as the handlers accumulate it. *)
Definition total (sum : float) (samples : list float) : float :=
  fold_left PrimFloat.add samples sum.

(** A session with a scoring key. *)
Definition keyed : Context := {| GOOGLE_API_KEY := Some "key" |}.

Definition caller_says (words : string) : Turn :=
  Message (Json {| input := Some words; text := None; r_detectedLanguage := None |}).

Definition agent_says (words : string) : Turn :=
  Message (Json {| input := None; text := Some words; r_detectedLanguage := None |}).

(** The session in which the caller speaks once per sample and each
    utterance is scored before the next. *)
Fixpoint session (samples : list float) : list Turn :=
  match samples with
  | [] => []
  | score :: rest => caller_says "..." :: Settle (DocumentSentiment score) :: session rest
  end.

(** A session without a scoring key. *)
Definition keyless : Context := {| GOOGLE_API_KEY := None |}.

(** The lines a frame adds to the transcript. *)
Definition lines (frame : Frame) : string :=
  match frame with
  | Malformed => ""
  | Json response =>
      (if Js.truthy (input response)
       then "Caller: " +:+ Js.show (input response) +:+ newline else "")
      +:+ (if Js.truthy (text response)
           then "Receptionist: " +:+ Js.show (text response) +:+ newline else "")
  end.

(** The lines of the frames of a session, in the order of arrival. *)
Fixpoint heard (turns : list Turn) : string :=
  match turns with
  | [] => ""
  | Message frame :: rest => lines frame +:+ heard rest
  | _ :: rest => heard rest
  end.

(** The language a turn announces, if any. *)
Definition announced (turn : Turn) : option string :=
  match turn with
  | Message (Json response) =>
      if Js.truthy (r_detectedLanguage response)
      then Some (Js.show (r_detectedLanguage response)) else None
  | _ => None
  end.

(** The turns that start a scoring request. *)
Definition asks (context : Context) (turn : Turn) : bool :=
  match turn with
  | Message (Json response) =>
      Js.truthy (input response) && Js.truthy (GOOGLE_API_KEY context)
  | _ => false
  end.

Definition closes (turn : Turn) : bool :=
  match turn with Close => true | _ => false end.

End StreamSpec.

(** ** Properties of [express-app/server.js] *)

Module ServerProofs.

Import Calendar Server ServerSpec.

(** *** The monad *)

Lemma bind_normal {A B} (m : M A) (k : A -> M B) c a c1 e1 :
  m c = (Normal a, c1, e1) ->
  bind m k c = (result (k a c1), cache (k a c1), (e1 ++ events (k a c1))%list).
Proof.
  intros E. unfold bind. rewrite E. destruct (k a c1) as [[r c2] e2]. reflexivity.
Qed.

Lemma bind_thrown {A B} (m : M A) (k : A -> M B) c msg c1 e1 :
  m c = (Thrown msg, c1, e1) -> bind m k c = (Thrown msg, c1, e1).
Proof. intros E. unfold bind. rewrite E. reflexivity. Qed.

Lemma try_catch_normal {A} (m : M A) h c a c1 e1 :
  m c = (Normal a, c1, e1) -> try_catch m h c = (Normal a, c1, e1).
Proof. intros E. unfold try_catch. rewrite E. reflexivity. Qed.

Lemma try_catch_thrown {A} (m : M A) h c msg c1 e1 :
  m c = (Thrown msg, c1, e1) ->
  try_catch m h c = (result (h msg c1), cache (h msg c1), (e1 ++ events (h msg c1))%list).
Proof.
  intros E. unfold try_catch. rewrite E. destruct (h msg c1) as [[r c2] e2]. reflexivity.
Qed.

Lemma run_eta {A} (r : Completion A * Cache * list Effect) :
  r = (result r, cache r, events r).
Proof. destruct r as [[? ?] ?]. reflexivity. Qed.

(** *** The helpers neither raise nor touch the cache *)

Lemma ultravoxTextToSpeech_run env text language c :
  ultravoxTextToSpeech env text language c
  = (Normal (speech env text language), c, speech_events env text language).
Proof.
  unfold speech, speech_events, ultravoxTextToSpeech.
  destruct (negb (Js.truthy (ULTRAVOX_TTS_URL env))); [reflexivity |].
  unfold try_catch, bind, emit, await, console_error, emit, ret, throw, result, events.
  destruct (tts_post env text language); reflexivity.
Qed.

Lemma append_not_empty a b : a <> "" -> a +:+ b <> "".
Proof. destruct a; [done | discriminate]. Qed.

Lemma or_else_not_empty v fallback : fallback <> "" -> Js.or_else v fallback <> "".
Proof.
  intros H. destruct v as [s|]; [| exact H]. cbn.
  by destruct (String.eqb_spec s "").
Qed.

(** The handle of the synthesis is never empty. *)
Lemma speech_not_empty env text language : speech env text language <> "".
Proof.
  unfold speech, ultravoxTextToSpeech.
  destruct (negb (Js.truthy (ULTRAVOX_TTS_URL env))); [by apply append_not_empty |].
  unfold try_catch, bind, emit, await, console_error, emit, ret, throw, result.
  destruct (tts_post env text language); cbn [fst];
    [by apply or_else_not_empty | by apply append_not_empty].
Qed.

(** A speech handle is what speech synthesis returned for some text in some
    language. *)
Lemma synthesized env text language :
  exists text' language',
    result (ultravoxTextToSpeech env text' language' ∅) = Normal (speech env text language).
Proof. exists text, language. by rewrite ultravoxTextToSpeech_run. Qed.

Lemma translateText_run env text source target c :
  translateText env text source target c
  = (Normal (translated env text source target), c, translate_events env text source target).
Proof.
  unfold translated, translate_events, translateText.
  destruct (translationClient env) as [client|]; [| reflexivity].
  destruct (negb (Js.truthy (Some text)) || Js.strict_eq source target); [reflexivity |].
  unfold try_catch, bind, emit, await, console_error, emit, ret, throw, result, events.
  destruct (translate client text source target); reflexivity.
Qed.

Lemma translateInput_run env speechResult detectedLanguage c :
  translateInput env speechResult detectedLanguage c
  = (Normal (input_text env speechResult detectedLanguage), c,
     input_events env speechResult detectedLanguage).
Proof.
  unfold input_text, input_events, translateInput.
  destruct (Js.truthy speechResult && negb (Js.strict_eq detectedLanguage (Some "en")));
    [| reflexivity].
  unfold bind. rewrite !translateText_run. reflexivity.
Qed.

Lemma parseAppointmentTime_run env textToParse c :
  parseAppointmentTime env textToParse c
  = (Normal (parsed env textToParse), c, parse_events env textToParse).
Proof.
  unfold parsed, parse_events, parseAppointmentTime.
  destruct (Js.truthy textToParse); [| reflexivity].
  unfold try_catch, bind, emit, await, console_error, emit, ret, throw, result, events.
  destruct (chrono_parse env (Js.show textToParse)); reflexivity.
Qed.

Lemma saveAnalytics_run env record c :
  saveAnalytics env record c
  = (if storable record then Normal tt else Thrown invalid_document, c,
     save_events env record).
Proof.
  unfold save_events, saveAnalytics, bind, emit, console_error, emit, ret, throw, events.
  destruct (storable record); [| reflexivity].
  destruct (firestore_add env record) as [[]|]; reflexivity.
Qed.

Lemma detectLanguage_run env hint speechResult c :
  detectLanguage env hint speechResult c
  = (Normal (language_of env hint speechResult c),
     cache (detectLanguage env hint speechResult c),
     events (detectLanguage env hint speechResult c)).
Proof.
  unfold language_of. rewrite (run_eta (detectLanguage env hint speechResult c)) at 1.
  f_equal. f_equal.
  unfold detectLanguage.
  destruct (if negb (Js.truthy hint) && Js.truthy speechResult then translationClient env else None)
    as [client|].
  - unfold try_catch, bind, redis_get, redis_set, bind, emit, await, console_error, emit,
      ret, throw, result.
    destruct (redis env) as [r|].
    + destruct (get_error r _); [reflexivity |].
      destruct (negb (Js.truthy (fst <$> c !! _))); [| reflexivity].
      destruct (detect client _) as [language|]; [| reflexivity].
      destruct (Js.truthy language); [| reflexivity].
      destruct (set_error r _ _); reflexivity.
    + destruct (negb (Js.truthy hint)); [| reflexivity].
      destruct (detect client _); reflexivity.
  - destruct (negb (Js.truthy hint)); reflexivity.
Qed.

(** *** JavaScript values *)

Lemma strict_eq_refl v : Js.strict_eq v v = true.
Proof. destruct v as [s|]; [apply String.eqb_refl | reflexivity]. Qed.

Lemma truthy_Some s : Js.truthy (Some s) = true <-> s <> "".
Proof.
  unfold Js.truthy. destruct (String.eqb_spec s ""); simpl; split; congruence.
Qed.

Lemma truthy_inv v : Js.truthy v = true -> exists s, v = Some s /\ s <> "".
Proof.
  destruct v as [s|]; [| discriminate]. intros H. exists s. split; [reflexivity |].
  by apply truthy_Some.
Qed.

(** *** The translation adapter *)

(** C7. [translateText] returns its input text, leaves the cache alone and
    has no effect at all (so the provider is not invoked) when the
    translation capability is not configured, the text is empty, or source
    and target language are equal; and when the provider's call fails, it
    still completes normally with the original text. *)
Theorem translateText_unchanged env text source target c :
  (translationClient env = None \/ text = "" \/ source = target ->
   translateText env text source target c = (Normal text, c, []))
  /\ (forall client message,
        translationClient env = Some client ->
        translate client text source target = Rejected message ->
        result (translateText env text source target c) = Normal text
        /\ cache (translateText env text source target c) = c).
Proof.
  split.
  - intros H. unfold translateText.
    destruct (translationClient env) as [client|]; [| reflexivity].
    destruct H as [H | [-> | ->]]; [discriminate | reflexivity |].
    rewrite strict_eq_refl, orb_true_r. reflexivity.
  - intros client message Hc Hfail. unfold translateText. rewrite Hc.
    destruct (negb (Js.truthy (Some text)) || Js.strict_eq source target); [done |].
    unfold try_catch, bind, emit, await, throw. rewrite Hfail. done.
Qed.

Lemma translateText_unchanged_witness :
  translateText (with_translation bare_env (Some (sample_client (Rejected "quota"))))
    "hola" (Some "en") (Some "en") ∅ = (Normal "hola", ∅, [])
  /\ result (translateText (with_translation bare_env (Some (sample_client (Rejected "quota"))))
               "hola" (Some "es") (Some "en") ∅) = Normal "hola".
Proof.
  split.
  - apply (translateText_unchanged
             (with_translation bare_env (Some (sample_client (Rejected "quota"))))
             "hola" (Some "en") (Some "en") ∅).
    right. right. reflexivity.
  - eapply (translateText_unchanged
              (with_translation bare_env (Some (sample_client (Rejected "quota"))))
              "hola" (Some "es") (Some "en") ∅); reflexivity.
Defined.

(** *** The language resolver *)

Ltac run_monad :=
  unfold try_catch, bind, redis_get, redis_set, bind, emit, await, console_error, emit,
    ret, throw; cbv beta iota.

Lemma detectLanguage_detecting env client hint text c :
  translationClient env = Some client ->
  Js.truthy hint = false ->
  text <> "" ->
  by_cache_then_detection env client text c (detectLanguage env hint (Some text) c).
Proof.
  intros Hclient Hhint Htext.
  assert (Hspeech : Js.truthy (Some text) = true) by by apply truthy_Some.
  unfold by_cache_then_detection, detectLanguage.
  rewrite Hhint, Hspeech, Hclient. cbn [negb andb].
  cbv iota. change (Js.show (Some text)) with text. fold (cache_key text).
  split.
  - intros r Hr. rewrite Hr. split; [| split].
    + intros message Hget. run_monad. rewrite Hget. reflexivity.
    + intros Hget Hhit. run_monad. rewrite Hget. cbv beta iota. rewrite Hhit. reflexivity.
    + intros Hget Hmiss. split.
      * intros message Hdet. run_monad. rewrite Hget. cbv beta iota.
        rewrite Hmiss. cbn [negb]. cbv iota. rewrite Hdet. reflexivity.
      * intros code Hdet Hcode.
        assert (Hc : Js.truthy (Some code) = true) by by apply truthy_Some.
        split.
        -- intros Hset. run_monad. rewrite Hget. cbv beta iota.
           rewrite Hmiss. cbn [negb]. cbv iota. rewrite Hdet. cbv beta iota. rewrite Hc.
           change (Js.show (Some code)) with code. rewrite Hset. reflexivity.
        -- intros message Hset. run_monad. rewrite Hget. cbv beta iota.
           rewrite Hmiss. cbn [negb]. cbv iota. rewrite Hdet. cbv beta iota. rewrite Hc.
           change (Js.show (Some code)) with code. rewrite Hset. reflexivity.
  - intros Hr. rewrite Hr. split.
    + intros message Hdet. run_monad. rewrite Hhint. cbn [negb]. cbv iota.
      rewrite Hdet. reflexivity.
    + intros code Hdet Hcode. run_monad. rewrite Hhint. cbn [negb]. cbv iota.
      rewrite Hdet. reflexivity.
Qed.

(** The resolver never answers an empty code when the provider does not. *)
Lemma detectLanguage_not_empty env hint speechResult c :
  detects_codes env ->
  exists code,
    result (detectLanguage env hint speechResult c) = Normal (Some code) /\ code <> "".
Proof.
  intros Hcodes. unfold detectLanguage.
  destruct (Js.truthy hint) eqn:Hhint.
  { destruct (truthy_inv hint Hhint) as (code & -> & Hne). by exists code. }
  cbn [negb andb]. cbv iota.
  destruct (Js.truthy speechResult) eqn:Hspeech; [| by exists "en"].
  destruct (translationClient env) as [client|] eqn:Hclient; [| by exists "en"].
  destruct (redis env) as [r|].
  - run_monad. destruct (get_error r _); [by exists "en" |]. cbv beta iota.
    destruct (Js.truthy (fst <$> c !! _)) eqn:Hhit.
    { destruct (truthy_inv _ Hhit) as (code & -> & Hne). by exists code. }
    cbn [negb]. cbv iota.
    destruct (detect client _) as [language|] eqn:Hdet; [| by exists "en"].
    pose proof (Hcodes _ _ _ Hclient Hdet) as Hlang. cbv beta iota. rewrite Hlang.
    destruct (set_error r _ _); [by exists "en" |].
    destruct (truthy_inv _ Hlang) as (code & -> & Hne). by exists code.
  - run_monad. rewrite Hhint. cbn [negb]. cbv iota.
    destruct (detect client _) as [language|] eqn:Hdet; [| by exists "en"].
    pose proof (Hcodes _ _ _ Hclient Hdet) as Hlang.
    destruct (truthy_inv _ Hlang) as (code & -> & Hne). by exists code.
Qed.

(** C3, as the code has it. A (non-empty) hint is returned and neither the
    cache nor the detection provider is touched; else, without a speech text
    or without a configured detection capability, the default ['en'] is
    returned and the cache is not consulted; else, with a cache configured,
    a hit by text returns the cached code without invoking detection; else
    (a miss, or no cache configured) detection is called and its non-empty
    code is returned, stored under the text for 3600 seconds when a cache is
    configured; a failing detection, cache read or cache write returns
    ['en'], and a failing detection leaves the cache as it was; the result
    is a non-empty code whenever the provider answers non-empty codes. *)
Theorem detectLanguage_precedence env hint speechResult c :
  let run := detectLanguage env hint speechResult c in
  (Js.truthy hint = true -> run = (Normal hint, c, []))
  /\ (Js.truthy hint = false ->
      Js.truthy speechResult = false \/ translationClient env = None ->
      run = (Normal (Some "en"), c, []))
  /\ (forall client text,
        Js.truthy hint = false -> speechResult = Some text -> text <> "" ->
        translationClient env = Some client ->
        by_cache_then_detection env client text c run)
  /\ (detects_codes env -> exists code, result run = Normal (Some code) /\ code <> "").
Proof.
  intros run. subst run. split; [| split; [| split]].
  - intros Hhint. unfold detectLanguage. rewrite Hhint. reflexivity.
  - intros Hhint Hno. unfold detectLanguage. rewrite Hhint.
    destruct Hno as [-> | ->]; [reflexivity |].
    cbn [negb andb]. cbv iota. by destruct (Js.truthy speechResult).
  - intros client text Hhint -> Htext Hclient. by apply detectLanguage_detecting.
  - apply detectLanguage_not_empty.
Qed.

(** C3 as stated fails: without a hint, for a speech text whose language
    the cache holds, a server whose detection capability is not configured
    answers the default ['en'], not the cached code, and does not read the
    cache. *)
Lemma cache_ignored_without_detection :
  redis (with_redis bare_env (Some reliable_redis)) = Some reliable_redis
  /\ cached_es !! cache_key "hola" = Some ("es", 3600)
  /\ detectLanguage (with_redis bare_env (Some reliable_redis)) None (Some "hola") cached_es
     = (Normal (Some "en"), cached_es, []).
Proof. split; [reflexivity | split; [by vm_compute | reflexivity]]. Qed.

(** With detection and cache configured, the same request is a cache hit. *)
Lemma detectLanguage_precedence_witness :
  detectLanguage
    (with_translation (with_redis bare_env (Some reliable_redis))
       (Some (sample_client (Resolved "hello"))))
    None (Some "hola") cached_es
  = (Normal (Some "es"), cached_es, [RedisGet (cache_key "hola")]).
Proof.
  destruct (detectLanguage_precedence
              (with_translation (with_redis bare_env (Some reliable_redis))
                 (Some (sample_client (Resolved "hello"))))
              None (Some "hola") cached_es) as (_ & _ & H & _).
  destruct (H (sample_client (Resolved "hello")) "hola" eq_refl eq_refl ltac:(done) eq_refl)
    as [Hcache _].
  destruct (Hcache reliable_redis eq_refl) as (_ & Hhit & _).
  exact (Hhit eq_refl eq_refl).
Defined.

(** *** Effects of the stages *)

Lemma internal_speech env text language : Forall internal (speech_events env text language).
Proof.
  unfold speech_events, ultravoxTextToSpeech.
  destruct (negb (Js.truthy (ULTRAVOX_TTS_URL env))); [constructor |].
  run_monad. destruct (tts_post env text language); repeat constructor.
Qed.

Lemma internal_translate env text source target :
  Forall internal (translate_events env text source target).
Proof.
  unfold translate_events, translateText.
  destruct (translationClient env) as [client|]; [| constructor].
  destruct (negb (Js.truthy (Some text)) || Js.strict_eq source target); [constructor |].
  run_monad. destruct (translate client text source target); repeat constructor.
Qed.

Lemma internal_input env speechResult detectedLanguage :
  Forall internal (input_events env speechResult detectedLanguage).
Proof.
  unfold input_events, translateInput.
  destruct (Js.truthy speechResult && negb (Js.strict_eq detectedLanguage (Some "en")));
    [| constructor].
  unfold bind. rewrite translateText_run. unfold ret, events. cbn [snd].
  rewrite app_nil_r. apply internal_translate.
Qed.

Lemma internal_parse env textToParse : Forall internal (parse_events env textToParse).
Proof.
  unfold parse_events, parseAppointmentTime.
  destruct (Js.truthy textToParse); [| constructor].
  run_monad. destruct (chrono_parse env _); repeat constructor.
Qed.

Lemma internal_detect env hint speechResult c :
  Forall internal (events (detectLanguage env hint speechResult c)).
Proof.
  unfold detectLanguage.
  destruct (if negb (Js.truthy hint) && Js.truthy speechResult then translationClient env else None)
    as [client|].
  - destruct (redis env) as [r|]; run_monad.
    + destruct (get_error r _); [repeat constructor |]. cbv beta iota.
      destruct (negb (Js.truthy (fst <$> c !! _))); [| repeat constructor]. cbv beta iota.
      destruct (detect client _) as [language|]; [| repeat constructor]. cbv beta iota.
      destruct (Js.truthy language); [| repeat constructor].
      destruct (set_error r _ _); repeat constructor.
    + destruct (negb (Js.truthy hint)); [| repeat constructor].
      destruct (detect client _); repeat constructor.
  - destruct (negb (Js.truthy hint)); constructor.
Qed.

Lemma bookings_app a b : bookings (a ++ b) = (bookings a ++ bookings b)%list.
Proof. apply omap_app. Qed.

Lemma responses_app a b : responses (a ++ b) = (responses a ++ responses b)%list.
Proof. apply omap_app. Qed.

Lemma analytics_app a b : analytics (a ++ b) = (analytics a ++ analytics b)%list.
Proof. apply omap_app. Qed.

Lemma lookups_app a b : lookups (a ++ b) = (lookups a ++ lookups b)%list.
Proof. apply omap_app. Qed.

Lemma internal_silent evs :
  Forall internal evs ->
  bookings evs = [] /\ responses evs = [] /\ analytics evs = [] /\ lookups evs = [].
Proof.
  induction 1 as [| e evs He _ (Hb & Hr & Ha & Hl)]; [done |].
  unfold bookings, responses, analytics, lookups in *. cbn [omap list_omap].
  rewrite Hb, Hr, Ha, Hl. by destruct e.
Qed.

Lemma save_events_cases env record :
  (storable record = false /\ save_events env record = [])
  \/ (storable record = true
      /\ (save_events env record = [FirestoreAdd record]
          \/ save_events env record
             = [FirestoreAdd record; ConsoleError "Error saving analytics to Firestore:"])).
Proof.
  unfold save_events, saveAnalytics. run_monad.
  destruct (storable record); [right | by left]. split; [reflexivity |].
  destruct (firestore_add env record) as [[]|]; [left | right]; reflexivity.
Qed.

(** *** Responses after the answer *)

Lemma answered_app a b : answered (a ++ b) = answered a || answered b.
Proof. unfold answered. apply existsb_app. Qed.

Lemma answered_internal evs : Forall internal evs -> answered evs = false.
Proof.
  induction 1 as [| e evs He _ IH]; [reflexivity |].
  unfold answered in *. cbn [existsb]. rewrite IH. by destruct e.
Qed.

(** *** The run of step 7 *)

Lemma internal_reply env language message : Forall internal (reply_events env language message).
Proof.
  unfold reply_events. rewrite Forall_app.
  split; [apply internal_translate | apply internal_speech].
Qed.

Lemma internal_error_log t : Forall internal (error_log t).
Proof. destruct t; repeat constructor. Qed.

(** The [catch] block after the [try] block answered: its own response
    raises. *)
Lemma handleGeneralError_after env call message c :
  handleGeneralError env call true message c
  = (Thrown headers_sent, c,
     (error_log BookingFailed
      ++ reply_events env (c_detectedLanguage call) unexpected_error)%list).
Proof.
  unfold handleGeneralError, reply_events, respond, bind, console_error, emit, throw.
  rewrite translateText_run. cbv beta iota.
  rewrite ultravoxTextToSpeech_run. cbv beta iota.
  fold unexpected_error. cbn [error_log app]. by rewrite !app_nil_r.
Qed.

(** The [catch] block when the [try] block raised before it answered. *)
Lemma handleGeneralError_before env call message c :
  handleGeneralError env call false message c
  = (outcome BookingFailed (failure_record call ("Server error: " +:+ message)), c,
     processed_events env call BookingFailed [] unexpected_error
       (failure_record call ("Server error: " +:+ message))).
Proof.
  unfold handleGeneralError, processed_events, reply_events, reply, recovery, outcome,
    respond, bind, console_error, emit, ret.
  rewrite translateText_run. cbv beta iota.
  rewrite ultravoxTextToSpeech_run, saveAnalytics_run. cbv beta iota.
  fold unexpected_error. cbn [error_log status_of app].
  destruct (storable (failure_record call ("Server error: " +:+ message)));
    by rewrite !app_nil_r, <- ?app_assoc.
Qed.

Lemma processed_total env call appointmentStart :
  exists t attempt message record,
    processed env call appointmentStart t attempt message record.
Proof.
  destruct appointmentStart as [d|]; [| eexists _, _, _, _; apply processed_not_parsed].
  destruct (scheduler_configured env) eqn:Hconf;
    [| eexists _, _, _, _; by eapply processed_not_configured].
  destruct (appointments_post env (appointment_body env call d)) as [aid|msg] eqn:Hpost;
    [| eexists _, _, _, _; by eapply processed_scheduler_error].
  destruct (toLocaleDateString env d (c_detectedLanguage call)) as [ds|msg] eqn:Hd;
    [| eexists _, _, _, _; eapply processed_format_error; eauto].
  destruct (toLocaleTimeString env d (c_detectedLanguage call)) as [ts|msg] eqn:Ht;
    [| eexists _, _, _, _; eapply processed_format_error; eauto].
  eexists _, _, _, _. by eapply processed_booked.
Qed.

Ltac run_booking Hconf :=
  unfold bookAppointment; unfold scheduler_configured in Hconf;
  apply andb_true_iff in Hconf as [-> ->];
  run_monad; cbn [negb orb]; cbv iota.

(** What the [try] block of step 7 does after it answered. *)
Lemma answer_then_save env call (t : Terminal) before status payload record c :
  t <> BookingFailed ->
  answered before = false ->
  try_catch_after
    (fun c0 =>
       (if storable record then Normal t else Thrown invalid_document, c0,
        (before ++ Respond status payload :: save_events env record)%list))
    (fun done message => handleGeneralError env call (answered done) message) c
  = (outcome t record, c,
     (before ++ Respond status payload
      :: save_events env record
      ++ (if storable record then []
          else error_log BookingFailed
               ++ reply_events env (c_detectedLanguage call) unexpected_error))%list).
Proof.
  intros Ht Hint. unfold try_catch_after, outcome.
  destruct (storable record) eqn:Hs.
  - by rewrite app_nil_r.
  - assert (answered (before ++ Respond status payload :: save_events env record) = true)
      as ->.
    { rewrite answered_app, Hint. reflexivity. }
    rewrite handleGeneralError_after. f_equal; [by destruct t |].
    rewrite <- app_assoc. reflexivity.
Qed.

(** The relation is the graph of step 7. *)
Lemma processResult_processed env call appointmentStart t attempt message record c :
  processed env call appointmentStart t attempt message record ->
  processResult env call appointmentStart c
  = (outcome t record, c, processed_events env call t attempt message record).
Proof.
  intros H. unfold processResult.
  destruct H as [| d Hconf | d msg Hconf Hpost | d aid msg Hconf Hpost Hfmt
                 | d aid ds ts Hconf Hpost Hd Ht].
  - pose proof (answer_then_save env call NotParsed
                  (reply_events env (c_detectedLanguage call) not_understood) 200
                  (reply env (c_detectedLanguage call) not_understood)
                  (failure_record call "Parsing failed") c ltac:(done)
                  (answered_internal _ (internal_reply _ _ _))) as Hrun.
    assert (Hbody : handleParsingFailure env call c
                    = (if storable (failure_record call "Parsing failed")
                       then Normal NotParsed else Thrown invalid_document, c,
                       (reply_events env (c_detectedLanguage call) not_understood
                        ++ Respond 200 (reply env (c_detectedLanguage call) not_understood)
                        :: save_events env (failure_record call "Parsing failed"))%list)).
    { unfold handleParsingFailure, reply_events, reply, bind, emit, ret.
      rewrite translateText_run. cbv beta iota.
      rewrite ultravoxTextToSpeech_run, saveAnalytics_run. cbv beta iota.
      fold not_understood.
      destruct (storable (failure_record call "Parsing failed"));
        by rewrite ?app_nil_r, <- ?app_assoc. }
    unfold try_catch_after in Hrun |- *. rewrite Hbody. exact Hrun.
  - unfold try_catch_after.
    assert (Hthrow : bookAppointment env call d c
                     = (Thrown not_configured, c, [])).
    { unfold bookAppointment. unfold scheduler_configured in Hconf.
      rewrite <- negb_true_iff, negb_andb in Hconf. rewrite Hconf.
      run_monad. reflexivity. }
    rewrite Hthrow. cbn [answered existsb]. rewrite handleGeneralError_before. reflexivity.
  - unfold try_catch_after.
    assert (Hthrow : bookAppointment env call d c
                     = (Thrown msg, c, [CreateAppointment (appointment_body env call d)])).
    { run_booking Hconf. rewrite Hpost. reflexivity. }
    rewrite Hthrow. cbn [answered existsb orb]. rewrite handleGeneralError_before. reflexivity.
  - unfold try_catch_after.
    assert (Hthrow : bookAppointment env call d c
                     = (Thrown msg, c, [CreateAppointment (appointment_body env call d)])).
    { run_booking Hconf. rewrite Hpost. cbv beta iota.
      destruct Hfmt as [Hd | (ds & Hd & Ht)]; rewrite Hd; [| rewrite Ht]; reflexivity. }
    rewrite Hthrow. cbn [answered existsb orb]. rewrite handleGeneralError_before. reflexivity.
  - pose proof (answer_then_save env call Booked
                  (CreateAppointment (appointment_body env call d)
                   :: reply_events env (c_detectedLanguage call) (confirmation ds ts)) 200
                  (reply env (c_detectedLanguage call) (confirmation ds ts))
                  (booked_record call aid d) c ltac:(done)) as Hrun.
    specialize (Hrun (answered_internal _ (internal_reply _ _ _))).
    assert (Hbody : bookAppointment env call d c
                    = (if storable (booked_record call aid d)
                       then Normal Booked else Thrown invalid_document, c,
                       ((CreateAppointment (appointment_body env call d)
                         :: reply_events env (c_detectedLanguage call) (confirmation ds ts))
                        ++ Respond 200 (reply env (c_detectedLanguage call) (confirmation ds ts))
                        :: save_events env (booked_record call aid d))%list)).
    { unfold reply_events, reply.
      run_booking Hconf. rewrite Hpost, Hd, Ht. cbv beta iota.
      rewrite translateText_run. cbv beta iota.
      rewrite ultravoxTextToSpeech_run, saveAnalytics_run. cbv beta iota.
      fold (confirmation ds ts). cbn [app].
      destruct (storable (booked_record call aid d));
        by rewrite ?app_nil_r, <- ?app_assoc. }
    unfold try_catch_after in Hrun |- *. rewrite Hbody. exact Hrun.
Qed.

(** *** The run of the handler *)

Lemma serveCustomer_processed env body customer c t attempt message record :
  processed env (call_of env body customer c) (start_of env body c) t attempt message record ->
  serveCustomer env body customer c
  = (outcome t record, cache (detectLanguage env (hint_of body) (speech_of body) c),
     (stage_events env body c
      ++ processed_events env (call_of env body customer c) t attempt message record)%list).
Proof.
  intros Hp.
  unfold serveCustomer. fold (speech_of body). fold (hint_of body).
  erewrite bind_normal; [| apply detectLanguage_run].
  erewrite bind_normal; [| apply translateInput_run].
  erewrite bind_normal; [| apply parseAppointmentTime_run].
  fold (text_to_parse env body c). fold (start_of env body c).
  fold (call_of env body customer c).
  rewrite (processResult_processed _ _ _ _ _ _ _ _ Hp).
  unfold result, cache, events, stage_events. cbn [fst snd].
  by rewrite <- !app_assoc.
Qed.

(** The relation is the graph of the handler. *)
Lemma voice_handled env body c t r c' evs :
  handled env body c t r c' evs -> voice env body c = (r, c', evs).
Proof.
  intros H. unfold voice. fold (phone_of body). fold (hint_of body).
  destruct H as [Hphone | query Hphone Hdb Hq | query msg Hphone Hdb Hq
                 | customer t attempt message record Hphone Hcust Hp];
    rewrite Hphone; cbn [negb]; cbv iota.
  - run_monad. rewrite ultravoxTextToSpeech_run. cbn [app]. by rewrite ?app_nil_r.
  - unfold getCustomer. rewrite Hdb. run_monad. rewrite Hq. cbv beta iota.
    rewrite ultravoxTextToSpeech_run. cbn [app]. by rewrite ?app_nil_r.
  - unfold getCustomer. rewrite Hdb. run_monad. rewrite Hq. cbv beta iota.
    rewrite ultravoxTextToSpeech_run. cbn [app]. by rewrite ?app_nil_r.
  - unfold getCustomer, customer_for in *. destruct (db env) as [query|].
    + destruct Hcust as [rest Hq]. run_monad. rewrite Hq. cbv beta iota.
      rewrite (serveCustomer_processed _ _ _ _ _ _ _ _ Hp). cbn [app]. by rewrite ?app_nil_r.
    + subst customer. run_monad.
      rewrite (serveCustomer_processed _ _ _ _ _ _ _ _ Hp). cbn [app]. by rewrite ?app_nil_r.
Qed.

Lemma handled_total env body c : exists t r c' evs, handled env body c t r c' evs.
Proof.
  destruct (Js.truthy (phone_of body)) eqn:Hphone;
    [| eexists _, _, _, _; by apply handled_missing_caller].
  assert (Hserve : forall customer,
             customer_for env (Js.show (phone_of body)) customer ->
             exists t r c' evs, handled env body c t r c' evs).
  { intros customer Hcust.
    destruct (processed_total env (call_of env body customer c) (start_of env body c))
      as (t & attempt & message & record & Hp).
    eexists _, _, _, _. by eapply handled_customer. }
  destruct (db env) as [query|] eqn:Hdb.
  - destruct (query (Js.show (phone_of body))) as [[|customer rest]|message] eqn:Hq.
    + eexists _, _, _, _. by eapply handled_customer_missing.
    + apply (Hserve customer). unfold customer_for. rewrite Hdb. by exists rest.
    + eexists _, _, _, _. by eapply handled_database_outage.
  - apply (Hserve demo_customer). unfold customer_for. by rewrite Hdb.
Qed.

(** Every run of the handler is one of the ways of [handled]. *)
Lemma voice_run env body c :
  exists t r c' evs, handled env body c t r c' evs /\ voice env body c = (r, c', evs).
Proof.
  destruct (handled_total env body c) as (t & r & c' & evs & H).
  exists t, r, c', evs. split; [exact H | by apply (voice_handled env body c t)].
Qed.

(** *** What the trace of a run holds *)

Lemma internal_stage env body c : Forall internal (stage_events env body c).
Proof.
  unfold stage_events. rewrite !Forall_app.
  split; [apply internal_detect | split; [apply internal_input | apply internal_parse]].
Qed.

Lemma save_events_silent env record :
  bookings (save_events env record) = [] /\ responses (save_events env record) = []
  /\ analytics (save_events env record) = (if storable record then [record] else [])
  /\ lookups (save_events env record) = [].
Proof.
  destruct (save_events_cases env record) as [[-> ->] | [-> [-> | ->]]]; by repeat split.
Qed.

Lemma internal_recovery env call t record : Forall internal (recovery env call t record).
Proof.
  unfold recovery. destruct (storable record); [constructor |].
  destruct t;
    try (apply Forall_app; split; [apply internal_error_log | apply internal_reply]);
    constructor.
Qed.

(** What follows the answer of step 7 or 8. *)
Lemma tail_silent env call t record :
  bookings (save_events env record ++ recovery env call t record) = []
  /\ responses (save_events env record ++ recovery env call t record) = []
  /\ analytics (save_events env record ++ recovery env call t record)
     = (if storable record then [record] else [])
  /\ lookups (save_events env record ++ recovery env call t record) = [].
Proof.
  rewrite bookings_app, responses_app, analytics_app, lookups_app.
  destruct (save_events_silent env record) as (-> & -> & -> & ->).
  destruct (internal_silent _ (internal_recovery env call t record)) as (-> & -> & -> & ->).
  by rewrite !app_nil_r.
Qed.

(** The [try] block reaches the scheduler at most once, and only with a
    parsed start instant. *)
Lemma processed_attempt env call appointmentStart t attempt message record :
  processed env call appointmentStart t attempt message record ->
  attempt = []
  \/ exists d, appointmentStart = Some d
               /\ attempt = [CreateAppointment (appointment_body env call d)].
Proof. destruct 1; eauto. Qed.

Lemma processed_events_bookings env call t attempt message record :
  bookings (processed_events env call t attempt message record) = bookings attempt.
Proof.
  unfold processed_events. rewrite !bookings_app.
  destruct (internal_silent _ (internal_error_log t)) as (-> & _).
  destruct (internal_silent _ (internal_reply env (c_detectedLanguage call) message)) as (-> & _).
  change (bookings (Respond ?s ?p :: ?l)) with (bookings l).
  destruct (tail_silent env call t record) as (-> & _). by rewrite !app_nil_r.
Qed.

Lemma processed_events_responses env call appointmentStart t attempt message record :
  processed env call appointmentStart t attempt message record ->
  responses (processed_events env call t attempt message record)
  = [(status_of t, reply env (c_detectedLanguage call) message)].
Proof.
  intros Hp. unfold processed_events. rewrite !responses_app.
  destruct (internal_silent _ (internal_error_log t)) as (_ & -> & _).
  destruct (internal_silent _ (internal_reply env (c_detectedLanguage call) message))
    as (_ & -> & _).
  change (responses (Respond ?s ?p :: ?l)) with ((s, p) :: responses l).
  destruct (tail_silent env call t record) as (_ & -> & _).
  by destruct (processed_attempt _ _ _ _ _ _ _ Hp) as [-> | (d & _ & ->)].
Qed.

Lemma processed_events_analytics env call appointmentStart t attempt message record :
  processed env call appointmentStart t attempt message record ->
  analytics (processed_events env call t attempt message record)
  = (if storable record then [record] else []).
Proof.
  intros Hp. unfold processed_events. rewrite !analytics_app.
  destruct (internal_silent _ (internal_error_log t)) as (_ & _ & -> & _).
  destruct (internal_silent _ (internal_reply env (c_detectedLanguage call) message))
    as (_ & _ & -> & _).
  change (analytics (Respond ?s ?p :: ?l)) with (analytics l).
  destruct (tail_silent env call t record) as (_ & _ & -> & _).
  by destruct (processed_attempt _ _ _ _ _ _ _ Hp) as [-> | (d & _ & ->)].
Qed.

(** The analytics document names the customer of the call, and so does the
    scheduling request. *)
Lemma processed_record env call appointmentStart t attempt message record :
  processed env call appointmentStart t attempt message record ->
  subscriberEmail record = email (c_customer call).
Proof. by destruct 1. Qed.

Lemma parsed_Some env textToParse d :
  parsed env textToParse = Some d ->
  exists text rest,
    textToParse = Some text /\ text <> "" /\ chrono_parse env text = Resolved (d :: rest).
Proof.
  unfold parsed, parseAppointmentTime.
  destruct (Js.truthy textToParse) eqn:Ht; [| discriminate].
  destruct (truthy_inv _ Ht) as (text & -> & Hne).
  run_monad. change (Js.show (Some text)) with text.
  destruct (chrono_parse env text) as [[|d' rest]|] eqn:Hc; unfold result; cbn;
    try discriminate.
  intros [= ->]. by exists text, rest.
Qed.

Lemma input_text_truthy env speechResult detectedLanguage :
  Js.truthy (input_text env speechResult detectedLanguage) = true ->
  Js.truthy speechResult = true.
Proof.
  unfold input_text, translateInput.
  destruct (Js.truthy speechResult) eqn:Hs; [done |].
  cbn [andb]. unfold ret, result. cbn [fst]. congruence.
Qed.

(** The scheduling requests of a run, whichever way it went. *)
Lemma handled_bookings env body c t r c' evs :
  handled env body c t r c' evs ->
  bookings evs = []
  \/ exists customer d,
       Js.truthy (phone_of body) = true
       /\ customer_for env (Js.show (phone_of body)) customer
       /\ start_of env body c = Some d
       /\ bookings evs = [appointment_body env (call_of env body customer c) d].
Proof.
  destruct 1 as [Hphone | query Hphone Hdb Hq | query msg Hphone Hdb Hq
                 | customer t attempt message record Hphone Hcust Hp].
  - left. change (bookings (ConsoleError ?w :: ?l)) with (bookings l).
    rewrite bookings_app. by destruct (internal_silent _ (internal_speech env missing_caller (Some "en"))) as (-> & _).
  - left. change (bookings (DbQuery ?w :: ?l)) with (bookings l).
    rewrite bookings_app.
    by destruct (internal_silent _ (internal_speech env record_not_found (early_language body))) as (-> & _).
  - left. change (bookings (DbQuery ?w :: ConsoleError ?v :: ?l)) with (bookings l).
    rewrite bookings_app.
    by destruct (internal_silent _ (internal_speech env database_error (early_language body))) as (-> & _).
  - rewrite !bookings_app, processed_events_bookings.
    destruct (internal_silent _ (internal_stage env body c)) as (-> & _).
    assert (bookings (match db env with
                      | Some _ => [DbQuery (Js.show (phone_of body))]
                      | None => []
                      end) = []) as -> by by destruct (db env).
    destruct (processed_attempt _ _ _ _ _ _ _ Hp) as [-> | (d & Hd & ->)]; [by left |].
    right. by exists customer, d.
Qed.

(** The responses of a run: exactly one, with the status of its terminal
    state. *)
Lemma handled_responses env body c t r c' evs :
  handled env body c t r c' evs -> exists payload, responses evs = [(status_of t, payload)].
Proof.
  destruct 1 as [Hphone | query Hphone Hdb Hq | query msg Hphone Hdb Hq
                 | customer t attempt message record Hphone Hcust Hp].
  - eexists. change (responses (ConsoleError ?w :: ?l)) with (responses l).
    rewrite responses_app.
    by destruct (internal_silent _ (internal_speech env missing_caller (Some "en"))) as (_ & -> & _).
  - eexists. change (responses (DbQuery ?w :: ?l)) with (responses l).
    rewrite responses_app.
    by destruct (internal_silent _ (internal_speech env record_not_found (early_language body))) as (_ & -> & _).
  - eexists. change (responses (DbQuery ?w :: ConsoleError ?v :: ?l)) with (responses l).
    rewrite responses_app.
    by destruct (internal_silent _ (internal_speech env database_error (early_language body))) as (_ & -> & _).
  - eexists. rewrite !responses_app, (processed_events_responses _ _ _ _ _ _ _ Hp).
    destruct (internal_silent _ (internal_stage env body c)) as (_ & -> & _).
    by destruct (db env).
Qed.

(** *** The scheduling call *)

Lemma processed_terminal env call appointmentStart t attempt message record :
  processed env call appointmentStart t attempt message record ->
  t = NotParsed \/ t = BookingFailed \/ t = Booked.
Proof. destruct 1; auto. Qed.

(** C1 as stated fails: with no customer directory configured, a scheduling
    request is made although no lookup took place, so no customer was found
    by one. *)
Lemma booking_without_lookup :
  db booking_env = None
  /\ lookups (events (voice booking_env booking_body ∅)) = []
  /\ length (bookings (events (voice booking_env booking_body ∅))) = 1%nat.
Proof. vm_compute. repeat split. Qed.

(** C1, as the code has it. In every run of the handler the scheduling
    request is made at most once, and only for a customer that is the first
    row of the directory lookup by phone number, or the synthetic demo
    customer when no directory is configured, and for a start instant the
    date parser returned on the (translated) speech text; when the directory
    is configured and the phone number matches no customer, no scheduling
    request is made and the handler ends in [CustomerMissing]. *)
Theorem voice_books_at_most_once env body c :
  (length (bookings (events (voice env body c))) <= 1)%nat
  /\ (forall b, b ∈ bookings (events (voice env body c)) ->
        exists customer d text rest,
          customer_for env (Js.show (phone_of body)) customer
          /\ Js.truthy (speech_of body) = true
          /\ text_to_parse env body c = Some text
          /\ chrono_parse env text = Resolved (d :: rest)
          /\ b = appointment_body env (call_of env body customer c) d)
  /\ (forall query,
        Js.truthy (phone_of body) = true ->
        db env = Some query ->
        query (Js.show (phone_of body)) = Resolved [] ->
        bookings (events (voice env body c)) = []
        /\ result (voice env body c) = Normal CustomerMissing).
Proof.
  destruct (voice_run env body c) as (t & r & c' & evs & Hh & Hrun).
  rewrite Hrun. unfold events, result. cbn [fst snd].
  pose proof (handled_bookings _ _ _ _ _ _ _ Hh) as Hb.
  split; [| split].
  - destruct Hb as [-> | (customer & d & _ & _ & _ & ->)]; cbn; lia.
  - intros b Hin.
    destruct Hb as [Hb | (customer & d & Hphone & Hcust & Hstart & Hb)];
      rewrite Hb in Hin; [by apply elem_of_nil in Hin |].
    apply list_elem_of_singleton in Hin as ->.
    destruct (parsed_Some _ _ _ Hstart) as (text & rest & Htext & Hne & Hparse).
    exists customer, d, text, rest. repeat split; try done.
    apply (input_text_truthy env _ (language_of env (hint_of body) (speech_of body) c)).
    fold (text_to_parse env body c). rewrite Htext. by apply truthy_Some.
  - intros query Hphone Hdb Hq.
    pose proof (voice_handled _ _ _ _ _ _ _ (handled_customer_missing env body c query Hphone Hdb Hq))
      as Hrun'.
    rewrite Hrun in Hrun'. injection Hrun' as -> -> ->. split; [| reflexivity].
    destruct Hb as [Hb | (customer & d & _ & Hcust & _)]; [exact Hb |].
    unfold customer_for in Hcust. rewrite Hdb in Hcust. destruct Hcust as [rest Hcust].
    congruence.
Qed.

(** *** The response *)

(** The document of a way of step 7 can be stored when the language of
    the call is defined and so is the [id] of every answer of the
    scheduler. *)
Lemma processed_storable env call appointmentStart t attempt message record :
  processed env call appointmentStart t attempt message record ->
  c_detectedLanguage call <> None ->
  (forall b, b ∈ bookings attempt -> appointments_post env b <> Resolved None) ->
  storable record = true.
Proof.
  intros Hp Hlang Hid. unfold storable.
  destruct Hp as [| d Hconf | d msg Hconf Hpost | d aid msg Hconf Hpost Hfmt
                  | d aid ds ts Hconf Hpost Hd Ht];
    cbn [a_detectedLanguage appointmentBooked appointmentId failure_record booked_record];
    destruct (c_detectedLanguage call); try done.
  destruct aid; [done |]. exfalso.
  apply (Hid (appointment_body env call d)); [| exact Hpost].
  cbn. apply list_elem_of_singleton. reflexivity.
Qed.

Lemma processed_not_storable env call appointmentStart t attempt message record :
  processed env call appointmentStart t attempt message record ->
  storable record = false ->
  c_detectedLanguage call = None
  \/ (t = Booked
      /\ exists d, attempt = [CreateAppointment (appointment_body env call d)]
                   /\ appointments_post env (appointment_body env call d) = Resolved None).
Proof.
  intros Hp. unfold storable.
  destruct Hp as [| d Hconf | d msg Hconf Hpost | d aid msg Hconf Hpost Hfmt
                  | d aid ds ts Hconf Hpost Hd Ht];
    cbn [a_detectedLanguage appointmentBooked appointmentId failure_record booked_record];
    destruct (c_detectedLanguage call); try done; auto.
  destruct aid; [done |]. intros _. right. split; [reflexivity |]. by exists d.
Qed.

Lemma outcome_cases t record :
  (storable record = true /\ outcome t record = Normal t)
  \/ (storable record = false /\ exists message, outcome t record = Thrown message).
Proof. unfold outcome. destruct (storable record); [by left | right; eauto]. Qed.

(** C2. Every run of the handler sends exactly one response, whose payload
    is a handle that speech synthesis returned, never an empty one, with
    the status of the state [t] it answers in: 400 exactly
    when the caller's phone number is missing, 500 for a database outage and
    for a failure of the booking step such as a scheduling-provider error,
    and 200 for the customer-not-found, not-parsed and booked outcomes. The
    states with status 500 are reached by such failures only: a rejected
    directory query, or, for a customer and a parsed start instant, a
    scheduler that is not configured or rejects the request, or a date or
    time of the confirmation that cannot be formatted. After the response
    the handler returns in that state, or, when the analytics document
    cannot be stored (the language of the call or the [id] of the
    scheduler's answer is undefined), it raises: also then the caller got
    the one response, and the second one that step 8 attempts is not
    sent. *)
Theorem voice_responds_once env body c :
  exists t payload,
    responses (events (voice env body c)) = [(status_of t, payload)]
    /\ payload <> ""
    /\ (exists text language,
          result (ultravoxTextToSpeech env text language ∅) = Normal payload)
    /\ (result (voice env body c) = Normal t
        \/ exists message,
             result (voice env body c) = Thrown message
             /\ analytics (events (voice env body c)) = []
             /\ (language_of env (hint_of body) (speech_of body) c = None
                 \/ exists b, bookings (events (voice env body c)) = [b]
                              /\ appointments_post env b = Resolved None))
    /\ (language_of env (hint_of body) (speech_of body) c <> None ->
        (forall b, b ∈ bookings (events (voice env body c)) ->
           appointments_post env b <> Resolved None) ->
        result (voice env body c) = Normal t)
    /\ (t = MissingCallerId <-> Js.truthy (phone_of body) = false)
    /\ (forall query message,
          Js.truthy (phone_of body) = true -> db env = Some query ->
          query (Js.show (phone_of body)) = Rejected message -> t = DatabaseOutage)
    /\ (forall b message,
          b ∈ bookings (events (voice env body c)) ->
          appointments_post env b = Rejected message -> t = BookingFailed)
    /\ (forall query,
          Js.truthy (phone_of body) = true -> db env = Some query ->
          query (Js.show (phone_of body)) = Resolved [] -> t = CustomerMissing)
    /\ (forall customer,
          Js.truthy (phone_of body) = true ->
          customer_for env (Js.show (phone_of body)) customer ->
          start_of env body c = None -> t = NotParsed)
    /\ (t = Booked ->
        exists b bookedAppointmentId,
          bookings (events (voice env body c)) = [b]
          /\ appointments_post env b = Resolved bookedAppointmentId)
    /\ (t = DatabaseOutage ->
        exists query message,
          db env = Some query /\ query (Js.show (phone_of body)) = Rejected message)
    /\ (t = BookingFailed ->
        exists customer d,
          customer_for env (Js.show (phone_of body)) customer
          /\ start_of env body c = Some d
          /\ (scheduler_configured env = false
              \/ exists message,
                  appointments_post env (appointment_body env (call_of env body customer c) d)
                  = Rejected message
                  \/ toLocaleDateString env d (language_of env (hint_of body) (speech_of body) c)
                     = Rejected message
                  \/ toLocaleTimeString env d (language_of env (hint_of body) (speech_of body) c)
                     = Rejected message)).
Proof.
  destruct (voice_run env body c) as (t & r & c' & evs & Hh & Hrun).
  rewrite Hrun. unfold events, result. cbn [fst snd]. clear Hrun.
  assert (Hbook : forall customer attempt message record,
             processed env (call_of env body customer c) (start_of env body c) t attempt
               message record ->
             bookings ((match db env with
                        | Some _ => [DbQuery (Js.show (phone_of body))]
                        | None => []
                        end)
                       ++ stage_events env body c
                       ++ processed_events env (call_of env body customer c) t attempt
                            message record)
             = bookings attempt).
  { intros customer attempt message record Hp.
    rewrite !bookings_app, processed_events_bookings.
    destruct (internal_silent _ (internal_stage env body c)) as (-> & _).
    by destruct (db env). }
  destruct Hh as [Hphone | query Hphone Hdb Hq | query msg Hphone Hdb Hq
                  | customer t attempt message record Hphone Hcust Hp].
  - exists MissingCallerId, (speech env missing_caller (Some "en")).
    assert (Hb : bookings (ConsoleError "Missing caller_id/From in request."
                           :: speech_events env missing_caller (Some "en")
                           ++ [Respond 400 (speech env missing_caller (Some "en"))]) = []).
    { change (bookings (ConsoleError ?w :: ?l)) with (bookings l). rewrite bookings_app.
      by destruct (internal_silent _ (internal_speech env missing_caller (Some "en")))
        as (-> & _). }
    rewrite Hb.
    split; [| split; [apply speech_not_empty | split; [apply synthesized | split; [by left |]]]].
    { change (responses (ConsoleError ?w :: ?l)) with (responses l). rewrite responses_app.
      by destruct (internal_silent _ (internal_speech env missing_caller (Some "en")))
        as (_ & -> & _). }
    repeat split; try done; try congruence.
    + intros b message Hin. by apply elem_of_nil in Hin.
  - exists CustomerMissing, (speech env record_not_found (early_language body)).
    assert (Hb : bookings (DbQuery (Js.show (phone_of body))
                           :: speech_events env record_not_found (early_language body)
                           ++ [Respond 200 (speech env record_not_found (early_language body))])
                 = []).
    { change (bookings (DbQuery ?w :: ?l)) with (bookings l). rewrite bookings_app.
      by destruct (internal_silent _ (internal_speech env record_not_found
                                        (early_language body))) as (-> & _). }
    rewrite Hb.
    split; [| split; [apply speech_not_empty | split; [apply synthesized | split; [by left |]]]].
    { change (responses (DbQuery ?w :: ?l)) with (responses l). rewrite responses_app.
      by destruct (internal_silent _ (internal_speech env record_not_found
                                        (early_language body))) as (_ & -> & _). }
    repeat split; try done; try congruence.
    + intros b message Hin. by apply elem_of_nil in Hin.
    + intros customer _ Hcust _. unfold customer_for in Hcust. rewrite Hdb in Hcust.
      destruct Hcust. congruence.
  - exists DatabaseOutage, (speech env database_error (early_language body)).
    assert (Hb : bookings (DbQuery (Js.show (phone_of body))
                           :: ConsoleError "Database error fetching customer:"
                           :: speech_events env database_error (early_language body)
                           ++ [Respond 500 (speech env database_error (early_language body))])
                 = []).
    { change (bookings (DbQuery ?w :: ConsoleError ?v :: ?l)) with (bookings l).
      rewrite bookings_app.
      by destruct (internal_silent _ (internal_speech env database_error
                                        (early_language body))) as (-> & _). }
    rewrite Hb.
    split; [| split; [apply speech_not_empty | split; [apply synthesized | split; [by left |]]]].
    { change (responses (DbQuery ?w :: ConsoleError ?v :: ?l)) with (responses l).
      rewrite responses_app.
      by destruct (internal_silent _ (internal_speech env database_error
                                        (early_language body))) as (_ & -> & _). }
    repeat split; try done; try congruence.
    + intros b message Hin. by apply elem_of_nil in Hin.
    + intros customer _ Hcust _. unfold customer_for in Hcust. rewrite Hdb in Hcust.
      destruct Hcust. congruence.
    + intros _. by exists query, msg.
  - exists t, (reply env (language_of env (hint_of body) (speech_of body) c) message).
    rewrite (Hbook _ _ _ _ Hp).
    assert (Hresp : responses
                      ((match db env with
                        | Some _ => [DbQuery (Js.show (phone_of body))]
                        | None => []
                        end)
                       ++ stage_events env body c
                       ++ processed_events env (call_of env body customer c) t attempt
                            message record)
                    = [(status_of t,
                        reply env (language_of env (hint_of body) (speech_of body) c) message)]).
    { rewrite !responses_app, (processed_events_responses _ _ _ _ _ _ _ Hp).
      destruct (internal_silent _ (internal_stage env body c)) as (_ & -> & _).
      by destruct (db env). }
    assert (Hdocs : analytics
                      ((match db env with
                        | Some _ => [DbQuery (Js.show (phone_of body))]
                        | None => []
                        end)
                       ++ stage_events env body c
                       ++ processed_events env (call_of env body customer c) t attempt
                            message record)
                    = (if storable record then [record] else [])).
    { rewrite !analytics_app, (processed_events_analytics _ _ _ _ _ _ _ Hp).
      destruct (internal_silent _ (internal_stage env body c)) as (_ & _ & -> & _).
      by destruct (db env). }
    rewrite Hdocs.
    split; [exact Hresp |]. split; [apply speech_not_empty |]. split; [apply synthesized |].
    split; [| split; [| split; [| split; [| split; [| split; [| split; [| split; [| split]]]]]]]].
    + destruct (outcome_cases t record) as [[_ ->] | [Hs [msg ->]]]; [by left |].
      right. exists msg. rewrite Hs. split; [reflexivity |]. split; [reflexivity |].
      destruct (processed_not_storable _ _ _ _ _ _ _ Hp Hs)
        as [Hl | (_ & d & -> & Hpost)]; [by left |].
      right. by eexists.
    + intros Hlang Hid.
      unfold outcome. by rewrite (processed_storable _ _ _ _ _ _ _ Hp Hlang Hid).
    + destruct (processed_terminal _ _ _ _ _ _ _ Hp) as [-> | [-> | ->]]; split; congruence.
    + intros query msg _ Hdb Hq. unfold customer_for in Hcust. rewrite Hdb in Hcust.
      destruct Hcust. congruence.
    + intros b msg Hin Hfail.
      destruct Hp; try reflexivity; try (by apply elem_of_nil in Hin);
        apply list_elem_of_singleton in Hin as ->; congruence.
    + intros query _ Hdb Hq. unfold customer_for in Hcust. rewrite Hdb in Hcust.
      destruct Hcust. congruence.
    + intros customer' _ _ Hstart. rewrite Hstart in Hp. clear -Hp. by inversion Hp; subst.
    + intros ->. inversion Hp; subst. eauto.
    + intros ->. inversion Hp.
    + intros ->. exists customer.
      inversion Hp as [| d Hconf | d msg Hconf Hpost | d aid msg Hconf Hpost Hfmt |]; subst;
        exists d; (split; [exact Hcust |]); (split; [done |]).
      * by left.
      * right. exists msg. by left.
      * right. exists msg. destruct Hfmt as [Hd | (ds & _ & Ht)]; auto.
Qed.

(** *** The analytics write *)

(** A run answers, and whatever follows the answer is the analytics write
    of one document with, when the store rejects it, the log line of the
    [catch] callback, or what the handler does when the document cannot be
    stored. *)
Lemma handled_shape env body c t r c' evs :
  handled env body c t r c' evs ->
  exists before payload after,
    evs = (before ++ Respond (status_of t) payload :: after)%list
    /\ analytics before = [] /\ responses before = []
    /\ (after = []
        \/ exists call record,
             after = (save_events env record ++ recovery env call t record)%list).
Proof.
  destruct 1 as [Hphone | query Hphone Hdb Hq | query msg Hphone Hdb Hq
                 | customer t attempt message record Hphone Hcust Hp].
  - eexists (_ :: _), _, []. split; [reflexivity |].
    destruct (internal_silent _ (internal_speech env missing_caller (Some "en")))
      as (_ & Hr & Ha & _).
    repeat split; [exact Ha | exact Hr | by left].
  - eexists (_ :: _), _, []. split; [reflexivity |].
    destruct (internal_silent _ (internal_speech env record_not_found (early_language body)))
      as (_ & Hr & Ha & _).
    repeat split; [exact Ha | exact Hr | by left].
  - eexists (_ :: _ :: _), _, []. split; [reflexivity |].
    destruct (internal_silent _ (internal_speech env database_error (early_language body)))
      as (_ & Hr & Ha & _).
    repeat split; [exact Ha | exact Hr | by left].
  - unfold processed_events.
    exists (match db env with
            | Some _ => [DbQuery (Js.show (phone_of body))]
            | None => []
            end
            ++ stage_events env body c ++ attempt ++ error_log t
            ++ reply_events env (c_detectedLanguage (call_of env body customer c)) message)%list,
      (reply env (c_detectedLanguage (call_of env body customer c)) message),
      (save_events env record ++ recovery env (call_of env body customer c) t record)%list.
    split; [by rewrite <- !app_assoc |].
    rewrite !analytics_app, !responses_app.
    destruct (internal_silent _ (internal_stage env body c)) as (_ & -> & -> & _).
    destruct (internal_silent _ (internal_error_log t)) as (_ & -> & -> & _).
    destruct (internal_silent _ (internal_reply env
                (c_detectedLanguage (call_of env body customer c)) message))
      as (_ & -> & -> & _).
    repeat split.
    + destruct (db env); by destruct (processed_attempt _ _ _ _ _ _ _ Hp) as [-> | (d & _ & ->)].
    + destruct (db env); by destruct (processed_attempt _ _ _ _ _ _ _ Hp) as [-> | (d & _ & ->)].
    + right. by exists (call_of env body customer c), record.
Qed.

(** In a trace that answers once, an analytics write that is not before
    the answer comes after it. *)
Lemma write_follows_response before status payload after front record back :
  analytics before = [] ->
  responses before = [] ->
  responses after = [] ->
  (before ++ Respond status payload :: after)%list = (front ++ FirestoreAdd record :: back)%list ->
  responses front = [(status, payload)].
Proof.
  intros Ha Hr Hr' Heq.
  apply app_eq_inv in Heq as [(k & Hb & Hk) | (k & Hf & Hk)].
  - destruct k as [| e k]; [discriminate |].
    injection Hk as <- _. subst before.
    rewrite analytics_app in Ha. by destruct (analytics front).
  - destruct k as [| e k]; [discriminate |].
    injection Hk as <- Hk. subst front after.
    rewrite responses_app in Hr'. apply app_eq_nil in Hr' as [Hk _].
    rewrite responses_app, Hr. cbn. unfold responses in Hk. by rewrite Hk.
Qed.

(** The analytics store is only asked by the analytics write: the ways of
    step 7 do not depend on it. *)
Lemma processed_with_firestore env store call appointmentStart t attempt message record :
  processed env call appointmentStart t attempt message record ->
  processed (with_firestore env store) call appointmentStart t attempt message record.
Proof.
  destruct 1 as [| d Hconf | d msg Hconf Hpost | d aid msg Hconf Hpost Hfmt
                 | d aid ds ts Hconf Hpost Hd Ht].
  - apply processed_not_parsed.
  - by apply processed_not_configured.
  - by apply (processed_scheduler_error (with_firestore env store)).
  - by apply (processed_format_error (with_firestore env store) call d aid).
  - by apply (processed_booked (with_firestore env store) call d aid).
Qed.

Lemma handled_with_firestore env store body c t r c' evs :
  handled env body c t r c' evs ->
  exists evs',
    handled (with_firestore env store) body c t r c' evs'
    /\ responses evs' = responses evs /\ bookings evs' = bookings evs
    /\ analytics evs' = analytics evs.
Proof.
  destruct 1 as [Hphone | query Hphone Hdb Hq | query msg Hphone Hdb Hq
                 | customer t attempt message record Hphone Hcust Hp].
  - eexists. split; [by apply handled_missing_caller |]. done.
  - eexists. split; [by apply (handled_customer_missing (with_firestore env store) body c query) |].
    done.
  - eexists.
    split; [by apply (handled_database_outage (with_firestore env store) body c query msg) |].
    done.
  - eexists. split.
    + apply (handled_customer (with_firestore env store) body c customer t attempt message record);
        [exact Hphone | exact Hcust |].
      apply (processed_with_firestore env store) in Hp. exact Hp.
    + pose proof (processed_with_firestore env store _ _ _ _ _ _ Hp) as Hp'.
      rewrite !responses_app, !bookings_app, !analytics_app.
      rewrite !processed_events_bookings.
      rewrite (processed_events_responses _ _ _ _ _ _ _ Hp).
      rewrite (processed_events_analytics _ _ _ _ _ _ _ Hp).
      change (call_of (with_firestore env store) body customer c)
        with (call_of env body customer c).
      rewrite (processed_events_responses _ _ _ _ _ _ _ Hp').
      rewrite (processed_events_analytics _ _ _ _ _ _ _ Hp').
      done.
Qed.

(** C6 fails on the code. The scheduler books the appointment and answers
    without an [id]; the handler answers the caller (status 200) and then
    gives [add] a document whose [appointmentId] is [undefined]. [add]
    raises at the call, before the promise whose rejection the [catch]
    callback would log exists, so the error is caught by step 8 of the
    caller-facing path: it is logged as a failure of the request, the error
    sentence is synthesized, the second response raises because the first
    was sent, and the handler ends with that error. No analytics document
    is written. *)
Theorem analytics_failure_reaches_caller :
  appointments_post unnumbered_env
    (appointment_body unnumbered_env (call_of unnumbered_env booking_body demo_customer ∅)
       late_evening) = Resolved None
  /\ events (voice unnumbered_env booking_body ∅)
     = [ChronoParse "book me for tonight at a quarter to midnight";
        CreateAppointment
          (appointment_body unnumbered_env
             (call_of unnumbered_env booking_body demo_customer ∅) late_evening);
        TtsPost (confirmation "Wednesday, January 1, 2025" "11:45 PM") (Some "en");
        Respond 200 "https://audio.example.com/1.mp3";
        ConsoleError "Error processing /voice request:";
        ConsoleError "error.stack";
        TtsPost unexpected_error (Some "en")]
  /\ analytics (events (voice unnumbered_env booking_body ∅)) = []
  /\ result (voice unnumbered_env booking_body ∅) = Thrown headers_sent.
Proof. by vm_compute. Qed.

(** X20. In every run of the handler at most one analytics document is
    written, and only after the one response of the run was sent; the
    answer of the store to the write does not reach the caller: with any
    other analytics store the handler completes in the same way with the
    same cache, responses, scheduling requests and documents, and a
    rejected write is followed by its log line and nothing else. *)
Theorem analytics_after_response env body c :
  (length (analytics (events (voice env body c))) <= 1)%nat
  /\ (forall front record back,
        events (voice env body c) = (front ++ FirestoreAdd record :: back)%list ->
        length (responses front) = 1%nat /\ storable record = true)
  /\ (forall store,
        result (voice (with_firestore env store) body c) = result (voice env body c)
        /\ cache (voice (with_firestore env store) body c) = cache (voice env body c)
        /\ responses (events (voice (with_firestore env store) body c))
           = responses (events (voice env body c))
        /\ bookings (events (voice (with_firestore env store) body c))
           = bookings (events (voice env body c))
        /\ analytics (events (voice (with_firestore env store) body c))
           = analytics (events (voice env body c)))
  /\ (forall front record back message,
        events (voice env body c) = (front ++ FirestoreAdd record :: back)%list ->
        firestore_add env record = Rejected message ->
        back = [ConsoleError "Error saving analytics to Firestore:"]).
Proof.
  destruct (voice_run env body c) as (t & r & c' & evs & Hh & Hrun).
  rewrite Hrun. unfold events, result, cache. cbn [fst snd].
  destruct (handled_shape _ _ _ _ _ _ _ Hh) as (before & payload & after & -> & Ha & Hr & Hafter).
  assert (Hr' : responses after = []).
  { destruct Hafter as [-> | (call & record & ->)]; [done |]. apply tail_silent. }
  assert (Hwrite : forall front record back,
             (before ++ Respond (status_of t) payload :: after)%list
             = (front ++ FirestoreAdd record :: back)%list ->
             exists call,
               storable record = true
               /\ after = (save_events env record ++ recovery env call t record)%list
               /\ (FirestoreAdd record :: back)%list = save_events env record).
  { intros front record back Heq.
    apply app_eq_inv in Heq as [(k & Hb & Hk) | (k & Hf & Hk)].
    - destruct k as [| e k]; [discriminate |].
      injection Hk as <- _. subst before.
      rewrite analytics_app in Ha. by destruct (analytics front).
    - destruct k as [| e k]; [discriminate |].
      injection Hk as <- Hk.
      destruct Hafter as [-> | (call & record' & ->)]; [destruct k; discriminate |].
      destruct (save_events_cases env record') as [[Hs Hsave] | [Hs Hsave]].
      + exfalso. rewrite Hsave in Hk. cbn [app] in Hk.
        assert (Hin : analytics (recovery env call t record') <> []).
        { rewrite Hk, analytics_app. cbn. by destruct (analytics k). }
        by destruct (internal_silent _ (internal_recovery env call t record'))
          as (_ & _ & Hnone & _).
      + assert (Hrec : recovery env call t record' = []).
        { unfold recovery. by rewrite Hs. }
        assert (Hone : record' = record
                       /\ (FirestoreAdd record :: back)%list = save_events env record').
        { rewrite Hrec, app_nil_r in Hk.
          destruct Hsave as [Hsave | Hsave]; rewrite Hsave in Hk |- *.
          - destruct k as [| e k]; [| injection Hk as _ Hk; by destruct k].
            by injection Hk as -> <-.
          - destruct k as [| e k]; [by injection Hk as -> <- |].
            injection Hk as _ Hk. destruct k as [| e' k]; [discriminate |].
            injection Hk as _ Hk. by destruct k. }
        destruct Hone as [-> Hone]. by exists call. }
  split; [| split; [| split]].
  - rewrite analytics_app, Ha. change (analytics (Respond ?s ?p :: ?l)) with (analytics l).
    destruct Hafter as [-> | (call & record & ->)]; [cbn; lia |].
    destruct (tail_silent env call t record) as (_ & _ & -> & _).
    destruct (storable record); cbn; lia.
  - intros front record back Heq.
    rewrite (write_follows_response _ _ _ _ _ _ _ Ha Hr Hr' Heq).
    destruct (Hwrite _ _ _ Heq) as (call & Hs & _). by split.
  - intros store.
    destruct (handled_with_firestore env store _ _ _ _ _ _ Hh) as (evs' & Hh' & H1 & H2 & H3).
    rewrite (voice_handled _ _ _ _ _ _ _ Hh'). by cbn [fst snd].
  - intros front record back message Heq Hfail.
    destruct (Hwrite _ _ _ Heq) as (call & Hs & _ & Hsave).
    revert Hsave. unfold save_events, saveAnalytics. rewrite Hs. run_monad.
    rewrite Hfail. cbn [app snd events]. by intros [= ->].
Qed.

(** *** Without a customer directory *)

Lemma processed_with_db env directory call appointmentStart t attempt message record :
  processed env call appointmentStart t attempt message record ->
  processed (with_db env directory) call appointmentStart t attempt message record.
Proof.
  destruct 1 as [| d Hconf | d msg Hconf Hpost | d aid msg Hconf Hpost Hfmt
                 | d aid ds ts Hconf Hpost Hd Ht].
  - apply processed_not_parsed.
  - by apply processed_not_configured.
  - by apply (processed_scheduler_error (with_db env directory)).
  - by apply (processed_format_error (with_db env directory) call d aid).
  - by apply (processed_booked (with_db env directory) call d aid).
Qed.

Lemma processed_events_lookups env call appointmentStart t attempt message record :
  processed env call appointmentStart t attempt message record ->
  lookups (processed_events env call t attempt message record) = [].
Proof.
  intros Hp. unfold processed_events. rewrite !lookups_app.
  destruct (internal_silent _ (internal_error_log t)) as (_ & _ & _ & ->).
  destruct (internal_silent _ (internal_reply env (c_detectedLanguage call) message))
    as (_ & _ & _ & ->).
  change (lookups (Respond ?s ?p :: ?l)) with (lookups l).
  destruct (tail_silent env call t record) as (_ & _ & _ & ->).
  by destruct (processed_attempt _ _ _ _ _ _ _ Hp) as [-> | (d & _ & ->)].
Qed.

(** C10 as stated fails: without a customer directory a request is still
    rejected when it does not name its caller, and no synthetic customer is
    served then; and a request that names its caller fails, with status 500,
    when the scheduler is not configured. *)
Lemma rejected_without_database :
  db bare_env = None
  /\ responses (events (voice bare_env anonymous_body ∅))
     = [(400, "placeholder_audio_for_en_An interna.mp3")]
  /\ analytics (events (voice bare_env anonymous_body ∅)) = []
  /\ result (voice bare_env anonymous_body ∅) = Normal MissingCallerId
  /\ responses (events (voice (with_start bare_env h23 late_evening (Minutes 30))
                          booking_body ∅))
     = [(500, "placeholder_audio_for_en_Sorry, an .mp3")]
  /\ bookings (events (voice (with_start bare_env h23 late_evening (Minutes 30))
                         booking_body ∅)) = [].
Proof. by vm_compute. Qed.

(** C10, as the code has it. When no customer directory is configured, a
    request that names its caller is served as [serveCustomer] serves the
    synthetic customer [demo_customer]: no lookup is made, the handler goes
    on to time extraction and the booking step and answers once, in the
    state [NotParsed], [Booked] or [BookingFailed], a parsed start instant
    with a configured scheduler leads to a scheduling request, and every
    scheduling request and analytics document of the run names the
    synthetic customer (['demo_customer'], ['demo@example.com']); the run is
    the one of a server whose directory finds that customer, less the
    lookup. A request that does not name its caller is answered with status
    400 and nothing else happens. *)
Theorem voice_without_database env body c :
  db env = None ->
  (Js.truthy (phone_of body) = false ->
   result (voice env body c) = Normal MissingCallerId
   /\ (exists payload, responses (events (voice env body c)) = [(400, payload)])
   /\ bookings (events (voice env body c)) = []
   /\ analytics (events (voice env body c)) = [])
  /\ (Js.truthy (phone_of body) = true ->
      voice env body c = serveCustomer env body demo_customer c
      /\ lookups (events (voice env body c)) = []
      /\ (exists t payload,
            responses (events (voice env body c)) = [(status_of t, payload)]
            /\ (t = NotParsed \/ t = Booked \/ t = BookingFailed))
      /\ (forall b, b ∈ bookings (events (voice env body c)) -> customerId b = "demo_customer")
      /\ (forall r, r ∈ analytics (events (voice env body c)) ->
            subscriberEmail r = "demo@example.com")
      /\ (forall d, start_of env body c = Some d -> scheduler_configured env = true ->
            bookings (events (voice env body c))
            = [appointment_body env (call_of env body demo_customer c) d])
      /\ voice (with_db env demo_directory) body c
         = (result (voice env body c), cache (voice env body c),
            DbQuery (Js.show (phone_of body)) :: events (voice env body c))).
Proof.
  intros Hdb. split.
  { intros Hphone.
    pose proof (handled_missing_caller env body c Hphone) as Hh.
    rewrite (voice_handled _ _ _ _ _ _ _ Hh). unfold result, events. cbn [fst snd].
    destruct (internal_silent _ (internal_speech env missing_caller (Some "en")))
      as (Hb & Hr & Ha & _).
    split; [reflexivity |]. split; [| split].
    - eexists. change (responses (ConsoleError ?w :: ?l)) with (responses l).
      by rewrite responses_app, Hr.
    - change (bookings (ConsoleError ?w :: ?l)) with (bookings l).
      by rewrite bookings_app, Hb.
    - change (analytics (ConsoleError ?w :: ?l)) with (analytics l).
      by rewrite analytics_app, Ha. }
  intros Hphone.
  destruct (processed_total env (call_of env body demo_customer c) (start_of env body c))
    as (t & attempt & message & record & Hp).
  assert (Hcust : customer_for env (Js.show (phone_of body)) demo_customer).
  { unfold customer_for. by rewrite Hdb. }
  pose proof (handled_customer env body c _ _ _ _ _ Hphone Hcust Hp) as Hh.
  pose proof (voice_handled _ _ _ _ _ _ _ Hh) as Hrun.
  rewrite Hdb in Hrun. cbn [app] in Hrun.
  split; [| rewrite Hrun; unfold events, result, cache; cbn [fst snd];
            split; [| split; [| split; [| split; [| split]]]]].
  - rewrite Hrun. symmetry. by apply serveCustomer_processed.
  - rewrite lookups_app, (processed_events_lookups _ _ _ _ _ _ _ Hp).
    by destruct (internal_silent _ (internal_stage env body c)) as (_ & _ & _ & ->).
  - exists t. eexists. split.
    + rewrite responses_app, (processed_events_responses _ _ _ _ _ _ _ Hp).
      by destruct (internal_silent _ (internal_stage env body c)) as (_ & -> & _).
    + destruct (processed_terminal _ _ _ _ _ _ _ Hp) as [-> | [-> | ->]]; auto.
  - intros b. rewrite bookings_app, processed_events_bookings.
    destruct (internal_silent _ (internal_stage env body c)) as (-> & _). cbn [app].
    destruct (processed_attempt _ _ _ _ _ _ _ Hp) as [-> | (d & _ & ->)].
    + intros Hin. by apply elem_of_nil in Hin.
    + intros Hin. by apply list_elem_of_singleton in Hin as ->.
  - intros r. rewrite analytics_app, (processed_events_analytics _ _ _ _ _ _ _ Hp).
    destruct (internal_silent _ (internal_stage env body c)) as (_ & _ & -> & _). cbn [app].
    destruct (storable record); intros Hin; [| by apply elem_of_nil in Hin].
    apply list_elem_of_singleton in Hin as ->.
    by rewrite (processed_record _ _ _ _ _ _ _ Hp).
  - intros d Hstart Hconf. rewrite bookings_app, processed_events_bookings.
    destruct (internal_silent _ (internal_stage env body c)) as (-> & _). cbn [app].
    rewrite Hstart in Hp. inversion Hp; subst; try reflexivity. congruence.
  - apply (processed_with_db env demo_directory) in Hp.
    assert (Hcust' : customer_for (with_db env demo_directory) (Js.show (phone_of body))
                       demo_customer) by by exists [].
    exact (voice_handled _ _ _ _ _ _ _
             (handled_customer (with_db env demo_directory) body c _ _ _ _ _ Hphone Hcust' Hp)).
Qed.

Lemma voice_without_database_witness :
  lookups (events (voice booking_env booking_body ∅)) = []
  /\ (forall b, b ∈ bookings (events (voice booking_env booking_body ∅)) ->
        customerId b = "demo_customer").
Proof.
  pose proof (proj2 (voice_without_database booking_env booking_body ∅ eq_refl) eq_refl)
    as (_ & Hl & _ & Hb & _).
  split; [exact Hl | exact Hb].
Defined.

(** *** The end of the appointment *)

(** Within the day and with the default duration, the end is the start plus
    30 minutes, also across the hour. *)
Example slot_within_the_day :
  booked_slot (with_start booking_env h23 mid_morning (Minutes 30)) booking_body
  = Some ("2025-01-01 10:00:00", "2025-01-01 10:30:00")
  /\ booked_slot (with_start booking_env h23 (mid_morning + 45 * ms_per_minute) (Minutes 30))
       booking_body
     = Some ("2025-01-01 10:45:00", "2025-01-01 11:15:00").
Proof. vm_compute. split; reflexivity. Qed.

(** On a runtime whose hour cycle is [h24] the end after midnight is
    printed with the hour 24 of the start's day. *)
Example slot_across_midnight_h24 :
  booked_slot (with_start booking_env h24 late_evening (Minutes 30)) booking_body
  = Some ("2025-01-01 23:45:00", "2025-01-01 24:15:00").
Proof. vm_compute. reflexivity. Qed.

(** C5 where the end is not the start plus the duration. At a start instant
    of 23:45 with the default duration of 30 minutes (hour cycle [h23]) the
    handler books the customer, and the request it sends ends at 00:15 of
    the *same* calendar day, 1410 minutes before its start instead of 30
    minutes after it. And when the duration is set in the environment it is
    a text, and the minutes of the start time are concatenated with it: from
    10:15 with [DEFAULT_APPOINTMENT_DURATION=30] the request ends at 11:30,
    75 minutes after its start, on either hour cycle. *)
Theorem slot_end_differs :
  result (voice booking_env booking_body ∅) = Normal Booked
  /\ booked_slot booking_env booking_body
     = Some ("2025-01-01 23:45:00", "2025-01-01 00:15:00")
  /\ (booked_slot booking_env booking_body ≫= slot_minutes) = Some (-1410)
  /\ (forall cycle,
        booked_slot (with_start booking_env cycle quarter_past_ten (MinutesText "30"))
          booking_body
        = Some ("2025-01-01 10:15:00", "2025-01-01 11:30:00"))
  /\ slot_minutes ("2025-01-01 10:15:00", "2025-01-01 11:30:00") = Some 75.
Proof.
  split; [by vm_compute |]. split; [by vm_compute |]. split; [by vm_compute |].
  split; [| by vm_compute]. intros []; by vm_compute.
Qed.

(** *** Speech synthesis *)

(** X1. [ultravoxTextToSpeech] never raises and never touches the cache,
    and the handle it returns is never empty. Without a configured address
    it makes no request and answers the placeholder built from the language
    and the first ten UTF-16 code units of the text; with one it makes exactly one
    request, and answers [audio_url], else [audio_id], else the literal
    ['error_getting_audio_url'] when the provider resolves, and the
    indicator ['error_generating_tts_'] followed by the language, after a
    log line, when it rejects. *)
Theorem ultravoxTextToSpeech_always_answers env text language c :
  exists handle evs,
    ultravoxTextToSpeech env text language c = (Normal handle, c, evs)
    /\ handle <> ""
    /\ (Js.truthy (ULTRAVOX_TTS_URL env) = false ->
        evs = []
        /\ handle = "placeholder_audio_for_" +:+ Js.show language +:+ "_"
                    +:+ Js.prefix 10 text +:+ ".mp3")
    /\ (Js.truthy (ULTRAVOX_TTS_URL env) = true ->
        (forall data, tts_post env text language = Resolved data ->
           evs = [TtsPost text language]
           /\ handle = Js.or_else (Js.or (audio_url data) (audio_id data))
                         "error_getting_audio_url"
           /\ (Js.truthy (audio_url data) = true -> Some handle = audio_url data)
           /\ (Js.truthy (audio_url data) = false -> Js.truthy (audio_id data) = true ->
               Some handle = audio_id data))
        /\ (forall message, tts_post env text language = Rejected message ->
              evs = [TtsPost text language; ConsoleError "Error calling Ultravox TTS API:"]
              /\ handle = "error_generating_tts_" +:+ Js.show language)).
Proof.
  unfold ultravoxTextToSpeech.
  destruct (Js.truthy (ULTRAVOX_TTS_URL env)) eqn:Hurl; cbn [negb]; cbv iota.
  - run_monad.
    destruct (tts_post env text language) as [data|message] eqn:Hpost; cbv beta iota.
    + eexists _, _. split; [reflexivity |]. split; [by apply or_else_not_empty |].
      split; [done |]. intros _. split; [| done].
      intros data' [= <-]. split; [reflexivity |]. split; [reflexivity |].
      unfold Js.or. split.
      * intros Hu. rewrite Hu. by destruct (truthy_inv _ Hu) as (s & -> & Hs%String.eqb_neq); cbn; rewrite Hs.
      * intros Hu Hi. rewrite Hu. by destruct (truthy_inv _ Hi) as (s & -> & Hs%String.eqb_neq); cbn; rewrite Hs.
    + eexists _, _. split; [reflexivity |]. split; [by apply append_not_empty |].
      split; [done |]. intros _. split; [done |]. by intros message' [= <-].
  - eexists _, _. split; [reflexivity |]. split; [by apply append_not_empty |].
    split; [done |]. done.
Qed.

(** *** Adding minutes to a time of day *)

(** Reading back a printed time of day: checked minute by minute. *)
Lemma read_hh_mm cycle m :
  0 <= m < 1440 ->
  Js.Number <$> Js.split ":" (hh_mm cycle m) = [Some (printed_hour cycle m); Some (m mod 60)].
Proof.
  intros Hm.
  assert (Hall : forallb (fun m =>
                    bool_decide (Js.Number <$> Js.split ":" (hh_mm h23 m)
                                 = [Some (printed_hour h23 m); Some (m mod 60)])
                    && bool_decide (Js.Number <$> Js.split ":" (hh_mm h24 m)
                                    = [Some (printed_hour h24 m); Some (m mod 60)]))
                   (seqZ 0 1440) = true) by by vm_compute.
  rewrite forallb_forall in Hall.
  assert (Hin : In m (seqZ 0 1440)).
  { apply list_elem_of_In, elem_of_seqZ. lia. }
  apply Hall, andb_true_iff in Hin as [H23 H24].
  apply bool_decide_eq_true in H23, H24. by destruct cycle.
Qed.

Lemma printed_hour_minutes cycle m :
  0 <= m < 1440 -> (printed_hour cycle m * 60 + m mod 60) mod 1440 = m.
Proof.
  intros Hm. pose proof (Z.div_mod m 60 ltac:(lia)) as Hdm.
  destruct cycle; cbn [printed_hour].
  - rewrite Z.mod_small; lia.
  - destruct (m / 60 =? 0) eqn:Hz.
    + apply Z.eqb_eq in Hz. rewrite Hz in Hdm.
      replace (24 * 60 + m mod 60) with (m + 1 * 1440) by lia.
      rewrite Z.mod_add by lia. apply Z.mod_small. lia.
    + rewrite Z.mod_small; lia.
Qed.

Lemma plus_minutes_numeric cycle m n :
  0 <= m < 1440 ->
  addMinutesToTime cycle (hh_mm cycle m) (Minutes n) = hh_mm cycle ((m + n) mod 1440).
Proof.
  intros Hm. unfold addMinutesToTime. rewrite (read_hh_mm cycle m Hm).
  cbn [plus_minutes]. f_equal.
  rewrite Z.add_assoc, <- Zplus_mod_idemp_l, (printed_hour_minutes cycle m Hm).
  reflexivity.
Qed.

(** A printed time of day is not the text of an invalid date: checked
    minute by minute. *)
Lemma hh_mm_valid cycle m : 0 <= m < 1440 -> hh_mm cycle m <> "Invalid Date".
Proof.
  intros Hm.
  assert (Hall : forallb (fun m =>
                    negb (String.eqb (hh_mm h23 m) "Invalid Date")
                    && negb (String.eqb (hh_mm h24 m) "Invalid Date"))
                   (seqZ 0 1440) = true) by by vm_compute.
  rewrite forallb_forall in Hall.
  assert (Hin : In m (seqZ 0 1440)).
  { apply list_elem_of_In, elem_of_seqZ. lia. }
  apply Hall, andb_true_iff in Hin as [H23 H24].
  apply negb_true_iff, String.eqb_neq in H23, H24. by destruct cycle.
Qed.

(** X2. On a time of day that the 24-hour formatter printed, with a
    numeric duration of [n] whole minutes, [addMinutesToTime] prints the
    time of day [n] minutes later, wrapped around midnight: it never
    answers ['Invalid Date'] there, and the day that a wrap moves into is
    lost. This is for durations of at most 10^9 minutes in either
    direction, which keep the instant that [setHours] computes well inside
    the range of [Date]. *)
Theorem addMinutesToTime_wraps cycle m n :
  0 <= m < 1440 ->
  - 10 ^ 9 <= n <= 10 ^ 9 ->
  addMinutesToTime cycle (hh_mm cycle m) (Minutes n) = hh_mm cycle ((m + n) mod 1440)
  /\ addMinutesToTime cycle (hh_mm cycle m) (Minutes n) <> "Invalid Date".
Proof.
  intros Hm _. rewrite (plus_minutes_numeric cycle m n Hm). split; [reflexivity |].
  apply hh_mm_valid. apply Z.mod_pos_bound. lia.
Qed.

Lemma addMinutesToTime_wraps_witness :
  addMinutesToTime h23 (hh_mm h23 1425) (Minutes 30) = hh_mm h23 ((1425 + 30) mod 1440)
  /\ hh_mm h23 ((1425 + 30) mod 1440) = "00:15".
Proof.
  split; [| by vm_compute].
  exact (proj1 (addMinutesToTime_wraps h23 1425 30 ltac:(lia) ltac:(lia))).
Defined.

(** *** The duration as the text of the environment *)

Lemma append_assoc' (a b c : string) : (a +:+ b) +:+ c = a +:+ (b +:+ c).
Proof.
  induction a as [| x a IH]; [reflexivity |].
  change (String x ((a +:+ b) +:+ c) = String x (a +:+ b +:+ c)). by f_equal.
Qed.

Lemma digit_spec n :
  Js.is_digit (Js.digit n) = true
  /\ Z.of_nat (nat_of_ascii (Js.digit n) - 48) = n mod 10.
Proof.
  unfold Js.digit. pose proof (Z.mod_pos_bound n 10 ltac:(lia)) as Hr.
  assert (Hcases : n mod 10 = 0 \/ n mod 10 = 1 \/ n mod 10 = 2 \/ n mod 10 = 3
                   \/ n mod 10 = 4 \/ n mod 10 = 5 \/ n mod 10 = 6 \/ n mod 10 = 7
                   \/ n mod 10 = 8 \/ n mod 10 = 9) by lia.
  destruct Hcases as [H | [H | [H | [H | [H | [H | [H | [H | [H | H]]]]]]]]];
    rewrite H; by vm_compute.
Qed.

Lemma dec_go_acc fuel n acc : Js.dec_go fuel n acc = Js.dec_go fuel n "" +:+ acc.
Proof.
  revert n acc. induction fuel as [| fuel IH]; intros n acc; [reflexivity |].
  cbn [Js.dec_go]. destruct (n / 10 =? 0); [reflexivity |].
  rewrite (IH _ (String _ acc)), (IH _ (String _ "")), append_assoc'. reflexivity.
Qed.

(** Reading the digits of [n] and then [rest] is reading [rest] from [n]. *)
Lemma digits_dec_go fuel n rest :
  0 <= n < 2 ^ Z.of_nat fuel ->
  Js.digits_go (Js.dec_go fuel n rest) 0 = Js.digits_go rest n.
Proof.
  revert n rest. induction fuel as [| fuel IH]; intros n rest Hn.
  - cbn in Hn. assert (n = 0) as -> by lia. reflexivity.
  - cbn [Js.dec_go]. destruct (digit_spec n) as [Hd Hv].
    pose proof (Z.div_mod n 10 ltac:(lia)) as Hdm.
    pose proof (Z.mod_pos_bound n 10 ltac:(lia)) as Hr.
    destruct (n / 10 =? 0) eqn:Hz.
    + apply Z.eqb_eq in Hz. cbn [Js.digits_go]. rewrite Hd, Hv. f_equal. lia.
    + apply Z.eqb_neq in Hz. rewrite IH.
      * cbn [Js.digits_go]. rewrite Hd, Hv. f_equal. lia.
      * rewrite Nat2Z.inj_succ, Z.pow_succ_r in Hn by lia.
        split; [apply Z.div_pos; lia |].
        apply Z.div_lt_upper_bound; lia.
Qed.

Lemma digits_dec n rest : 0 <= n -> Js.digits_go (Js.dec n +:+ rest) 0 = Js.digits_go rest n.
Proof.
  intros Hn. unfold Js.dec. rewrite <- dec_go_acc. apply digits_dec_go.
  split; [exact Hn |].
  rewrite Nat2Z.inj_succ, Z2Nat.id by apply Z.log2_nonneg.
  destruct (Z.eq_dec n 0) as [-> | Hne]; [by cbn |].
  apply Z.log2_spec. lia.
Qed.

Lemma digits_go_shift s x :
  Js.digits_go s x = (fun v => x * 10 ^ Z.of_nat (String.length s) + v) <$> Js.digits_go s 0.
Proof.
  revert x. induction s as [| ch s IH]; intros x.
  - cbn. f_equal. lia.
  - cbn [Js.digits_go String.length]. destruct (Js.is_digit ch); [| reflexivity].
    rewrite (IH (10 * x + _)), (IH (10 * 0 + _)).
    destruct (Js.digits_go s 0) as [v|]; [| reflexivity]. cbn. f_equal.
    rewrite Nat2Z.inj_succ, Z.pow_succ_r by lia. lia.
Qed.

(** The decimal text of a number reads back as the number. *)
Lemma Number_dec n : 0 <= n -> Js.Number (Js.dec n) = Some n.
Proof.
  intros Hn. unfold Js.Number.
  assert (Js.dec n = Js.dec n +:+ "") as ->.
  { clear. induction (Js.dec n) as [| x a IH]; [reflexivity |].
    change (String x a = String x (a +:+ "")). by f_equal. }
  by rewrite digits_dec.
Qed.

(** X3. When [DEFAULT_APPOINTMENT_DURATION] is set in the environment it is
    a text [s], and [minute + minutesToAdd] is the text of the minute
    followed by [s]. On a printed time of day, for a text of [k] decimal
    digits ([k] at most 9, so that the number read stays exact and the date
    in range) that reads as [v], [addMinutesToTime] therefore adds
    [minute * (10^k - 1) + v] minutes, where [minute] is the minute within
    the hour: the intended [v] only on the full hour. *)
Theorem addMinutesToTime_text cycle m s v :
  0 <= m < 1440 ->
  Js.Number s = Some v ->
  (String.length s <= 9)%nat ->
  addMinutesToTime cycle (hh_mm cycle m) (MinutesText s)
  = hh_mm cycle ((m + (m mod 60) * (10 ^ Z.of_nat (String.length s) - 1) + v) mod 1440)
  /\ (m mod 60 = 0 ->
      addMinutesToTime cycle (hh_mm cycle m) (MinutesText s)
      = addMinutesToTime cycle (hh_mm cycle m) (Minutes v)).
Proof.
  intros Hm Hv _. unfold addMinutesToTime at 1 2. rewrite (read_hh_mm cycle m Hm).
  cbn [plus_minutes]. unfold Js.Number in *.
  pose proof (Z.mod_pos_bound m 60 ltac:(lia)) as Hr.
  rewrite (digits_dec (m mod 60) s) by lia. rewrite (digits_go_shift s (m mod 60)).
  rewrite Hv. cbn [fmap option_fmap option_map].
  assert (Heq : (printed_hour cycle m * 60
                 + (m mod 60 * 10 ^ Z.of_nat (String.length s) + v)) mod 1440
                = (m + m mod 60 * (10 ^ Z.of_nat (String.length s) - 1) + v) mod 1440).
  { replace (printed_hour cycle m * 60 + (m mod 60 * 10 ^ Z.of_nat (String.length s) + v))
      with ((printed_hour cycle m * 60 + m mod 60)
            + (m mod 60 * (10 ^ Z.of_nat (String.length s) - 1) + v)) by lia.
    rewrite <- Zplus_mod_idemp_l, (printed_hour_minutes cycle m Hm). f_equal. lia. }
  rewrite Heq. split; [reflexivity |].
  intros Hz. rewrite (plus_minutes_numeric cycle m v Hm), Hz. f_equal. f_equal. lia.
Qed.

Lemma addMinutesToTime_text_witness :
  addMinutesToTime h23 (hh_mm h23 615) (MinutesText "30")
  = hh_mm h23 ((615 + (615 mod 60) * (10 ^ Z.of_nat (String.length "30") - 1) + 30) mod 1440)
  /\ hh_mm h23 ((615 + (615 mod 60) * (10 ^ Z.of_nat (String.length "30") - 1) + 30) mod 1440)
     = "11:30".
Proof.
  split; [| by vm_compute].
  exact (proj1 (addMinutesToTime_text h23 615 "30" 30 ltac:(lia) eq_refl
                  ltac:(cbn; lia))).
Defined.

(** *** The slot of the scheduling request *)

Lemma local_minute_of_day_range offset t : 0 <= local_minute_of_day offset t < 1440.
Proof. unfold local_minute_of_day. apply Z.mod_pos_bound. lia. Qed.

(** X4. With the numeric duration [n], the two ends of the slot in the
    scheduling request are written on the same calendar date, the UTC date
    of the start instant: the start at the wall-clock time of day of that
    instant, the end at the time of day [n] minutes later, wrapped around
    midnight. *)
Theorem appointment_body_slot env call t n :
  DEFAULT_APPOINTMENT_DURATION env = Minutes n ->
  start (appointment_body env call t)
  = iso_date t +:+ " "
    +:+ hh_mm (hour_cycle env) (local_minute_of_day (timezone_offset env) t) +:+ ":00"
  /\ end_ (appointment_body env call t)
     = iso_date t +:+ " "
       +:+ hh_mm (hour_cycle env) ((local_minute_of_day (timezone_offset env) t + n) mod 1440)
       +:+ ":00".
Proof.
  intros Hn. unfold appointment_body. cbn [start end_]. rewrite Hn. unfold local_time.
  split; [reflexivity |].
  by rewrite (plus_minutes_numeric _ _ n (local_minute_of_day_range _ t)).
Qed.

Lemma appointment_body_slot_witness :
  end_ (appointment_body booking_env (call_of booking_env booking_body demo_customer ∅)
          late_evening)
  = iso_date late_evening +:+ " "
    +:+ hh_mm h23 ((local_minute_of_day 0 late_evening + 30) mod 1440) +:+ ":00".
Proof.
  exact (proj2 (appointment_body_slot booking_env
                  (call_of booking_env booking_body demo_customer ∅) late_evening 30 eq_refl)).
Defined.

(** *** How often a run reaches each collaborator *)

Lemma count_app k a b : count k (a ++ b) = (count k a + count k b)%nat.
Proof. unfold count. by rewrite filter_app, length_app. Qed.

Lemma count_cons k e evs :
  count k (e :: evs) = ((if decide (kind_of e = k) then 1 else 0) + count k evs)%nat.
Proof. unfold count. rewrite filter_cons. by destruct (decide (kind_of e = k)). Qed.

Lemma count_nil k : count k [] = 0%nat.
Proof. reflexivity. Qed.

Ltac count_list :=
  rewrite ?count_cons, ?count_nil; cbn [kind_of] in *;
  repeat match goal with |- context [decide ?P] => destruct (decide P); try done end;
  cbn in *; lia.

Lemma count_speech env text language k :
  (count k (speech_events env text language)
   <= match k with Synthesis | Log => 1 | _ => 0 end)%nat.
Proof.
  unfold speech_events, ultravoxTextToSpeech.
  destruct (negb (Js.truthy (ULTRAVOX_TTS_URL env))); [destruct k; vm_compute; lia |].
  run_monad. destruct (tts_post env text language); destruct k; vm_compute; lia.
Qed.

Lemma count_translate env text source target k :
  (count k (translate_events env text source target)
   <= match k with Translation | Log => 1 | _ => 0 end)%nat.
Proof.
  unfold translate_events, translateText.
  destruct (translationClient env) as [client|]; [| destruct k; vm_compute; lia].
  destruct (negb (Js.truthy (Some text)) || Js.strict_eq source target);
    [destruct k; vm_compute; lia |].
  run_monad. destruct (translate client text source target); destruct k; vm_compute; lia.
Qed.

Lemma count_input env speechResult detectedLanguage k :
  (count k (input_events env speechResult detectedLanguage)
   <= match k with Translation | Log => 1 | _ => 0 end)%nat.
Proof.
  unfold input_events, translateInput.
  destruct (Js.truthy speechResult && negb (Js.strict_eq detectedLanguage (Some "en")));
    [| destruct k; vm_compute; lia].
  unfold bind. rewrite translateText_run. unfold ret, events. cbn [snd].
  rewrite app_nil_r. apply count_translate.
Qed.

Lemma count_parse env textToParse k :
  (count k (parse_events env textToParse)
   <= match k with Parsing | Log => 1 | _ => 0 end)%nat.
Proof.
  unfold parse_events, parseAppointmentTime.
  destruct (Js.truthy textToParse); [| destruct k; vm_compute; lia].
  run_monad. destruct (chrono_parse env _) as [[|]|]; destruct k; vm_compute; lia.
Qed.

Lemma count_detect env hint speechResult c k :
  (count k (events (detectLanguage env hint speechResult c))
   <= match k with CacheRead | CacheWrite | Detection | Log => 1 | _ => 0 end)%nat.
Proof.
  unfold detectLanguage.
  destruct (if negb (Js.truthy hint) && Js.truthy speechResult then translationClient env else None)
    as [client|].
  - destruct (redis env) as [r|]; run_monad.
    + destruct (get_error r _); [destruct k; vm_compute; lia |]. cbv beta iota.
      destruct (negb (Js.truthy (fst <$> c !! _))); [| destruct k; vm_compute; lia]. cbv beta iota.
      destruct (detect client _) as [language|]; [| destruct k; vm_compute; lia]. cbv beta iota.
      destruct (Js.truthy language); [| destruct k; vm_compute; lia].
      destruct (set_error r _ _); destruct k; vm_compute; lia.
    + destruct (negb (Js.truthy hint)); [| destruct k; vm_compute; lia].
      destruct (detect client _); destruct k; vm_compute; lia.
  - destruct (negb (Js.truthy hint)); destruct k; vm_compute; lia.
Qed.

Lemma count_save env record k :
  (count k (save_events env record)
   <= match k with AnalyticsWrite | Log => 1 | _ => 0 end)%nat.
Proof.
  destruct (save_events_cases env record) as [[_ ->] | [_ [-> | ->]]];
    destruct k; vm_compute; lia.
Qed.

Lemma count_recovery env call t record k :
  k <> Log ->
  (count k (recovery env call t record)
   <= match k with
      | Translation | Synthesis => if storable record then 0 else 1
      | _ => 0
      end)%nat.
Proof.
  intros Hk. unfold recovery, reply_events.
  pose proof (count_translate env unexpected_error (Some "en") (c_detectedLanguage call) k).
  pose proof (count_speech env
                (translated env unexpected_error (Some "en") (c_detectedLanguage call))
                (c_detectedLanguage call) k).
  destruct (storable record); [destruct k; vm_compute; lia |].
  destruct t; rewrite ?count_app; cbn [error_log]; destruct k; try done; count_list.
Qed.

Lemma count_processed env call appointmentStart t attempt message record k :
  processed env call appointmentStart t attempt message record ->
  k <> Log ->
  (count k (processed_events env call t attempt message record)
   <= match k with
      | Translation | Synthesis => if storable record then 1 else 2
      | Scheduling | Response | AnalyticsWrite => 1
      | _ => 0
      end)%nat.
Proof.
  intros Hp Hk. unfold processed_events, reply_events.
  rewrite !count_app, count_cons, count_app.
  pose proof (count_translate env message (Some "en") (c_detectedLanguage call) k).
  pose proof (count_speech env (translated env message (Some "en") (c_detectedLanguage call))
                (c_detectedLanguage call) k).
  pose proof (count_save env record k).
  pose proof (count_recovery env call t record k Hk).
  assert (count k (error_log t) = 0)%nat.
  { destruct t; cbn [error_log]; destruct k; try done; count_list. }
  assert (count k attempt <= match k with Scheduling => 1 | _ => 0 end)%nat.
  { destruct (processed_attempt _ _ _ _ _ _ _ Hp) as [-> | (d & _ & ->)];
      destruct k; count_list. }
  destruct (storable record); destruct k; try done; count_list.
Qed.

(** X5. In every run of the handler each of customer directory, cache
    read, cache write, language detection, date parser, scheduler and
    analytics store is reached at most once, and exactly one response is
    sent. A run that is served to the end asks the translator at most twice
    (once for the caller's words, once for the answer) and speech synthesis
    once; a run in which the analytics document cannot be stored after the
    answer asks each of them once more, for the error sentence of step 8,
    so at most three times and twice. *)
Theorem voice_reaches_each_once env body c k :
  k <> Log ->
  (count k (events (voice env body c)) <= call_limit_raised k)%nat
  /\ count Response (events (voice env body c)) = 1%nat
  /\ (forall t, result (voice env body c) = Normal t ->
        (count k (events (voice env body c)) <= call_limit k)%nat).
Proof.
  intros Hk.
  destruct (voice_run env body c) as (t & r & c' & evs & Hh & Hrun).
  rewrite Hrun. unfold events, result. cbn [fst snd]. clear Hrun.
  destruct Hh as [Hphone | query Hphone Hdb Hq | query msg Hphone Hdb Hq
                  | customer t attempt message record Hphone Hcust Hp].
  - rewrite !count_cons, !count_app, !count_cons, !count_nil.
    pose proof (count_speech env missing_caller (Some "en") k).
    pose proof (count_speech env missing_caller (Some "en") Response).
    split; [destruct k; try done; count_list |].
    split; [count_list |]. intros _ _. destruct k; try done; count_list.
  - rewrite !count_cons, !count_app, !count_cons, !count_nil.
    pose proof (count_speech env record_not_found (early_language body) k).
    pose proof (count_speech env record_not_found (early_language body) Response).
    split; [destruct k; try done; count_list |].
    split; [count_list |]. intros _ _. destruct k; try done; count_list.
  - rewrite !count_cons, !count_app, !count_cons, !count_nil.
    pose proof (count_speech env database_error (early_language body) k).
    pose proof (count_speech env database_error (early_language body) Response).
    split; [destruct k; try done; count_list |].
    split; [count_list |]. intros _ _. destruct k; try done; count_list.
  - unfold stage_events. rewrite !count_app.
    assert (Hl : forall k', (count k' (match db env with
                                       | Some _ => [DbQuery (Js.show (phone_of body))]
                                       | None => []
                                       end)
                             <= match k' with Lookup => 1 | _ => 0 end)%nat).
    { intros k'. destruct (db env); destruct k'; count_list. }
    pose proof (Hl k). pose proof (Hl Response).
    pose proof (count_detect env (hint_of body) (speech_of body) c k).
    pose proof (count_detect env (hint_of body) (speech_of body) c Response).
    pose proof (count_input env (speech_of body)
                  (language_of env (hint_of body) (speech_of body) c) k).
    pose proof (count_input env (speech_of body)
                  (language_of env (hint_of body) (speech_of body) c) Response).
    pose proof (count_parse env (text_to_parse env body c) k).
    pose proof (count_parse env (text_to_parse env body c) Response).
    pose proof (count_processed _ _ _ _ _ _ _ k Hp Hk) as Hcount.
    assert (count Response (processed_events env (call_of env body customer c) t attempt
                              message record) = 1)%nat.
    { pose proof (processed_events_responses _ _ _ _ _ _ _ Hp) as Hr.
      unfold responses in Hr. unfold count.
      clear -Hr. revert Hr.
      generalize (processed_events env (call_of env body customer c) t attempt message record).
      intros l. generalize (status_of t, reply env
                              (c_detectedLanguage (call_of env body customer c)) message).
      intros p. revert p. induction l as [| e l IH]; intros p; [discriminate |].
      rewrite filter_cons. destruct e; cbn; try (by apply IH).
      intros [= _ Hl]. destruct (decide (Response = Response)); [| done]. cbn. f_equal.
      clear -Hl. induction l as [| e l IH]; [done |].
      rewrite filter_cons. destruct e; cbn in *; try (by apply IH). discriminate. }
    split; [destruct (storable record); destruct k; try done; count_list |].
    split; [count_list |].
    intros t' Hres. unfold outcome in Hres.
    destruct (storable record); [| discriminate].
    destruct k; try done; count_list.
Qed.

Lemma voice_reaches_each_once_witness :
  count Translation (events (voice spanish_unnumbered_env booking_body ∅)) = 3%nat
  /\ (count Translation (events (voice spanish_unnumbered_env booking_body ∅))
      <= call_limit_raised Translation)%nat.
Proof.
  split; [by vm_compute |].
  exact (proj1 (voice_reaches_each_once spanish_unnumbered_env booking_body ∅ Translation
                  ltac:(discriminate))).
Defined.

Lemma count_elem e evs : e ∈ evs -> (1 <= count (kind_of e) evs)%nat.
Proof.
  induction 1 as [e evs | e e' evs _ IH]; rewrite count_cons.
  - destruct (decide (kind_of e = kind_of e)); [lia | done].
  - lia.
Qed.

Lemma count_stage env body c k :
  (count k (stage_events env body c)
   <= match k with
      | CacheRead | CacheWrite | Detection | Translation | Parsing => 1
      | Log => 3
      | _ => 0
      end)%nat.
Proof.
  unfold stage_events. rewrite !count_app.
  pose proof (count_detect env (hint_of body) (speech_of body) c k).
  pose proof (count_input env (speech_of body)
                (language_of env (hint_of body) (speech_of body) c) k).
  pose proof (count_parse env (text_to_parse env body c) k).
  destruct k; lia.
Qed.

(** *** Requests that end before the language step *)

(** X6. A request that ends in [MissingCallerId], [CustomerMissing] or
    [DatabaseOutage] leaves the cache as it was and reaches none of cache,
    language detection, translator, date parser, scheduler and analytics
    store; without a caller's number the customer directory is not asked
    either. *)
Theorem voice_early_exit env body c t :
  result (voice env body c) = Normal t ->
  t = MissingCallerId \/ t = CustomerMissing \/ t = DatabaseOutage ->
  cache (voice env body c) = c
  /\ (forall k, k ∈ pipeline_kinds -> count k (events (voice env body c)) = 0%nat)
  /\ (t = MissingCallerId -> count Lookup (events (voice env body c)) = 0%nat).
Proof.
  intros Hres Ht.
  destruct (voice_run env body c) as (t' & r & c' & evs & Hh & Hrun).
  rewrite Hrun in Hres |- *. unfold result, cache, events in *. cbn [fst snd] in *.
  clear Hrun.
  destruct Hh as [Hphone | query Hphone Hdb Hq | query msg Hphone Hdb Hq
                  | customer t' attempt message record Hphone Hcust Hp].
  - injection Hres as <-. pose proof (count_speech env missing_caller (Some "en")) as Hs.
    split; [reflexivity |]. split.
    + intros k Hk. specialize (Hs k). rewrite count_cons, count_app.
      unfold pipeline_kinds in Hk. rewrite !elem_of_cons, elem_of_nil in Hk.
      destruct Hk as [-> | [-> | [-> | [-> | [-> | [-> | [-> | []]]]]]]]; count_list.
    + intros _. specialize (Hs Lookup). rewrite count_cons, count_app. count_list.
  - injection Hres as <-. pose proof (count_speech env record_not_found (early_language body)) as Hs.
    split; [reflexivity |]. split; [| done].
    intros k Hk. specialize (Hs k). rewrite count_cons, count_app.
    unfold pipeline_kinds in Hk. rewrite !elem_of_cons, elem_of_nil in Hk.
    destruct Hk as [-> | [-> | [-> | [-> | [-> | [-> | [-> | []]]]]]]]; count_list.
  - injection Hres as <-. pose proof (count_speech env database_error (early_language body)) as Hs.
    split; [reflexivity |]. split; [| done].
    intros k Hk. specialize (Hs k). rewrite !count_cons, count_app.
    unfold pipeline_kinds in Hk. rewrite !elem_of_cons, elem_of_nil in Hk.
    destruct Hk as [-> | [-> | [-> | [-> | [-> | [-> | [-> | []]]]]]]]; count_list.
  - exfalso. unfold outcome in Hres. destruct (storable record); [| discriminate].
    injection Hres as ->.
    destruct (processed_terminal _ _ _ _ _ _ _ Hp) as [-> | [-> | ->]];
      destruct Ht as [? | [? | ?]]; discriminate.
Qed.

Lemma voice_early_exit_witness :
  cache (voice bare_env anonymous_body cached_es) = cached_es
  /\ count Lookup (events (voice bare_env anonymous_body cached_es)) = 0%nat.
Proof.
  destruct (voice_early_exit bare_env anonymous_body cached_es MissingCallerId
              ltac:(by vm_compute) ltac:(by left)) as (Hc & _ & Hl).
  split; [exact Hc | by apply Hl].
Defined.

(** *** The customer lookup *)

(** X7. The customer directory is asked exactly once when it is configured
    and the request names its caller - with [caller_id] when that is
    present and not empty, with [From] otherwise - and not at all when it
    is not configured or the caller's number is missing. *)
Theorem voice_looks_up_caller env body c :
  lookups (events (voice env body c))
  = (if Js.truthy (phone_of body)
     then match db env with
          | Some _ => [Js.show (phone_of body)]
          | None => []
          end
     else [])
  /\ (Js.truthy (caller_id body) = true -> phone_of body = caller_id body)
  /\ (Js.truthy (caller_id body) = false -> phone_of body = From_ body).
Proof.
  split; [| unfold phone_of, Js.or; split; by intros ->].
  destruct (voice_run env body c) as (t & r & c' & evs & Hh & Hrun).
  rewrite Hrun. unfold events. cbn [snd]. clear Hrun.
  destruct Hh as [Hphone | query Hphone Hdb Hq | query msg Hphone Hdb Hq
                  | customer t attempt message record Hphone Hcust Hp];
    rewrite Hphone.
  - change (lookups (ConsoleError ?w :: ?l)) with (lookups l). rewrite lookups_app.
    by destruct (internal_silent _ (internal_speech env missing_caller (Some "en")))
      as (_ & _ & _ & ->).
  - rewrite Hdb. change (lookups (DbQuery ?w :: ?l)) with (w :: lookups l).
    rewrite lookups_app.
    by destruct (internal_silent _ (internal_speech env record_not_found (early_language body)))
      as (_ & _ & _ & ->).
  - rewrite Hdb.
    change (lookups (DbQuery ?w :: ConsoleError ?v :: ?l)) with (w :: lookups l).
    rewrite lookups_app.
    by destruct (internal_silent _ (internal_speech env database_error (early_language body)))
      as (_ & _ & _ & ->).
  - rewrite !lookups_app, (processed_events_lookups _ _ _ _ _ _ _ Hp).
    destruct (internal_silent _ (internal_stage env body c)) as (_ & _ & _ & ->).
    by destruct (db env).
Qed.

(** *** The analytics document *)

Lemma handled_customer_trace env body c customer t attempt message record :
  processed env (call_of env body customer c) (start_of env body c) t attempt message record ->
  let evs :=
    (match db env with Some _ => [DbQuery (Js.show (phone_of body))] | None => [] end
     ++ stage_events env body c
     ++ processed_events env (call_of env body customer c) t attempt message record)%list in
  analytics evs = (if storable record then [record] else [])
  /\ bookings evs = bookings attempt
  /\ responses evs
     = [(status_of t, reply env (language_of env (hint_of body) (speech_of body) c) message)].
Proof.
  intros Hp evs. subst evs.
  rewrite !analytics_app, !bookings_app, !responses_app, processed_events_bookings,
    (processed_events_analytics _ _ _ _ _ _ _ Hp),
    (processed_events_responses _ _ _ _ _ _ _ Hp).
  destruct (internal_silent _ (internal_stage env body c)) as (-> & -> & -> & _).
  by destruct (db env).
Qed.

(** X8. The analytics of a run tell its outcome. A document is written
    exactly when the run answers after the language step and then returns:
    none for a request that ends before the language step, and none when
    the document cannot be stored and the handler raises. The document is
    the only one of the run; it names the customer of the call, the call
    and the language of the call, which is defined; [appointmentBooked] is
    true exactly when the run answered in [Booked] - then with the defined
    id the scheduler answered and the parsed start instant; the reason is
    ['Parsing failed'] for [NotParsed], and for [BookingFailed] it is
    ['Server error: '] followed by the message of the error, which is the
    scheduler's own message when the scheduler rejected the request. *)
Theorem analytics_tell_outcome env body c :
  exists t payload,
    responses (events (voice env body c)) = [(status_of t, payload)]
    /\ (forall r, r ∈ analytics (events (voice env body c)) ->
          analytics (events (voice env body c)) = [r]
          /\ result (voice env body c) = Normal t
          /\ told env body c t r (events (voice env body c))
          /\ (appointmentBooked r = true <-> t = Booked)
          /\ a_detectedLanguage r = language_of env (hint_of body) (speech_of body) c
          /\ a_detectedLanguage r <> None
          /\ callId r = Js.or_else (Js.or (call_id body) (CallSid body)) "N/A"
          /\ exists customer, customer_for env (Js.show (phone_of body)) customer
                              /\ subscriberEmail r = email customer)
    /\ (analytics (events (voice env body c)) = []
        <-> t = MissingCallerId \/ t = CustomerMissing \/ t = DatabaseOutage
            \/ exists message, result (voice env body c) = Thrown message).
Proof.
  destruct (voice_run env body c) as (t & r & c' & evs & Hh & Hrun).
  destruct (handled_responses _ _ _ _ _ _ _ Hh) as [payload Hresp].
  exists t, payload. rewrite Hrun. unfold result, events. cbn [fst snd]. clear Hrun.
  split; [exact Hresp |]. clear Hresp.
  destruct Hh as [Hphone | query Hphone Hdb Hq | query msg Hphone Hdb Hq
                  | customer t attempt message record Hphone Hcust Hp].
  - assert (Ha : analytics (ConsoleError "Missing caller_id/From in request."
                            :: speech_events env missing_caller (Some "en")
                            ++ [Respond 400 (speech env missing_caller (Some "en"))]) = []).
    { change (analytics (ConsoleError ?w :: ?l)) with (analytics l). rewrite analytics_app.
      by destruct (internal_silent _ (internal_speech env missing_caller (Some "en")))
        as (_ & _ & -> & _). }
    rewrite Ha. split; [intros r0 Hr; by apply elem_of_nil in Hr | split; auto].
  - assert (Ha : analytics (DbQuery (Js.show (phone_of body))
                            :: speech_events env record_not_found (early_language body)
                            ++ [Respond 200 (speech env record_not_found (early_language body))])
                 = []).
    { change (analytics (DbQuery ?w :: ?l)) with (analytics l). rewrite analytics_app.
      by destruct (internal_silent _ (internal_speech env record_not_found
                                        (early_language body))) as (_ & _ & -> & _). }
    rewrite Ha. split; [intros r0 Hr; by apply elem_of_nil in Hr | split; auto].
  - assert (Ha : analytics (DbQuery (Js.show (phone_of body))
                            :: ConsoleError "Database error fetching customer:"
                            :: speech_events env database_error (early_language body)
                            ++ [Respond 500 (speech env database_error (early_language body))])
                 = []).
    { change (analytics (DbQuery ?w :: ConsoleError ?v :: ?l)) with (analytics l).
      rewrite analytics_app.
      by destruct (internal_silent _ (internal_speech env database_error
                                        (early_language body))) as (_ & _ & -> & _). }
    rewrite Ha. split; [intros r0 Hr; by apply elem_of_nil in Hr | split; auto].
  - destruct (handled_customer_trace env body c customer _ _ _ _ Hp) as (Ha & Hb & _).
    cbv zeta in Ha, Hb. rewrite Ha. unfold outcome.
    destruct (storable record) eqn:Hs.
    + split.
      * intros r0 Hr. apply list_elem_of_singleton in Hr as ->.
        split; [reflexivity |]. split; [reflexivity |].
        assert (Hlang : a_detectedLanguage record
                        = language_of env (hint_of body) (speech_of body) c)
          by by destruct Hp.
        split; [| split; [| split; [exact Hlang | split; [| split]]]].
        -- unfold told. rewrite Hb.
           destruct Hp as [| d Hconf | d msg Hconf Hpost | d aid msg Hconf Hpost Hfmt
                           | d aid ds ts Hconf Hpost Hd Ht].
           ++ done.
           ++ eexists. repeat split; try done.
           ++ eexists. repeat split; try done.
              intros b m [= <-] Hm. congruence.
           ++ eexists. repeat split; try done.
              intros b m [= <-] Hm. congruence.
           ++ eexists. repeat split; try done.
              unfold storable in Hs. cbn in Hs |- *.
              destruct (language_of env (hint_of body) (speech_of body) c); [| done].
              by destruct aid.
        -- destruct Hp; cbn; split; congruence.
        -- unfold storable in Hs. by destruct (a_detectedLanguage record).
        -- by destruct Hp.
        -- exists customer. split; [exact Hcust |]. by destruct Hp.
      * split; [done |]. intros [-> | [-> | [-> | [msg Hmsg]]]]; try discriminate;
          by destruct (processed_terminal _ _ _ _ _ _ _ Hp) as [? | [? | ?]].
    + split; [intros r0 Hr; by apply elem_of_nil in Hr |].
      split; [| done]. intros _. do 3 right. eauto.
Qed.

(** *** The language cache *)

Lemma detectLanguage_cache env hint speechResult c :
  let key := cache_key (Js.show speechResult) in
  cache (detectLanguage env hint speechResult c) = c
  \/ exists client code,
       translationClient env = Some client
       /\ detect client (Js.show speechResult) = Resolved (Some code)
       /\ code <> ""
       /\ Js.truthy (fst <$> c !! key) = false
       /\ cache (detectLanguage env hint speechResult c) = <[key := (code, 3600)]> c
       /\ language_of env hint speechResult c = Some code.
Proof.
  intros key. subst key. unfold language_of, detectLanguage, cache_key.
  destruct (Js.truthy hint) eqn:Hhint; [by left |].
  cbn [negb andb]. cbv iota.
  destruct (Js.truthy speechResult) eqn:Hspeech; [| by left].
  destruct (translationClient env) as [client|] eqn:Hclient; [| by left].
  destruct (redis env) as [r|].
  - run_monad. destruct (get_error r _); [by left |]. cbv beta iota.
    destruct (Js.truthy (fst <$> c !! _)) eqn:Hhit; [by left |].
    cbn [negb]. cbv iota.
    destruct (detect client _) as [language|] eqn:Hdet; [| by left]. cbv beta iota.
    destruct (Js.truthy language) eqn:Hlang; [| by left].
    destruct (truthy_inv _ Hlang) as (code & -> & Hne).
    change (Js.show (Some code)) with code.
    destruct (set_error r _ _); [by left |].
    right. exists client, code. by repeat split.
  - run_monad. rewrite Hhint. cbn [negb]. cbv iota.
    destruct (detect client _); by left.
Qed.

(** X9. Detection is asked once per speech text while its entry stays in
    the cache: with detection and cache configured and the cache commands
    for the text succeeding, after a run of the language step that found the
    code in the cache or had a non-empty code detected, a second run for
    the same text answers the same code from the cache alone - one cache
    read, no detection, no write - and leaves the cache as the first run
    left it. *)
Theorem detectLanguage_cached_after env client r hint text c :
  translationClient env = Some client ->
  redis env = Some r ->
  Js.truthy hint = false ->
  text <> "" ->
  get_error r (cache_key text) = None ->
  (forall code, set_error r (cache_key text) code = None) ->
  Js.truthy (fst <$> c !! cache_key text) = true
  \/ (exists code, detect client text = Resolved (Some code) /\ code <> "") ->
  let first := detectLanguage env hint (Some text) c in
  detectLanguage env hint (Some text) (cache first)
  = (result first, cache first, [RedisGet (cache_key text)]).
Proof.
  intros Hclient Hr Hhint Htext Hget Hset Hsource first. subst first.
  destruct (detectLanguage_detecting env client hint text c Hclient Hhint Htext) as [Hc _].
  destruct (Hc r Hr) as (_ & Hhit & Hmiss).
  destruct (Js.truthy (fst <$> c !! cache_key text)) eqn:Hold.
  - rewrite (Hhit Hget eq_refl). unfold cache, result. cbn [fst snd].
    destruct (detectLanguage_detecting env client hint text c Hclient Hhint Htext) as [Hc' _].
    destruct (Hc' r Hr) as (_ & Hhit' & _). by apply Hhit'.
  - destruct Hsource as [| (code & Hdet & Hcode)]; [done |].
    destruct (Hmiss Hget eq_refl) as [_ Hstore].
    destruct (Hstore code Hdet Hcode) as [Hstored _].
    rewrite (Hstored (Hset code)). unfold cache, result. cbn [fst snd].
    destruct (detectLanguage_detecting env client hint text
                (<[cache_key text := (code, 3600)]> c) Hclient Hhint Htext) as [Hc' _].
    destruct (Hc' r Hr) as (_ & Hhit' & _).
    rewrite lookup_insert_eq in Hhit'. cbn [fmap option_fmap option_map fst] in Hhit'.
    apply Hhit'; [exact Hget | by apply truthy_Some].
Qed.

Lemma detectLanguage_cached_after_witness :
  detectLanguage
    (with_translation (with_redis bare_env (Some reliable_redis))
       (Some (sample_client (Resolved "hello"))))
    None (Some "hola")
    (cache (detectLanguage
              (with_translation (with_redis bare_env (Some reliable_redis))
                 (Some (sample_client (Resolved "hello"))))
              None (Some "hola") cached_es))
  = (result (detectLanguage
               (with_translation (with_redis bare_env (Some reliable_redis))
                  (Some (sample_client (Resolved "hello"))))
               None (Some "hola") cached_es),
     cache (detectLanguage
              (with_translation (with_redis bare_env (Some reliable_redis))
                 (Some (sample_client (Resolved "hello"))))
              None (Some "hola") cached_es),
     [RedisGet (cache_key "hola")]).
Proof.
  apply (detectLanguage_cached_after
           (with_translation (with_redis bare_env (Some reliable_redis))
              (Some (sample_client (Resolved "hello"))))
           (sample_client (Resolved "hello")) reliable_redis None "hola" cached_es);
    try reflexivity; try done.
  left. by vm_compute.
Defined.

(** X10. A request changes the language cache at most at the key of its
    speech text, and only by adding an entry where none with a non-empty
    code was: the code the detection provider answered, which is then the
    language of the call, kept for 3600 seconds. *)
Theorem voice_cache_frame env body c :
  let key := cache_key (Js.show (speech_of body)) in
  (forall k, k <> key -> cache (voice env body c) !! k = c !! k)
  /\ (cache (voice env body c) = c
      \/ exists client code,
           translationClient env = Some client
           /\ detect client (Js.show (speech_of body)) = Resolved (Some code)
           /\ code <> ""
           /\ Js.truthy (fst <$> c !! key) = false
           /\ cache (voice env body c) = <[key := (code, 3600)]> c
           /\ language_of env (hint_of body) (speech_of body) c = Some code).
Proof.
  intros key.
  assert (Hc : cache (voice env body c) = c
               \/ cache (voice env body c)
                  = cache (detectLanguage env (hint_of body) (speech_of body) c)).
  { destruct (voice_run env body c) as (t & r & c' & evs & Hh & Hrun).
    rewrite Hrun. unfold cache at 1 3. cbn [fst snd]. destruct Hh; auto. }
  pose proof (detectLanguage_cache env (hint_of body) (speech_of body) c) as Hd.
  cbv zeta in Hd. fold key in Hd.
  assert (Hcases : cache (voice env body c) = c
      \/ exists client code,
           translationClient env = Some client
           /\ detect client (Js.show (speech_of body)) = Resolved (Some code)
           /\ code <> ""
           /\ Js.truthy (fst <$> c !! key) = false
           /\ cache (voice env body c) = <[key := (code, 3600)]> c
           /\ language_of env (hint_of body) (speech_of body) c = Some code).
  { destruct Hc as [Hc | Hc]; [by left |]. rewrite Hc.
    destruct Hd as [Hd | Hd]; [by left | by right]. }
  split; [| exact Hcases].
  intros k Hk. destruct Hcases as [-> | (client & code & _ & _ & _ & _ & -> & _)];
    [reflexivity |].
  by rewrite lookup_insert_ne.
Qed.

(** *** Callers who speak English *)

Lemma translate_events_none env text source target :
  translationClient env = None \/ source = target ->
  translate_events env text source target = [].
Proof.
  intros H. unfold translate_events, translateText.
  destruct (translationClient env) as [client|]; [| reflexivity].
  destruct H as [H | ->]; [discriminate |].
  by rewrite strict_eq_refl, orb_true_r.
Qed.

Lemma input_events_none env speechResult detectedLanguage :
  translationClient env = None \/ detectedLanguage = Some "en" ->
  input_events env speechResult detectedLanguage = [].
Proof.
  intros H. unfold input_events, translateInput.
  destruct (Js.truthy speechResult && negb (Js.strict_eq detectedLanguage (Some "en")))
    eqn:Hcond; [| reflexivity].
  unfold bind. rewrite translateText_run. unfold ret, events. cbn [snd]. rewrite app_nil_r.
  destruct H as [H | ->].
  - apply translate_events_none. by left.
  - rewrite strict_eq_refl in Hcond. cbn [negb] in Hcond. by rewrite andb_false_r in Hcond.
Qed.

Lemma detect_events_none env hint speechResult c :
  Js.truthy hint = true \/ Js.truthy speechResult = false \/ translationClient env = None ->
  detectLanguage env hint speechResult c
  = (Normal (if Js.truthy hint then hint else Some "en"), c, []).
Proof.
  intros H. unfold detectLanguage.
  destruct (Js.truthy hint); cbn [negb andb]; cbv iota; [reflexivity |].
  destruct H as [H | [-> | ->]]; [discriminate | reflexivity |].
  by destruct (Js.truthy speechResult).
Qed.

(** X11. The translation provider is not asked when the language of the
    call is ['en'] or no translation client is configured; and neither the
    cache nor language detection is touched, and the language of the call
    is the hint or else ['en'], when the request carries a language hint,
    has no speech text, or no translation client is configured. *)
Theorem voice_english_untranslated env body c :
  (language_of env (hint_of body) (speech_of body) c = Some "en"
   \/ translationClient env = None ->
   count Translation (events (voice env body c)) = 0%nat)
  /\ (Js.truthy (hint_of body) = true \/ Js.truthy (speech_of body) = false
      \/ translationClient env = None ->
      cache (voice env body c) = c
      /\ language_of env (hint_of body) (speech_of body) c
         = (if Js.truthy (hint_of body) then hint_of body else Some "en")
      /\ forall k, k ∈ [CacheRead; CacheWrite; Detection] ->
           count k (events (voice env body c)) = 0%nat).
Proof.
  destruct (voice_run env body c) as (t & r & c' & evs & Hh & Hrun).
  rewrite Hrun. unfold cache, events. cbn [fst snd]. clear Hrun.
  split.
  - intros Hen.
    destruct Hh as [Hphone | query Hphone Hdb Hq | query msg Hphone Hdb Hq
                    | customer t attempt message record Hphone Hcust Hp].
    + pose proof (count_speech env missing_caller (Some "en") Translation).
      rewrite !count_cons, !count_app, !count_cons, !count_nil. count_list.
    + pose proof (count_speech env record_not_found (early_language body) Translation).
      rewrite !count_cons, !count_app, !count_cons, !count_nil. count_list.
    + pose proof (count_speech env database_error (early_language body) Translation).
      rewrite !count_cons, !count_app, !count_cons, !count_nil. count_list.
    + assert (Hlang : translationClient env = None
                      \/ language_of env (hint_of body) (speech_of body) c = Some "en")
        by tauto.
      assert (Hnone : forall text,
                 translate_events env text (Some "en")
                   (c_detectedLanguage (call_of env body customer c)) = []).
      { intros text. apply translate_events_none. cbn [c_detectedLanguage call_of].
        destruct Hlang as [Hl | Hl]; [by left | right; by rewrite Hl]. }
      assert (Hrecover : count Translation
                           (recovery env (call_of env body customer c) t record) = 0%nat).
      { unfold recovery, reply_events. destruct (storable record); [done |].
        pose proof (count_speech env
                      (translated env unexpected_error (Some "en")
                         (c_detectedLanguage (call_of env body customer c)))
                      (c_detectedLanguage (call_of env body customer c)) Translation).
        destruct t; try done; rewrite !count_app, Hnone; cbn [error_log]; count_list. }
      unfold stage_events, processed_events, reply_events.
      rewrite !count_app, count_cons, count_app, Hrecover.
      rewrite (input_events_none env _ _ Hlang).
      rewrite (Hnone message).
      pose proof (count_detect env (hint_of body) (speech_of body) c Translation).
      pose proof (count_parse env (text_to_parse env body c) Translation).
      pose proof (count_speech env
                    (translated env message (Some "en")
                       (c_detectedLanguage (call_of env body customer c)))
                    (c_detectedLanguage (call_of env body customer c)) Translation).
      pose proof (count_save env record Translation).
      assert (count Translation attempt = 0)%nat by (destruct Hp; by vm_compute).
      assert (count Translation (error_log t) = 0)%nat by (destruct t; by vm_compute).
      assert (count Translation
                (match db env with
                 | Some _ => [DbQuery (Js.show (phone_of body))] | None => [] end) = 0)%nat
        by (destruct (db env); by vm_compute).
      rewrite count_nil. count_list.
  - intros Hnone. pose proof (detect_events_none env _ _ c Hnone) as Hd.
    assert (Hl : language_of env (hint_of body) (speech_of body) c
                 = (if Js.truthy (hint_of body) then hint_of body else Some "en")).
    { unfold language_of. by rewrite Hd. }
    assert (Hc : c' = c).
    { destruct Hh; try reflexivity. by rewrite Hd. }
    split; [exact Hc |]. split; [exact Hl |].
    intros k Hk.
    assert (Hkind : k <> Log
                    /\ match k with CacheRead | CacheWrite | Detection => True | _ => False end).
    { set_unfold in Hk. destruct Hk as [-> | [-> | [-> | []]]]; by split. }
    destruct Hkind as [Hlog Hkind].
    destruct Hh as [Hphone | query Hphone Hdb Hq | query msg Hphone Hdb Hq
                    | customer t attempt message record Hphone Hcust Hp].
    + pose proof (count_speech env missing_caller (Some "en") k).
      rewrite !count_cons, !count_app, !count_cons, !count_nil.
      destruct k; try done; count_list.
    + pose proof (count_speech env record_not_found (early_language body) k).
      rewrite !count_cons, !count_app, !count_cons, !count_nil.
      destruct k; try done; count_list.
    + pose proof (count_speech env database_error (early_language body) k).
      rewrite !count_cons, !count_app, !count_cons, !count_nil.
      destruct k; try done; count_list.
    + unfold stage_events. rewrite !count_app. rewrite Hd. unfold events at 1. cbn [snd].
      rewrite count_nil.
      pose proof (count_input env (speech_of body)
                    (language_of env (hint_of body) (speech_of body) c) k).
      pose proof (count_parse env (text_to_parse env body c) k).
      pose proof (count_processed env _ _ _ _ _ _ k Hp Hlog).
      assert (count k (match db env with
                       | Some _ => [DbQuery (Js.show (phone_of body))] | None => [] end) = 0)%nat
        by (destruct (db env); destruct k; done).
      destruct k; try done; count_list.
Qed.

(** *** What the date parser is given *)

Lemma parse_events_elem env textToParse text :
  ChronoParse text ∈ parse_events env textToParse -> textToParse = Some text /\ text <> "".
Proof.
  unfold parse_events, parseAppointmentTime.
  destruct (Js.truthy textToParse) eqn:Ht.
  - destruct (truthy_inv _ Ht) as (s & -> & Hne). run_monad.
    change (Js.show (Some s)) with s.
    destruct (chrono_parse env s); unfold events; cbn [snd app]; intros Hin;
      set_unfold in Hin; destruct Hin as [[= ->] | Hin]; try done;
      destruct Hin as [[=] | []].
  - unfold ret, events. cbn [snd]. intros Hin. by apply elem_of_nil in Hin.
Qed.

Lemma input_text_cases env speechResult detectedLanguage :
  input_text env speechResult detectedLanguage = speechResult
  \/ exists client s text,
       translationClient env = Some client
       /\ speechResult = Some s /\ s <> ""
       /\ Js.strict_eq detectedLanguage (Some "en") = false
       /\ translate client s detectedLanguage (Some "en") = Resolved text
       /\ input_text env speechResult detectedLanguage = Some text.
Proof.
  unfold input_text, translateInput.
  destruct (Js.truthy speechResult) eqn:Hs; [| by left].
  destruct (Js.strict_eq detectedLanguage (Some "en")) eqn:Hen; [by left |].
  cbn [negb andb]. cbv iota.
  destruct (truthy_inv _ Hs) as (s & -> & Hne). change (Js.show (Some s)) with s.
  unfold bind. rewrite translateText_run. unfold ret, result. cbn [fst].
  unfold translated, translateText.
  destruct (translationClient env) as [client|]; [| by left].
  destruct (negb (Js.truthy (Some s)) || Js.strict_eq detectedLanguage (Some "en"));
    [by left |].
  run_monad. destruct (translate client s detectedLanguage (Some "en")) as [text|] eqn:Htr;
    [| by left].
  right. by exists client, s, text.
Qed.

(** X12. The date parser is only ever given a non-empty text, and that
    text is the caller's speech as the request carries it or, for a call
    whose language is not ['en'], what the translation provider answered
    for that speech from the language of the call to English. *)
Theorem parser_reads_speech env body c text :
  ChronoParse text ∈ events (voice env body c) ->
  text <> ""
  /\ exists s,
       speech_of body = Some s /\ s <> ""
       /\ (text = s
           \/ exists client,
                translationClient env = Some client
                /\ Js.strict_eq (language_of env (hint_of body) (speech_of body) c) (Some "en")
                   = false
                /\ translate client s (language_of env (hint_of body) (speech_of body) c)
                     (Some "en") = Resolved text).
Proof.
  intros Hin.
  assert (Hparse : ChronoParse text ∈ parse_events env (text_to_parse env body c)).
  { destruct (voice_run env body c) as (t & r & c' & evs & Hh & Hrun).
    rewrite Hrun in Hin. unfold events in Hin. cbn [snd] in Hin. clear Hrun.
    pose proof (count_elem _ _ Hin) as Hcount. cbn [kind_of] in Hcount.
    destruct Hh as [Hphone | query Hphone Hdb Hq | query msg Hphone Hdb Hq
                    | customer t attempt message record Hphone Hcust Hp].
    - pose proof (count_speech env missing_caller (Some "en") Parsing).
      exfalso. rewrite !count_cons, !count_app, !count_cons, !count_nil in Hcount.
      cbn [kind_of] in Hcount.
      repeat match type of Hcount with
             | context [decide ?P] => destruct (decide P); try done
             end.
      cbv iota in *. lia.
    - pose proof (count_speech env record_not_found (early_language body) Parsing).
      exfalso. rewrite !count_cons, !count_app, !count_cons, !count_nil in Hcount.
      cbn [kind_of] in Hcount.
      repeat match type of Hcount with
             | context [decide ?P] => destruct (decide P); try done
             end.
      cbv iota in *. lia.
    - pose proof (count_speech env database_error (early_language body) Parsing).
      exfalso. rewrite !count_cons, !count_app, !count_cons, !count_nil in Hcount.
      cbn [kind_of] in Hcount.
      repeat match type of Hcount with
             | context [decide ?P] => destruct (decide P); try done
             end.
      cbv iota in *. lia.
    - clear Hcount. unfold stage_events in Hin. rewrite !elem_of_app in Hin.
      destruct Hin as [Hin | [[Hin | [Hin | Hin]] | Hin]].
      + destruct (db env); set_unfold in Hin; [by destruct Hin as [[=] | []] | done].
      + apply count_elem in Hin. cbn [kind_of] in Hin.
        pose proof (count_detect env (hint_of body) (speech_of body) c Parsing).
        cbv iota in *. lia.
      + apply count_elem in Hin. cbn [kind_of] in Hin.
        pose proof (count_input env (speech_of body)
                      (language_of env (hint_of body) (speech_of body) c) Parsing).
        cbv iota in *. lia.
      + exact Hin.
      + apply count_elem in Hin. cbn [kind_of] in Hin.
        pose proof (count_processed env _ _ _ _ _ _ Parsing Hp ltac:(done)).
        cbv iota in *. lia. }
  apply parse_events_elem in Hparse as [Htext Hne]. split; [exact Hne |].
  unfold text_to_parse in Htext.
  destruct (input_text_cases env (speech_of body)
              (language_of env (hint_of body) (speech_of body) c))
    as [Hsame | (client & s & text' & Hclient & Hs & Hsne & Hen & Htr & Hout)].
  - rewrite Hsame in Htext. exists text. by repeat split; [| | left].
  - rewrite Hout in Htext. injection Htext as ->.
    exists s. split; [exact Hs |]. split; [exact Hsne |]. right. by exists client.
Qed.


Lemma parser_reads_speech_witness :
  exists s, speech_of booking_body = Some s /\ s <> "".
Proof.
  destruct (parser_reads_speech booking_env booking_body ∅
              "book me for tonight at a quarter to midnight"
              ltac:(apply list_elem_of_In; vm_compute; tauto)) as (_ & s & Hs & Hne & _).
  by exists s.
Defined.

(** *** What the caller is answered *)

(** X13. The one response of a run carries the speech handle synthesized,
    in the language of the outcome, for the sentence of the outcome: the
    fixed English sentence of each failure and, for [Booked], the
    confirmation built from the date and the time of the parsed start as
    formatted for the language of the call. The sentences of the outcomes
    reached after the language step are given to the translator (from
    English to the language of the call) first; those of a missing caller
    number, an unknown customer and a database outage are synthesized
    untranslated, in ['en'] or the language hint. The state the run
    answers in is the one it returns in, when it returns. *)
Theorem voice_answers_outcome env body c :
  exists t message,
    worded env body c t message
    /\ responses (events (voice env body c))
       = [(status_of t,
           speech env (answer_text env body c t message) (answer_language env body c t))]
    /\ (forall t', result (voice env body c) = Normal t' -> t' = t).
Proof.
  destruct (voice_run env body c) as (t & r & c' & evs & Hh & Hrun).
  rewrite Hrun. unfold result, events. cbn [fst snd]. clear Hrun.
  destruct Hh as [Hphone | query Hphone Hdb Hq | query msg Hphone Hdb Hq
                  | customer t attempt message record Hphone Hcust Hp].
  - exists MissingCallerId, missing_caller. split; [reflexivity |].
    split; [| by intros t' [= <-]].
    change (responses (ConsoleError ?w :: ?l)) with (responses l). rewrite responses_app.
    by destruct (internal_silent _ (internal_speech env missing_caller (Some "en")))
      as (_ & -> & _).
  - exists CustomerMissing, record_not_found. split; [reflexivity |].
    split; [| by intros t' [= <-]].
    change (responses (DbQuery ?w :: ?l)) with (responses l). rewrite responses_app.
    by destruct (internal_silent _ (internal_speech env record_not_found (early_language body)))
      as (_ & -> & _).
  - exists DatabaseOutage, database_error. split; [reflexivity |].
    split; [| by intros t' [= <-]].
    change (responses (DbQuery ?w :: ConsoleError ?v :: ?l)) with (responses l).
    rewrite responses_app.
    by destruct (internal_silent _ (internal_speech env database_error (early_language body)))
      as (_ & -> & _).
  - exists t, message.
    assert (Hret : forall t', outcome t record = Normal t' -> t' = t).
    { unfold outcome. destruct (storable record); [by intros t' [= <-] | discriminate]. }
    cut (worded env body c t message
         /\ responses
              ((match db env with
                | Some _ => [DbQuery (Js.show (phone_of body))] | None => [] end)
               ++ stage_events env body c
               ++ processed_events env (call_of env body customer c) t attempt message record)
            = [(status_of t,
                speech env (answer_text env body c t message)
                  (answer_language env body c t))]);
      [intros [? ?]; by repeat split |].
    clear Hret.
    assert (Hr : responses
                   ((match db env with
                     | Some _ => [DbQuery (Js.show (phone_of body))] | None => [] end)
                    ++ stage_events env body c
                    ++ processed_events env (call_of env body customer c) t attempt message
                         record)
                 = [(status_of t,
                     reply env (language_of env (hint_of body) (speech_of body) c) message)]).
    { rewrite !responses_app, (processed_events_responses _ _ _ _ _ _ _ Hp).
      destruct (internal_silent _ (internal_stage env body c)) as (_ & -> & _).
      by destruct (db env). }
    rewrite Hr. clear Hr. unfold reply.
    remember (start_of env body c) as start eqn:Hstart.
    destruct Hp as [| d Hconf | d msg Hconf Hpost | d aid msg Hconf Hpost Hfmt
                    | d aid ds ts Hconf Hpost Hd Ht]; (split; [| reflexivity]);
      try reflexivity.
    exists d, ds, ts. by repeat split.
Qed.

(** *** The duration of the call *)

Lemma dec_go_first fuel n acc :
  exists d rest, Js.dec_go (S fuel) n acc = String (Js.digit d) rest.
Proof.
  revert n acc. induction fuel as [| fuel IH]; intros n acc.
  - cbn [Js.dec_go]. destruct (n / 10 =? 0); by eexists _, _.
  - change (Js.dec_go (S (S fuel)) n acc)
      with (if n / 10 =? 0 then String (Js.digit n) acc
            else Js.dec_go (S fuel) (n / 10) (String (Js.digit n) acc)).
    destruct (n / 10 =? 0); [by eexists _, _ | apply IH].
Qed.

Lemma digit_plain n :
  (forall rest, Js.space_width (String (Js.digit n) rest) = 0%nat)
  /\ Js.digit n <> "-"%char /\ Js.digit n <> "+"%char.
Proof.
  unfold Js.digit. pose proof (Z.mod_pos_bound n 10 ltac:(lia)) as Hr.
  assert (Hcases : n mod 10 = 0 \/ n mod 10 = 1 \/ n mod 10 = 2 \/ n mod 10 = 3
                   \/ n mod 10 = 4 \/ n mod 10 = 5 \/ n mod 10 = 6 \/ n mod 10 = 7
                   \/ n mod 10 = 8 \/ n mod 10 = 9) by lia.
  destruct Hcases as [H | [H | [H | [H | [H | [H | [H | [H | [H | H]]]]]]]]];
    rewrite H; by vm_compute.
Qed.

Lemma digits_prefix_all s a v :
  Js.digits_go s a = Some v -> Js.digits_prefix s (Some a) = Some v.
Proof.
  revert a. induction s as [| ch s IH]; intros a; cbn [Js.digits_go Js.digits_prefix].
  - done.
  - destruct (Js.is_digit ch); [| discriminate]. cbn [default]. apply IH.
Qed.

(** [parseInt] reads the decimal text of a number back as the number. *)
Lemma parseInt_dec n : 0 <= n -> Js.parseInt (Js.dec n) = Some n.
Proof.
  intros Hn. pose proof (Number_dec n Hn) as Hnum. unfold Js.Number in Hnum.
  unfold Js.parseInt.
  destruct (dec_go_first (Z.to_nat (Z.log2 n)) n "") as (d & rest & Hdec).
  fold (Js.dec n) in Hdec. rewrite Hdec in Hnum |- *.
  destruct (digit_plain d) as (Hspace & Hminus & Hplus).
  unfold Js.trim_start. cbn [String.length Js.trim_start_go]. rewrite Hspace.
  destruct (digit_spec d) as [Hdigit _].
  cbn [Js.digits_go] in Hnum. rewrite Hdigit in Hnum.
  assert (Hread : Js.digits_prefix (String (Js.digit d) rest) None = Some n).
  { cbn [Js.digits_prefix]. rewrite Hdigit. cbn [default]. by apply digits_prefix_all. }
  revert Hread Hminus Hplus. generalize (Js.digit d). intros ch Hread Hminus Hplus.
  destruct ch as [b0 b1 b2 b3 b4 b5 b6 b7].
  destruct b0, b1, b2, b3, b4, b5, b6, b7; try exact Hread; congruence.
Qed.

(** X14. The duration of an analytics document is the number (below 2^53,
    where [parseInt] is exact) that the request gives as decimal text in
    [duration], or in [CallDuration] when [duration] is missing or empty,
    and 0 when both are. *)
Theorem analytics_duration env body c n :
  0 <= n < 2 ^ 53 ->
  Js.or (duration body) (CallDuration body) = Some (Js.dec n)
  \/ (n = 0 /\ Js.truthy (Js.or (duration body) (CallDuration body)) = false) ->
  Forall (fun r => a_duration r = Some n) (analytics (events (voice env body c))).
Proof.
  intros [Hn _] Hd.
  assert (Hread : Js.parseInt (Js.or_else (Js.or (duration body) (CallDuration body)) "0")
                  = Some n).
  { destruct Hd as [-> | [-> Hnone]].
    - unfold Js.or_else.
      destruct (String.eqb_spec (Js.dec n) "") as [He | _]; [| by apply parseInt_dec].
      exfalso. destruct (dec_go_first (Z.to_nat (Z.log2 n)) n "") as (d & rest & Hdec).
      fold (Js.dec n) in Hdec. congruence.
    - unfold Js.or_else, Js.truthy in *.
      destruct (Js.or (duration body) (CallDuration body)) as [s|]; [| reflexivity].
      by destruct (String.eqb s ""). }
  destruct (voice_run env body c) as (t & r & c' & evs & Hh & Hrun).
  rewrite Hrun. unfold events. cbn [snd]. clear Hrun.
  destruct Hh as [Hphone | query Hphone Hdb Hq | query msg Hphone Hdb Hq
                  | customer t attempt message record Hphone Hcust Hp].
  - change (analytics (ConsoleError ?w :: ?l)) with (analytics l). rewrite analytics_app.
    by destruct (internal_silent _ (internal_speech env missing_caller (Some "en")))
      as (_ & _ & -> & _).
  - change (analytics (DbQuery ?w :: ?l)) with (analytics l). rewrite analytics_app.
    by destruct (internal_silent _ (internal_speech env record_not_found
                                      (early_language body))) as (_ & _ & -> & _).
  - change (analytics (DbQuery ?w :: ConsoleError ?v :: ?l)) with (analytics l).
    rewrite analytics_app.
    by destruct (internal_silent _ (internal_speech env database_error
                                      (early_language body))) as (_ & _ & -> & _).
  - destruct (handled_customer_trace env body c customer _ _ _ _ Hp) as [Ha _].
    cbv zeta in Ha. rewrite Ha. destruct (storable record); [| constructor].
    constructor; [| constructor]. by destruct Hp.
Qed.

Lemma analytics_duration_witness :
  a_duration <$> analytics (events (voice booking_env booking_body ∅)) = [Some 12]
  /\ Forall (fun r => a_duration r = Some 12)
       (analytics (events (voice booking_env booking_body ∅))).
Proof.
  split; [by vm_compute |].
  apply (analytics_duration booking_env booking_body ∅ 12); [lia |].
  left. reflexivity.
Defined.

End ServerProofs.

(** ** Properties of [twilio-functions/stream.js] *)

Module StreamProofs.

Import Stream StreamSpec.

(** *** The running sum and count *)

Lemma scored_session st samples : scored keyed st (session samples) = samples.
Proof.
  revert st. induction samples as [| score rest IH]; intros st; [reflexivity |].
  cbn [session scored]. unfold caller_says at 1. cbn [pending step on_message].
  destruct (pending st); cbn; by rewrite IH.
Qed.

Lemma run_app context turns more :
  run context (turns ++ more) = fold_left (step context) more (run context turns).
Proof. unfold run. apply fold_left_app. Qed.

Lemma fold_scored context turns st :
  sentimentCount (fold_left (step context) turns st)
  = (sentimentCount st + length (scored context st turns))%nat
  /\ finalSentimentScore (fold_left (step context) turns st)
     = total (finalSentimentScore st) (scored context st turns).
Proof.
  revert st. induction turns as [| turn rest IH]; intros st.
  - cbn. split; [lia | reflexivity].
  - cbn [fold_left scored]. destruct (IH (step context st turn)) as [IHc IHs].
    rewrite IHc, IHs. clear IH IHc IHs.
    destruct turn as [frame | outcome |].
    + destruct frame; cbn; split; reflexivity || lia.
    + cbn [step]. unfold on_settled.
      destruct (pending st) as [| n] eqn:Hp.
      * destruct outcome; split; reflexivity || lia.
      * destruct outcome; cbn; split; reflexivity || lia.
    + cbn. split; reflexivity || lia.
Qed.

(** *** The thresholds *)

Lemma above_not_below x :
  PrimFloat.ltb threshold x = true -> PrimFloat.ltb x (PrimFloat.opp threshold) = false.
Proof.
  rewrite !ltb_spec. unfold SFltb.
  change (Prim2SF threshold) with (S754_finite false 7205759403792794 (-55)).
  change (Prim2SF (PrimFloat.opp threshold)) with (S754_finite true 7205759403792794 (-55)).
  destruct (Prim2SF x) as [s | s | | s m e]; cbn [SFcompare];
    try destruct s; try discriminate; try reflexivity.
Qed.

Lemma final_sentiment_cases sum count :
  (0 < count)%nat ->
  let average := average sum count in
  (final_sentiment sum count = positive <-> PrimFloat.ltb threshold average = true)
  /\ (final_sentiment sum count = negative
      <-> PrimFloat.ltb average (PrimFloat.opp threshold) = true)
  /\ (final_sentiment sum count = neutral
      <-> PrimFloat.ltb threshold average = false
          /\ PrimFloat.ltb average (PrimFloat.opp threshold) = false).
Proof.
  intros Hcount average0. unfold final_sentiment. fold average0.
  assert ((0 <? count)%nat = true) as -> by by apply Nat.ltb_lt.
  destruct (PrimFloat.ltb threshold average0) eqn:Hhigh.
  - rewrite (above_not_below _ Hhigh). repeat split; try done. by intros [? _].
  - destruct (PrimFloat.ltb average0 (PrimFloat.opp threshold)); repeat split; try done.
    by intros [_ ?].
Qed.

(** C4. For every sequence of turns before the close, the sum and the
    count the close handler reads are the left-to-right sum and the number
    of the scores added so far, and the sentiment of the summary it gives
    to the callback is [neutral] when that number is 0; otherwise, with
    [quotient] the sum divided by the count (in binary64, as the code
    computes), it is [positive] exactly when [quotient > 0.2], [negative]
    exactly when [quotient < -0.2], and [neutral] in the remaining case,
    which includes a quotient equal to [0.2]. The literal [0.2] is the
    number 0x1.999999999999ap-3. *)
Theorem final_sentiment_thresholds context turns :
  let samples := scored context initial turns in
  let st := run context turns in
  let sentiment := s_sentiment (summary st) in
  let quotient :=
    PrimFloat.div (total 0 samples)
      (PrimFloat.of_uint63 (Uint63.of_Z (Z.of_nat (length samples)))) in
  callbacks (step context st Close) = (callbacks st ++ [summary st])%list
  /\ sentimentCount st = length samples
  /\ finalSentimentScore st = total 0 samples
  /\ (length samples = 0%nat -> sentiment = neutral)
  /\ ((0 < length samples)%nat ->
      (sentiment = positive <-> PrimFloat.ltb 0x1.999999999999ap-3 quotient = true)
      /\ (sentiment = negative <-> PrimFloat.ltb quotient (-0x1.999999999999ap-3) = true)
      /\ (sentiment = neutral
          <-> PrimFloat.ltb 0x1.999999999999ap-3 quotient = false
              /\ PrimFloat.ltb quotient (-0x1.999999999999ap-3) = false)
      /\ (quotient = 0x1.999999999999ap-3%float -> sentiment = neutral)).
Proof.
  intros samples st sentiment quotient.
  destruct (fold_scored context turns initial) as [Hcount Hsum].
  fold (run context turns) in Hcount, Hsum. fold st in Hcount, Hsum.
  fold samples in Hcount, Hsum. cbn in Hcount, Hsum.
  split; [reflexivity |]. split; [exact Hcount |]. split; [exact Hsum |].
  subst sentiment. unfold summary. cbn [s_sentiment]. rewrite Hcount, Hsum.
  split.
  - intros ->. reflexivity.
  - intros Hpos.
    destruct (final_sentiment_cases (total 0 samples) (length samples) Hpos)
      as (Hp & Hn & Hz).
    change (average (total 0 samples) (length samples)) with quotient in Hp, Hn, Hz.
    change (PrimFloat.opp threshold) with (-0x1.999999999999ap-3)%float in Hn, Hz.
    change threshold with 0x1.999999999999ap-3%float in Hp, Hz.
    split; [exact Hp | split; [exact Hn | split; [exact Hz |]]].
    intros Heq. apply Hz. rewrite Heq. split; reflexivity.
Qed.

Lemma final_sentiment_thresholds_witness :
  s_sentiment
    (summary
       (run keyed
          [caller_says "fine"; Settle (DocumentSentiment 0x1.999999999999ap-4%float);
           caller_says "good"; Settle (DocumentSentiment 0x1.3333333333333p-2%float)]))
  = neutral.
Proof.
  apply (final_sentiment_thresholds keyed
           [caller_says "fine"; Settle (DocumentSentiment 0x1.999999999999ap-4%float);
            caller_says "good"; Settle (DocumentSentiment 0x1.3333333333333p-2%float)]).
  - cbn. lia.
  - reflexivity.
Defined.

(** *** Closing with scoring requests in flight *)

(** C8 as stated fails: the caller speaks, the connection closes while the
    scoring request is in flight, and the summary is given to the callback
    at once, with the [neutral] of an empty count; the score that arrives
    later changes nothing, while the same score settled before the close
    makes the sentiment [positive]. *)
Lemma close_does_not_wait :
  pending (run keyed [caller_says "I love it"; Close]) = 1%nat
  /\ s_sentiment <$> callbacks (run keyed [caller_says "I love it"; Close]) = [neutral]
  /\ callbacks (run keyed [caller_says "I love it"; Close;
                           Settle (DocumentSentiment 0x1.ccccccccccccdp-1%float)])
     = callbacks (run keyed [caller_says "I love it"; Close])
  /\ s_sentiment <$> callbacks (run keyed [caller_says "I love it";
                                          Settle (DocumentSentiment 0x1.ccccccccccccdp-1%float);
                                          Close])
     = [positive].
Proof. vm_compute. repeat split; reflexivity. Qed.

Lemma settle_keeps_callbacks st outcome : callbacks (on_settled st outcome) = callbacks st.
Proof. unfold on_settled. destruct (pending st); [reflexivity |]. by destruct outcome. Qed.

Lemma settlements_keep_callbacks context outcomes st :
  callbacks (fold_left (step context) (Settle <$> outcomes) st) = callbacks st.
Proof.
  revert st. induction outcomes as [| outcome rest IH]; intros st; [reflexivity |].
  cbn [fmap list_fmap fold_left]. rewrite IH. apply settle_keeps_callbacks.
Qed.

(** C8, as the code has it. When the connection closes, the summary is
    computed at once, from the sum and the count of the scores added before
    the close, however many scoring requests are still in flight; the
    requests that settle after the close do not change what the callback
    was given. *)
Theorem close_summarizes_settled context turns outcomes :
  let samples := scored context initial turns in
  callbacks (run context (turns ++ [Close]))
  = (callbacks (run context turns) ++ [summary (run context turns)])%list
  /\ s_sentiment (summary (run context turns))
     = final_sentiment (total 0 samples) (length samples)
  /\ callbacks (run context (turns ++ Close :: (Settle <$> outcomes)))
     = callbacks (run context (turns ++ [Close])).
Proof.
  intros samples.
  destruct (fold_scored context turns initial) as [Hcount Hsum].
  fold (run context turns) in Hcount, Hsum. fold samples in Hcount, Hsum.
  cbn in Hcount, Hsum.
  split; [| split].
  - rewrite run_app. reflexivity.
  - unfold summary. cbn [s_sentiment]. by rewrite Hcount, Hsum.
  - rewrite !run_app. cbn [fold_left]. apply settlements_keep_callbacks.
Qed.

(** *** The last agent line *)

(** C9 where the agent speaks first and once, and where it does not speak:
    the [text] of the summary is the whole first line of the transcript,
    label included, not the agent's words, and the caller's line when there
    is no agent line. After a caller line the agent's words are found. *)
Theorem lastAgentResponse_first_line :
  s_text <$> callbacks (run keyed [agent_says "Hello"; Close]) = ["Receptionist: Hello"]
  /\ s_text <$> callbacks (run keyed [caller_says "Hi"; Close]) = ["Caller: Hi"]
  /\ s_text <$> callbacks (run keyed [agent_says "Hello"; caller_says "Hi"; Close])
     = ["Receptionist: Hello"]
  /\ s_text <$> callbacks (run keyed [caller_says "Hi"; agent_says "Hello"; Close])
     = ["Hello"].
Proof. vm_compute. repeat split; reflexivity. Qed.

(** *** Sessions without a scoring key *)

Lemma step_keyless context st turn :
  Js.truthy (GOOGLE_API_KEY context) = false ->
  pending st = 0%nat ->
  pending (step context st turn) = 0%nat
  /\ sentimentCount (step context st turn) = sentimentCount st
  /\ finalSentimentScore (step context st turn) = finalSentimentScore st
  /\ (callbacks (step context st turn) = callbacks st
      \/ callbacks (step context st turn) = (callbacks st ++ [summary st])%list).
Proof.
  intros Hkey Hp. destruct turn as [[| response] | outcome |]; cbn [step].
  - cbn [on_message]. repeat split; try done; by left.
  - cbn [on_message pending sentimentCount finalSentimentScore callbacks].
    rewrite Hkey, andb_false_r. repeat split; try done; by left.
  - unfold on_settled. rewrite Hp. repeat split; try done; by left.
  - cbn [on_close pending sentimentCount finalSentimentScore callbacks].
    repeat split; try done; by right.
Qed.

(** X15. Without [GOOGLE_API_KEY] in the context no scoring request is ever
    started: whatever frames arrive and however the session is driven,
    nothing is in flight, the count and the sum stay 0, and every payload
    given to the callback reports the sentiment [neutral]. *)
Theorem keyless_session_neutral context turns :
  Js.truthy (GOOGLE_API_KEY context) = false ->
  pending (run context turns) = 0%nat
  /\ sentimentCount (run context turns) = 0%nat
  /\ finalSentimentScore (run context turns) = 0%float
  /\ Forall (fun payload => s_sentiment payload = neutral) (callbacks (run context turns)).
Proof.
  intros Hkey. induction turns as [| turn turns IH] using rev_ind.
  - by repeat split.
  - rewrite run_app. cbn [fold_left].
    destruct IH as (Hp & Hc & Hs & Hall).
    destruct (step_keyless context (run context turns) turn Hkey Hp) as (-> & -> & -> & Hcb).
    repeat split; try done.
    destruct Hcb as [-> | ->]; [exact Hall |].
    apply Forall_app. split; [exact Hall |]. constructor; [| constructor].
    unfold summary. cbn [s_sentiment]. by rewrite Hc.
Qed.

Lemma keyless_session_neutral_witness :
  Forall (fun payload => s_sentiment payload = neutral)
    (callbacks (run keyless [caller_says "I love it";
                             Settle (DocumentSentiment 0x1.ccccccccccccdp-1%float); Close])).
Proof.
  apply (keyless_session_neutral keyless
           [caller_says "I love it";
            Settle (DocumentSentiment 0x1.ccccccccccccdp-1%float); Close]).
  reflexivity.
Defined.

(** *** The transcript *)

Lemma append_empty_r (s : string) : s +:+ "" = s.
Proof.
  induction s as [| a s IH]; [reflexivity |].
  change (String a (s +:+ "") = String a s). by f_equal.
Qed.

Lemma append_associative (a b c : string) : (a +:+ b) +:+ c = a +:+ b +:+ c.
Proof.
  induction a as [| x a IH]; [reflexivity |].
  change (String x ((a +:+ b) +:+ c) = String x (a +:+ b +:+ c)). by f_equal.
Qed.

Lemma on_message_transcript context st frame :
  transcript (on_message context st frame) = transcript st +:+ lines frame.
Proof.
  destruct frame as [| response]; cbn [on_message lines transcript].
  - by rewrite append_empty_r.
  - destruct (Js.truthy (input response)), (Js.truthy (text response));
      by rewrite ?append_associative, ?append_empty_r.
Qed.

Lemma fold_transcript context turns st :
  transcript (fold_left (step context) turns st) = transcript st +:+ heard turns.
Proof.
  revert st. induction turns as [| turn turns IH]; intros st.
  - cbn. by rewrite append_empty_r.
  - cbn [fold_left]. rewrite IH. destruct turn as [frame | outcome |]; cbn [step heard].
    + by rewrite on_message_transcript, append_associative.
    + unfold on_settled. destruct (pending st); [reflexivity |]. by destruct outcome.
    + reflexivity.
Qed.

Lemma heard_app turns more : heard (turns ++ more) = heard turns +:+ heard more.
Proof.
  induction turns as [| turn turns IH]; [reflexivity |].
  destruct turn as [frame | outcome |]; cbn [app heard]; rewrite IH;
    by rewrite ?append_associative.
Qed.

(** X16. The transcript is the lines of the frames received, in the order
    of arrival - for each frame its caller line, then its agent line, each
    only when the field is present and not empty - and nothing else:
    malformed frames, scoring results, the scoring key and closes add
    nothing; what arrives later is appended; and the payload of a close
    carries the transcript of exactly the frames that arrived before it. *)
Theorem transcript_in_arrival_order context turns more :
  transcript (run context turns) = heard turns
  /\ transcript (run context (turns ++ more)) = transcript (run context turns) +:+ heard more
  /\ List.last (s_transcript <$> callbacks (run context (turns ++ [Close]))) "" = heard turns.
Proof.
  assert (H : forall l, transcript (run context l) = heard l).
  { intros l. unfold run. by rewrite fold_transcript. }
  split; [apply H |]. split.
  - by rewrite !H, heard_app.
  - rewrite run_app. cbn [fold_left step on_close callbacks].
    rewrite fmap_app. cbn [fmap list_fmap]. rewrite last_last. cbn [summary s_transcript]. apply H.
Qed.

(** *** The language of the session *)

Lemma last_cons {A} (x d : A) l : List.last (x :: l) d = List.last l x.
Proof.
  revert x d. induction l as [| y l IH]; intros x d; [reflexivity |].
  change (List.last (x :: y :: l) d) with (List.last (y :: l) d). by rewrite !IH.
Qed.

Lemma fold_language context turns st :
  detectedLanguage (fold_left (step context) turns st)
  = List.last (omap announced turns) (detectedLanguage st).
Proof.
  revert st. induction turns as [| turn turns IH]; intros st; [reflexivity |].
  cbn [fold_left]. rewrite IH.
  change (omap announced (turn :: turns))
    with (match announced turn with
          | Some code => code :: omap announced turns
          | None => omap announced turns
          end).
  destruct turn as [[| response] | outcome |]; cbn [step announced].
  - reflexivity.
  - cbn [on_message detectedLanguage].
    destruct (Js.truthy (r_detectedLanguage response)); [| reflexivity].
    by rewrite last_cons.
  - unfold on_settled. destruct (pending st); [reflexivity |]. by destruct outcome.
  - reflexivity.
Qed.

Lemma announced_not_empty turn code : announced turn = Some code -> code <> "".
Proof.
  destruct turn as [[| response] | outcome |]; try discriminate. cbn [announced].
  destruct (r_detectedLanguage response) as [s|] eqn:Hl; [| discriminate].
  unfold Js.truthy. destruct (String.eqb_spec s ""); cbn; [discriminate |].
  by intros [= <-].
Qed.

(** X17. The language of the session is the one of the last frame that
    carried a non-empty [detectedLanguage], ['en'] when no frame did; it is
    never the empty string; and it is what the payload of a close
    reports. *)
Theorem language_is_last_announced context turns :
  detectedLanguage (run context turns) = List.last (omap announced turns) "en"
  /\ detectedLanguage (run context turns) <> ""
  /\ List.last (s_detectedLanguage <$> callbacks (run context (turns ++ [Close]))) ""
     = List.last (omap announced turns) "en".
Proof.
  assert (H : detectedLanguage (run context turns) = List.last (omap announced turns) "en").
  { unfold run. by rewrite fold_language. }
  split; [exact H |]. split.
  - rewrite H. clear H.
    assert (Hall : Forall (fun code => code <> "") (omap announced turns)).
    { apply Forall_forall. intros code Hin. apply list_elem_of_omap in Hin as (turn & _ & Ht).
      by apply announced_not_empty in Ht. }
    revert Hall. generalize (omap announced turns). intros l Hall.
    assert (Hgen : forall d, d <> "" -> List.last l d <> "").
    { induction Hall as [| x l Hx _ IH]; intros d Hd; [exact Hd |].
      rewrite last_cons. by apply IH. }
    by apply Hgen.
  - rewrite run_app. cbn [fold_left step on_close callbacks].
    rewrite fmap_app. cbn [fmap list_fmap]. rewrite last_last. cbn [summary s_detectedLanguage]. exact H.
Qed.

(** *** Scoring requests *)

Lemma step_requests context st turn :
  (sentimentCount (step context st turn) + pending (step context st turn)
   <= sentimentCount st + pending st + (if asks context turn then 1 else 0))%nat
  /\ (sentimentCount st <= sentimentCount (step context st turn))%nat
  /\ length (callbacks (step context st turn))
     = (length (callbacks st) + (if closes turn then 1 else 0))%nat.
Proof.
  destruct turn as [[| response] | outcome |]; cbn [step asks closes].
  - cbn. lia.
  - cbn [on_message sentimentCount pending callbacks].
    destruct (Js.truthy (input response) && Js.truthy (GOOGLE_API_KEY context)); lia.
  - unfold on_settled. destruct (pending st) as [| n] eqn:Hp; [lia |].
    destruct outcome; cbn; rewrite ?Hp; lia.
  - cbn [on_close sentimentCount pending callbacks]. rewrite length_app. cbn. lia.
Qed.

(** X18. Each utterance is scored at most once: at every point of a
    session the number of scores counted plus the number of scoring
    requests in flight is at most the number of frames received with a
    caller input (while a key is configured), the count never decreases,
    and the callback has been given exactly one payload per close. *)
Theorem scores_bounded_by_utterances context turns more :
  (sentimentCount (run context turns) + pending (run context turns)
   <= length (filter (fun turn => asks context turn = true) turns))%nat
  /\ (sentimentCount (run context turns) <= sentimentCount (run context (turns ++ more)))%nat
  /\ length (callbacks (run context turns))
     = length (filter (fun turn => closes turn = true) turns).
Proof.
  assert (H : forall l,
             (sentimentCount (run context l) + pending (run context l)
              <= length (filter (fun turn => asks context turn = true) l))%nat
             /\ length (callbacks (run context l))
                = length (filter (fun turn => closes turn = true) l)).
  { intros l. induction l as [| turn l [IH1 IH2]] using rev_ind; [by cbn |].
    rewrite run_app, !filter_app, !length_app. cbn [fold_left].
    destruct (step_requests context (run context l) turn) as (Hs & _ & Hc).
    rewrite Hc, IH2. rewrite !filter_cons, !filter_nil.
    split.
    - destruct (decide (asks context turn = true)) as [Ha | Hn]; cbn [length].
      + rewrite Ha in Hs. lia.
      + destruct (asks context turn); [done | lia].
    - destruct (decide (closes turn = true)) as [Ha | Hn]; cbn [length].
      + rewrite Ha. lia.
      + destruct (closes turn); [done | lia]. }
  split; [apply H |]. split; [| apply H].
  rewrite run_app. generalize (run context turns). clear H.
  induction more as [| turn more IH]; intros st; [by cbn |].
  cbn [fold_left]. etrans; [| apply IH].
  by destruct (step_requests context st turn) as (_ & ? & _).
Qed.

End StreamProofs.

Module DashboardProofs.

Import Dashboard.

Lemma count_sentiment_rated counts call :
  positive (count_sentiment counts call)
  = (positive counts + length (rated "positive" [call]))%nat
  /\ negative (count_sentiment counts call)
     = (negative counts + length (rated "negative" [call]))%nat
  /\ neutral (count_sentiment counts call)
     = (neutral counts + length (rated "neutral" [call]))%nat.
Proof.
  unfold count_sentiment, rated. rewrite !filter_cons, !filter_nil.
  destruct (sentiment call) as [s|];
    [| repeat (destruct (decide _); [done |]); cbn; lia].
  change (Js.show (Some s)) with s. unfold Js.truthy.
  destruct (String.eqb_spec s "") as [-> | He]; cbn [negb];
    [repeat (destruct (decide _); [done |]); cbn; lia |].
  destruct (String.eqb_spec s "positive") as [-> | Hp];
    [repeat destruct (decide _); try congruence; cbn; lia |].
  destruct (String.eqb_spec s "negative") as [-> | Hn];
    [repeat destruct (decide _); try congruence; cbn; lia |].
  destruct (String.eqb_spec s "neutral") as [-> | Hu];
    [repeat destruct (decide _); try congruence; cbn; lia |].
  repeat destruct (decide _); try congruence; cbn; lia.
Qed.

Lemma rated_cons name call data :
  length (rated name (call :: data))
  = (length (rated name [call]) + length (rated name data))%nat.
Proof. unfold rated. rewrite !filter_cons, filter_nil. by destruct (decide _). Qed.

Lemma fold_rated data counts :
  positive (fold_left count_sentiment data counts)
  = (positive counts + length (rated "positive" data))%nat
  /\ negative (fold_left count_sentiment data counts)
     = (negative counts + length (rated "negative" data))%nat
  /\ neutral (fold_left count_sentiment data counts)
     = (neutral counts + length (rated "neutral" data))%nat.
Proof.
  revert counts. induction data as [| call data IH]; intros counts.
  - cbn. lia.
  - cbn [fold_left]. destruct (IH (count_sentiment counts call)) as (-> & -> & ->).
    destruct (count_sentiment_rated counts call) as (-> & -> & ->).
    rewrite !(rated_cons _ call data). lia.
Qed.

Lemma rated_disjoint call :
  (length (rated "positive" [call]) + length (rated "negative" [call])
   + length (rated "neutral" [call]) <= 1)%nat.
Proof.
  unfold rated. rewrite !filter_cons, !filter_nil.
  repeat destruct (decide _); cbn; try lia; congruence.
Qed.

(** X19. The sentiment chart counts, for each of ['positive'],
    ['negative'] and ['neutral'], the calls whose [sentiment] is exactly
    that word; a call with any other sentiment, or none, is counted
    nowhere, so the three numbers add up to at most the number of calls;
    and the chart says that there is no sentiment data exactly when no call
    has one of the three words (in particular for no calls at all). *)
Theorem sentiment_chart_counts data :
  positive (sentimentCounts data) = length (rated "positive" data)
  /\ negative (sentimentCounts data) = length (rated "negative" data)
  /\ neutral (sentimentCounts data) = length (rated "neutral" data)
  /\ (positive (sentimentCounts data) + negative (sentimentCounts data)
      + neutral (sentimentCounts data) <= length data)%nat
  /\ (SentimentChart (Some (sentimentData data)) = NoSentimentData
      <-> Forall (fun call => sentiment call <> Some "positive"
                              /\ sentiment call <> Some "negative"
                              /\ sentiment call <> Some "neutral") data).
Proof.
  destruct (fold_rated data {| positive := 0; negative := 0; neutral := 0 |})
    as (Hp & Hn & Hu).
  fold (sentimentCounts data) in Hp, Hn, Hu. cbn [positive negative neutral] in Hp, Hn, Hu.
  rewrite Nat.add_0_l in Hp, Hn, Hu.
  split; [exact Hp |]. split; [exact Hn |]. split; [exact Hu |]. split.
  - rewrite Hp, Hn, Hu. clear. induction data as [| call data IH]; [cbn; lia |].
    rewrite !(rated_cons _ call data). pose proof (rated_disjoint call). cbn [length]. lia.
  - unfold SentimentChart, sentimentData. cbn [datasets d_data forallb].
    rewrite Hp, Hn, Hu.
    assert (Hzero : forall name,
               length (rated name data) = 0%nat
               <-> Forall (fun call => sentiment call <> Some name) data).
    { clear. intros name. unfold rated. rewrite length_zero_iff_nil. split.
      - intros Hnil. apply Forall_forall. intros call Hin Hs.
        assert (Hc : call ∈ filter (fun call => sentiment call = Some name) data)
          by by apply list_elem_of_filter.
        rewrite Hnil in Hc. by apply elem_of_nil in Hc.
      - intros Hall. induction Hall as [| call rest Hcall _ IH]; [reflexivity |].
        rewrite filter_cons. by destruct (decide _). }
    rewrite !Forall_forall.
    destruct (length (rated "positive" data)) as [| p] eqn:Ep;
      destruct (length (rated "negative" data)) as [| n] eqn:En;
      destruct (length (rated "neutral" data)) as [| u] eqn:Eu; cbn [Nat.eqb andb];
      (split; [try discriminate | try reflexivity]).
    + intros _ call Hin.
      pose proof (proj1 (Hzero "positive") Ep) as H1.
      pose proof (proj1 (Hzero "negative") En) as H2.
      pose proof (proj1 (Hzero "neutral") Eu) as H3.
      rewrite Forall_forall in H1, H2, H3. by repeat split; auto.
    + intros Hall. exfalso.
      assert (Hz : length (rated "neutral" data) = 0%nat); [| lia].
      apply Hzero, Forall_forall. intros call Hin. by apply Hall.
    + intros Hall. exfalso.
      assert (Hz : length (rated "negative" data) = 0%nat); [| lia].
      apply Hzero, Forall_forall. intros call Hin. by apply Hall.
    + intros Hall. exfalso.
      assert (Hz : length (rated "negative" data) = 0%nat); [| lia].
      apply Hzero, Forall_forall. intros call Hin. by apply Hall.
    + intros Hall. exfalso.
      assert (Hz : length (rated "positive" data) = 0%nat); [| lia].
      apply Hzero, Forall_forall. intros call Hin. by apply Hall.
    + intros Hall. exfalso.
      assert (Hz : length (rated "positive" data) = 0%nat); [| lia].
      apply Hzero, Forall_forall. intros call Hin. by apply Hall.
    + intros Hall. exfalso.
      assert (Hz : length (rated "positive" data) = 0%nat); [| lia].
      apply Hzero, Forall_forall. intros call Hin. by apply Hall.
    + intros Hall. exfalso.
      assert (Hz : length (rated "positive" data) = 0%nat); [| lia].
      apply Hzero, Forall_forall. intros call Hin. by apply Hall.
Qed.

End DashboardProofs.
